(** * The G233 serial flash and its SPI controller

    A shallow embedding of [hw/block/m25p80_g233.c] (the flash command
    processor) and [hw/ssi/g233_spi.c] (the bus controller register model),
    with the properties of both that the design document relies on.

    Conventions.  C integers are integers of [Z] with the wrap-around of
    their type written out; a C array is a [list Z] of bytes indexed from 0.
    An access outside an array is undefined in C: every array access of the
    source goes through a helper that answers [None] there, and the
    operations of the flash live in the [option] monad.

    The file gives the definitions first (machine integers and arrays, the
    flash, the controller, then the predicates the statements use) and the
    proofs after them. *)

From Stdlib Require Import ZArith Lia Bool List.
From stdpp Require Import base option list.

Local Open Scope Z_scope.

(** ** Machine integers *)

Definition wrap_u8 (x : Z) : Z := x mod 2 ^ 8.
Definition wrap_u32 (x : Z) : Z := x mod 2 ^ 32.
Definition wrap_u64 (x : Z) : Z := x mod 2 ^ 64.

(** [int] arithmetic: QEMU is compiled with [-fwrapv], signed overflow wraps. *)
Definition wrap_int (x : Z) : Z := (x + 2 ^ 31) mod 2 ^ 32 - 2 ^ 31.

(** ** C arrays *)

(** [a[i]] as an rvalue. *)
Definition array_load (a : list Z) (i : Z) : option Z :=
  if decide (0 <= i) then a !! Z.to_nat i else None.

(** [a[i] = v]. *)
Definition array_store (a : list Z) (i v : Z) : option (list Z) :=
  if decide (0 <= i < Z.of_nat (length a))
  then Some (<[Z.to_nat i := v]> a) else None.

(** [memset(a + off, v, n)]. *)
Definition memset (a : list Z) (off v n : Z) : option (list Z) :=
  if decide (0 <= off /\ 0 <= n /\ off + n <= Z.of_nat (length a))
  then Some (list_inserts (Z.to_nat off) (replicate (Z.to_nat n) (wrap_u8 v)) a)
  else None.

(** [memcpy(dst + off, src, n)]. *)
Definition memcpy (dst : list Z) (off : Z) (src : list Z) (n : Z) : option (list Z) :=
  if decide (0 <= off /\ 0 <= n /\ off + n <= Z.of_nat (length dst)
             /\ n <= Z.of_nat (length src))
  then Some (list_inserts (Z.to_nat off) (take (Z.to_nat n) src) dst)
  else None.

Arguments memset : simpl never.
Arguments memcpy : simpl never.
Arguments array_load : simpl never.
Arguments array_store : simpl never.

(** A C scalar used as a condition. *)
Definition nonzero (x : Z) : bool := negb (x =? 0).

(** ** hw/block/m25p80_g233.c *)

(** Flash commands *)
Definition CMD_JEDEC_ID : Z := 0x9F.
Definition CMD_READ : Z := 0x03.
Definition CMD_WREN : Z := 0x06.
Definition CMD_WRDI : Z := 0x04.
Definition CMD_RDSR : Z := 0x05.
Definition CMD_WRSR : Z := 0x01.
Definition CMD_PP : Z := 0x02.
Definition CMD_SE : Z := 0x20.

(** Status register bits *)
Definition SR_WIP : Z := 0x01.

Inductive FlashState : Type :=
  | STATE_IDLE
  | STATE_READING_CMD
  | STATE_READING_ID
  | STATE_READING_DATA
  | STATE_READING_SR
  | STATE_WRITING_SR
  | STATE_WRITING_DATA
  | STATE_ERASING.

#[global] Instance FlashState_eq_dec : EqDecision FlashState.
Proof. solve_decision. Defined.

(** [struct G233FlashState], without the QOM parent and the unused block
    backend.  [storage] is the heap array of [size] bytes, [page_buf] the
    256-byte array, [jedec_id] the 3-byte array. *)
Record G233FlashState : Type := {
  storage : list Z;
  size : Z;
  jedec_id : list Z;
  state : FlashState;
  cmd : Z;
  addr : Z;
  addr_bytes : Z;
  data_pos : Z;
  status_reg : Z;
  write_enable : bool;
  page_buf : list Z;
  page_pos : Z
}.

(** Field assignments [s->f = v]. *)

Definition set_storage (v : list Z) (s : G233FlashState) : G233FlashState :=
  {| storage := v;
     size := size s;
     jedec_id := jedec_id s;
     state := state s;
     cmd := cmd s;
     addr := addr s;
     addr_bytes := addr_bytes s;
     data_pos := data_pos s;
     status_reg := status_reg s;
     write_enable := write_enable s;
     page_buf := page_buf s;
     page_pos := page_pos s |}.

Definition set_state (v : FlashState) (s : G233FlashState) : G233FlashState :=
  {| storage := storage s;
     size := size s;
     jedec_id := jedec_id s;
     state := v;
     cmd := cmd s;
     addr := addr s;
     addr_bytes := addr_bytes s;
     data_pos := data_pos s;
     status_reg := status_reg s;
     write_enable := write_enable s;
     page_buf := page_buf s;
     page_pos := page_pos s |}.

Definition set_cmd (v : Z) (s : G233FlashState) : G233FlashState :=
  {| storage := storage s;
     size := size s;
     jedec_id := jedec_id s;
     state := state s;
     cmd := v;
     addr := addr s;
     addr_bytes := addr_bytes s;
     data_pos := data_pos s;
     status_reg := status_reg s;
     write_enable := write_enable s;
     page_buf := page_buf s;
     page_pos := page_pos s |}.

Definition set_addr (v : Z) (s : G233FlashState) : G233FlashState :=
  {| storage := storage s;
     size := size s;
     jedec_id := jedec_id s;
     state := state s;
     cmd := cmd s;
     addr := v;
     addr_bytes := addr_bytes s;
     data_pos := data_pos s;
     status_reg := status_reg s;
     write_enable := write_enable s;
     page_buf := page_buf s;
     page_pos := page_pos s |}.

Definition set_addr_bytes (v : Z) (s : G233FlashState) : G233FlashState :=
  {| storage := storage s;
     size := size s;
     jedec_id := jedec_id s;
     state := state s;
     cmd := cmd s;
     addr := addr s;
     addr_bytes := v;
     data_pos := data_pos s;
     status_reg := status_reg s;
     write_enable := write_enable s;
     page_buf := page_buf s;
     page_pos := page_pos s |}.

Definition set_data_pos (v : Z) (s : G233FlashState) : G233FlashState :=
  {| storage := storage s;
     size := size s;
     jedec_id := jedec_id s;
     state := state s;
     cmd := cmd s;
     addr := addr s;
     addr_bytes := addr_bytes s;
     data_pos := v;
     status_reg := status_reg s;
     write_enable := write_enable s;
     page_buf := page_buf s;
     page_pos := page_pos s |}.

Definition set_status_reg (v : Z) (s : G233FlashState) : G233FlashState :=
  {| storage := storage s;
     size := size s;
     jedec_id := jedec_id s;
     state := state s;
     cmd := cmd s;
     addr := addr s;
     addr_bytes := addr_bytes s;
     data_pos := data_pos s;
     status_reg := v;
     write_enable := write_enable s;
     page_buf := page_buf s;
     page_pos := page_pos s |}.

Definition set_write_enable (v : bool) (s : G233FlashState) : G233FlashState :=
  {| storage := storage s;
     size := size s;
     jedec_id := jedec_id s;
     state := state s;
     cmd := cmd s;
     addr := addr s;
     addr_bytes := addr_bytes s;
     data_pos := data_pos s;
     status_reg := status_reg s;
     write_enable := v;
     page_buf := page_buf s;
     page_pos := page_pos s |}.

Definition set_page_buf (v : list Z) (s : G233FlashState) : G233FlashState :=
  {| storage := storage s;
     size := size s;
     jedec_id := jedec_id s;
     state := state s;
     cmd := cmd s;
     addr := addr s;
     addr_bytes := addr_bytes s;
     data_pos := data_pos s;
     status_reg := status_reg s;
     write_enable := write_enable s;
     page_buf := v;
     page_pos := page_pos s |}.

Definition set_page_pos (v : Z) (s : G233FlashState) : G233FlashState :=
  {| storage := storage s;
     size := size s;
     jedec_id := jedec_id s;
     state := state s;
     cmd := cmd s;
     addr := addr s;
     addr_bytes := addr_bytes s;
     data_pos := data_pos s;
     status_reg := status_reg s;
     write_enable := write_enable s;
     page_buf := page_buf s;
     page_pos := v |}.

(** [g233_flash_reset] *)
Definition g233_flash_reset (s : G233FlashState) : G233FlashState :=
  let s := set_state STATE_IDLE s in
  let s := set_cmd 0 s in
  let s := set_addr 0 s in
  let s := set_addr_bytes 0 s in
  let s := set_data_pos 0 s in
  let s := set_status_reg 0 s in
  let s := set_write_enable false s in
  set_page_pos 0 s.

(** The [STATE_IDLE] case of [g233_flash_transfer]: [s->cmd = tx] and the
    inner [switch (tx)]. *)
Definition transfer_idle (s : G233FlashState) (tx : Z) : G233FlashState :=
  let s := set_cmd (wrap_u8 tx) s in
  if tx =? CMD_JEDEC_ID then set_data_pos 0 (set_state STATE_READING_ID s)
  else if tx =? CMD_RDSR then set_state STATE_READING_SR s
  else if tx =? CMD_WREN then set_write_enable true s
  else if tx =? CMD_WRDI then set_write_enable false s
  else if tx =? CMD_READ then
    set_addr_bytes 0 (set_addr 0 (set_state STATE_READING_CMD s))
  else if tx =? CMD_PP then
    if write_enable s
    then set_page_pos 0
           (set_addr_bytes 0 (set_addr 0 (set_state STATE_READING_CMD s)))
    else s
  else if tx =? CMD_SE then
    if write_enable s
    then set_addr_bytes 0 (set_addr 0 (set_state STATE_READING_CMD s))
    else s
  else s.

(** The [STATE_READING_CMD] case: collect the 3-byte address, then dispatch
    on the command that opened the transaction. *)
Definition transfer_reading_cmd (s : G233FlashState) (tx : Z)
  : option G233FlashState :=
  let s := set_addr (Z.lor (wrap_u32 (Z.shiftl (addr s) 8)) tx) s in
  let s := set_addr_bytes (wrap_int (addr_bytes s + 1)) s in
  if 3 <=? addr_bytes s then
    if cmd s =? CMD_READ then
      Some (set_data_pos 0 (set_state STATE_READING_DATA s))
    else if cmd s =? CMD_PP then
      Some (set_state STATE_WRITING_DATA s)
    else if cmd s =? CMD_SE then
      let sector_addr := Z.land (addr s) (wrap_u32 (Z.lnot 0xFFF)) in
      st ← (if sector_addr <? size s
            then memset (storage s) sector_addr 0xFF 4096
            else Some (storage s));
      Some (set_state STATE_IDLE (set_write_enable false (set_storage st s)))
    else Some s
  else Some s.

(** [g233_flash_transfer]: the new device state and the byte returned. *)
Definition g233_flash_transfer (s : G233FlashState) (tx : Z)
  : option (G233FlashState * Z) :=
  '(s, rx) ←
    match state s with
    | STATE_IDLE => Some (transfer_idle s tx, 0)
    | STATE_READING_ID =>
        if data_pos s <? 3 then
          rx ← array_load (jedec_id s) (data_pos s);
          Some (set_data_pos (wrap_int (data_pos s + 1)) s, rx)
        else Some (s, 0xFF)
    | STATE_READING_SR => Some (set_state STATE_IDLE s, status_reg s)
    | STATE_READING_CMD =>
        s ← transfer_reading_cmd s tx; Some (s, 0)
    | STATE_READING_DATA =>
        let i := wrap_u32 (addr s + data_pos s) in
        rx ← (if i <? size s then array_load (storage s) i else Some 0xFF);
        Some (set_data_pos (wrap_int (data_pos s + 1)) s, rx)
    | STATE_WRITING_DATA =>
        if page_pos s <? 256 then
          pb ← array_store (page_buf s) (page_pos s) (wrap_u8 tx);
          Some (set_page_pos (wrap_int (page_pos s + 1)) (set_page_buf pb s), 0)
        else Some (s, 0)
    | STATE_WRITING_SR | STATE_ERASING => Some (set_state STATE_IDLE s, 0)
    end;
  Some (s, Z.land rx 0xFF).

(** The body shared by [g233_flash_set_cs] and [g233_flash_cs] for a
    deasserted chip select: complete a pending page program, then return to
    idle.  (The diagnostic [fprintf]s of [g233_flash_cs] are left out.) *)
Definition cs_deasserted (s : G233FlashState) : option G233FlashState :=
  s ← (if bool_decide (state s = STATE_WRITING_DATA) && (0 <? page_pos s) then
         st ← (if wrap_u32 (addr s + page_pos s) <=? size s
               then memcpy (storage s) (addr s) (page_buf s) (page_pos s)
               else Some (storage s));
         Some (set_write_enable false (set_storage st s))
       else Some s);
  Some (set_addr_bytes 0
          (set_addr 0 (set_page_pos 0 (set_data_pos 0 (set_state STATE_IDLE s))))).

(** [g233_flash_set_cs]: the SSI class hook; [select = false] is the
    deasserted line. *)
Definition g233_flash_set_cs (s : G233FlashState) (select : bool)
  : option G233FlashState :=
  if negb select then cs_deasserted s else Some s.

(** [g233_flash_cs]: the GPIO handler; a non-zero [level] is the deasserted
    (high) line. *)
Definition g233_flash_cs (s : G233FlashState) (n level : Z)
  : option G233FlashState :=
  if negb (level =? 0) then cs_deasserted s else Some s.

(** [g233_flash_realize] on a zero-filled instance whose [size] property is
    [size_prop]. *)
Definition g233_flash_realize (size_prop : Z) : G233FlashState :=
  let sz := if size_prop =? 0 then 2 * 1024 * 1024 else size_prop in
  let id2 := if sz =? 2 * 1024 * 1024 then 0x15
             else if sz =? 4 * 1024 * 1024 then 0x16 else 0 in
  {| storage := replicate (Z.to_nat sz) 0xFF;
     size := sz;
     jedec_id := [0xEF; 0x30; id2];
     state := STATE_IDLE;
     cmd := 0;
     addr := 0;
     addr_bytes := 0;
     data_pos := 0;
     status_reg := 0;
     write_enable := false;
     page_buf := replicate 256 0;
     page_pos := 0 |}.

(** ** hw/ssi/g233_spi.c *)

(** Register offsets *)
Definition SPI_CR1 : Z := 0x00.
Definition SPI_CR2 : Z := 0x04.
Definition SPI_SR : Z := 0x08.
Definition SPI_DR : Z := 0x0C.
Definition SPI_CSCTRL : Z := 0x10.

(** CR1 bits *)
Definition SPI_CR1_SPE : Z := Z.shiftl 1 6.
Definition SPI_CR1_MSTR : Z := Z.shiftl 1 2.

(** CR2 bits *)
Definition SPI_CR2_RXNEIE : Z := Z.shiftl 1 6.
Definition SPI_CR2_ERRIE : Z := Z.shiftl 1 5.
Definition SPI_CR2_TXEIE : Z := Z.shiftl 1 7.

(** SR bits *)
Definition SPI_SR_TXE : Z := Z.shiftl 1 1.
Definition SPI_SR_RXNE : Z := Z.shiftl 1 0.
Definition SPI_SR_UDR : Z := Z.shiftl 1 2.
Definition SPI_SR_OVR : Z := Z.shiftl 1 3.
Definition SPI_SR_BSY : Z := Z.shiftl 1 7.

Section Controller.

(** The SSI bus with whatever is attached to it, and [ssi_transfer]: one word
    out, one word back.  The bus code is QEMU's; the controller only needs
    this much of it. *)
Context {Bus : Type}.
Variable ssi_transfer : Bus -> Z -> Bus * Z.

(** [struct G233SPIState], without the QOM parent and the memory region.
    [irq] is the level last driven on the interrupt line.  [cs_lines] is the
    array of four chip-select lines: [None] is a line nobody is attached to
    (a NULL [qemu_irq]), [Some l] an attached line last driven to level [l]. *)
Record G233SPIState : Type := {
  ssi : Bus;
  irq : bool;
  cs_lines : list (option bool);
  cr1 : Z;
  cr2 : Z;
  sr : Z;
  dr_tx : Z;
  dr_rx : Z;
  csctrl : Z;
  prev_csctrl : Z;
  rx_fifo_has_data : bool;
  interrupt_count : Z
}.

(** Field assignments [s->f = v]. *)

Definition set_ssi (v : Bus) (s : G233SPIState) : G233SPIState :=
  {| ssi := v;
     irq := irq s;
     cs_lines := cs_lines s;
     cr1 := cr1 s;
     cr2 := cr2 s;
     sr := sr s;
     dr_tx := dr_tx s;
     dr_rx := dr_rx s;
     csctrl := csctrl s;
     prev_csctrl := prev_csctrl s;
     rx_fifo_has_data := rx_fifo_has_data s;
     interrupt_count := interrupt_count s |}.

Definition set_irq (v : bool) (s : G233SPIState) : G233SPIState :=
  {| ssi := ssi s;
     irq := v;
     cs_lines := cs_lines s;
     cr1 := cr1 s;
     cr2 := cr2 s;
     sr := sr s;
     dr_tx := dr_tx s;
     dr_rx := dr_rx s;
     csctrl := csctrl s;
     prev_csctrl := prev_csctrl s;
     rx_fifo_has_data := rx_fifo_has_data s;
     interrupt_count := interrupt_count s |}.

Definition set_cs_lines (v : list (option bool)) (s : G233SPIState) : G233SPIState :=
  {| ssi := ssi s;
     irq := irq s;
     cs_lines := v;
     cr1 := cr1 s;
     cr2 := cr2 s;
     sr := sr s;
     dr_tx := dr_tx s;
     dr_rx := dr_rx s;
     csctrl := csctrl s;
     prev_csctrl := prev_csctrl s;
     rx_fifo_has_data := rx_fifo_has_data s;
     interrupt_count := interrupt_count s |}.

Definition set_cr1 (v : Z) (s : G233SPIState) : G233SPIState :=
  {| ssi := ssi s;
     irq := irq s;
     cs_lines := cs_lines s;
     cr1 := v;
     cr2 := cr2 s;
     sr := sr s;
     dr_tx := dr_tx s;
     dr_rx := dr_rx s;
     csctrl := csctrl s;
     prev_csctrl := prev_csctrl s;
     rx_fifo_has_data := rx_fifo_has_data s;
     interrupt_count := interrupt_count s |}.

Definition set_cr2 (v : Z) (s : G233SPIState) : G233SPIState :=
  {| ssi := ssi s;
     irq := irq s;
     cs_lines := cs_lines s;
     cr1 := cr1 s;
     cr2 := v;
     sr := sr s;
     dr_tx := dr_tx s;
     dr_rx := dr_rx s;
     csctrl := csctrl s;
     prev_csctrl := prev_csctrl s;
     rx_fifo_has_data := rx_fifo_has_data s;
     interrupt_count := interrupt_count s |}.

Definition set_sr (v : Z) (s : G233SPIState) : G233SPIState :=
  {| ssi := ssi s;
     irq := irq s;
     cs_lines := cs_lines s;
     cr1 := cr1 s;
     cr2 := cr2 s;
     sr := v;
     dr_tx := dr_tx s;
     dr_rx := dr_rx s;
     csctrl := csctrl s;
     prev_csctrl := prev_csctrl s;
     rx_fifo_has_data := rx_fifo_has_data s;
     interrupt_count := interrupt_count s |}.

Definition set_dr_tx (v : Z) (s : G233SPIState) : G233SPIState :=
  {| ssi := ssi s;
     irq := irq s;
     cs_lines := cs_lines s;
     cr1 := cr1 s;
     cr2 := cr2 s;
     sr := sr s;
     dr_tx := v;
     dr_rx := dr_rx s;
     csctrl := csctrl s;
     prev_csctrl := prev_csctrl s;
     rx_fifo_has_data := rx_fifo_has_data s;
     interrupt_count := interrupt_count s |}.

Definition set_dr_rx (v : Z) (s : G233SPIState) : G233SPIState :=
  {| ssi := ssi s;
     irq := irq s;
     cs_lines := cs_lines s;
     cr1 := cr1 s;
     cr2 := cr2 s;
     sr := sr s;
     dr_tx := dr_tx s;
     dr_rx := v;
     csctrl := csctrl s;
     prev_csctrl := prev_csctrl s;
     rx_fifo_has_data := rx_fifo_has_data s;
     interrupt_count := interrupt_count s |}.

Definition set_csctrl (v : Z) (s : G233SPIState) : G233SPIState :=
  {| ssi := ssi s;
     irq := irq s;
     cs_lines := cs_lines s;
     cr1 := cr1 s;
     cr2 := cr2 s;
     sr := sr s;
     dr_tx := dr_tx s;
     dr_rx := dr_rx s;
     csctrl := v;
     prev_csctrl := prev_csctrl s;
     rx_fifo_has_data := rx_fifo_has_data s;
     interrupt_count := interrupt_count s |}.

Definition set_prev_csctrl (v : Z) (s : G233SPIState) : G233SPIState :=
  {| ssi := ssi s;
     irq := irq s;
     cs_lines := cs_lines s;
     cr1 := cr1 s;
     cr2 := cr2 s;
     sr := sr s;
     dr_tx := dr_tx s;
     dr_rx := dr_rx s;
     csctrl := csctrl s;
     prev_csctrl := v;
     rx_fifo_has_data := rx_fifo_has_data s;
     interrupt_count := interrupt_count s |}.

Definition set_rx_fifo_has_data (v : bool) (s : G233SPIState) : G233SPIState :=
  {| ssi := ssi s;
     irq := irq s;
     cs_lines := cs_lines s;
     cr1 := cr1 s;
     cr2 := cr2 s;
     sr := sr s;
     dr_tx := dr_tx s;
     dr_rx := dr_rx s;
     csctrl := csctrl s;
     prev_csctrl := prev_csctrl s;
     rx_fifo_has_data := v;
     interrupt_count := interrupt_count s |}.

Definition set_interrupt_count (v : Z) (s : G233SPIState) : G233SPIState :=
  {| ssi := ssi s;
     irq := irq s;
     cs_lines := cs_lines s;
     cr1 := cr1 s;
     cr2 := cr2 s;
     sr := sr s;
     dr_tx := dr_tx s;
     dr_rx := dr_rx s;
     csctrl := csctrl s;
     prev_csctrl := prev_csctrl s;
     rx_fifo_has_data := rx_fifo_has_data s;
     interrupt_count := v |}.

(** [s->cs_lines && s->cs_lines[i]] *)
Definition cs_line_attached (s : G233SPIState) (i : nat) : bool :=
  match cs_lines s !! i with
  | Some (Some _) => true
  | _ => false
  end.

(** [qemu_set_irq(s->cs_lines[i], level)] *)
Definition set_cs_line (i : nat) (level : bool) (s : G233SPIState) : G233SPIState :=
  set_cs_lines (<[i := Some level]> (cs_lines s)) s.

(** [g233_spi_update_irq] *)
Definition g233_spi_update_irq (s : G233SPIState) : G233SPIState :=
  let irq_state := false in
  (* RXNE interrupt *)
  let irq_state :=
    if nonzero (Z.land (cr2 s) SPI_CR2_RXNEIE) && nonzero (Z.land (sr s) SPI_SR_RXNE)
    then true else irq_state in
  (* TXE interrupt *)
  let irq_state :=
    if nonzero (Z.land (cr2 s) SPI_CR2_TXEIE) && nonzero (Z.land (sr s) SPI_SR_TXE)
    then true else irq_state in
  (* Error interrupt *)
  let irq_state :=
    if nonzero (Z.land (cr2 s) SPI_CR2_ERRIE)
       && nonzero (Z.land (sr s) (Z.lor SPI_SR_UDR SPI_SR_OVR))
    then true else irq_state in
  let s := if irq_state
           then set_interrupt_count (wrap_int (interrupt_count s + 1)) s
           else s in
  set_irq irq_state s.

(** [g233_spi_read]: the new controller state and the value read.  A bad
    offset is only logged. *)
Definition g233_spi_read (s : G233SPIState) (addr : Z) : G233SPIState * Z :=
  if addr =? SPI_CR1 then (s, cr1 s)
  else if addr =? SPI_CR2 then (s, cr2 s)
  else if addr =? SPI_SR then (s, sr s)
  else if addr =? SPI_DR then
    let ret := dr_rx s in
    (* Clear RXNE after reading *)
    let s := set_sr (Z.land (sr s) (wrap_u32 (Z.lnot SPI_SR_RXNE))) s in
    let s := set_rx_fifo_has_data false s in
    (g233_spi_update_irq s, ret)
  else if addr =? SPI_CSCTRL then (s, csctrl s)
  else (s, 0).

(** The [SPI_DR] case of [g233_spi_write]. *)
Definition write_dr (s : G233SPIState) (value : Z) : G233SPIState :=
  if nonzero (Z.land (cr1 s) SPI_CR1_SPE) then
    (* Check for overrun BEFORE starting transfer *)
    let overrun := rx_fifo_has_data s && nonzero (Z.land (sr s) SPI_SR_RXNE) in
    let s := set_dr_tx (Z.land value 0xFF) s in
    let s := set_sr (Z.land (sr s) (wrap_u32 (Z.lnot SPI_SR_TXE))) s in
    let s := set_sr (Z.lor (sr s) SPI_SR_BSY) s in
    (* Transfer byte through SSI bus *)
    let '(bus, rx) := ssi_transfer (ssi s) (dr_tx s) in
    let s := set_ssi bus s in
    (* Now handle overrun AFTER transfer *)
    let s := if overrun then set_sr (Z.lor (sr s) SPI_SR_OVR) s else s in
    let s := set_dr_rx (Z.land rx 0xFF) s in
    let s := set_sr (Z.lor (sr s) (Z.lor SPI_SR_TXE SPI_SR_RXNE)) s in
    let s := set_sr (Z.land (sr s) (wrap_u32 (Z.lnot SPI_SR_BSY))) s in
    let s := set_rx_fifo_has_data true s in
    g233_spi_update_irq s
  else s.

(** The [SPI_CSCTRL] case of [g233_spi_write]. *)
Definition write_csctrl (s : G233SPIState) (value : Z) : G233SPIState :=
  let s := set_prev_csctrl (csctrl s) s in
  let s := set_csctrl (wrap_u32 value) s in
  (* CS0: bits 0 (enable) and 4 (active) *)
  let s :=
    if cs_line_attached s 0 then
      let cs0_active := Z.land value 0x11 =? 0x11 in
      set_cs_line 0 (negb cs0_active) s
    else s in
  (* CS1: bits 1 (enable) and 5 (active) *)
  if cs_line_attached s 1 then
    let cs1_active := Z.land value 0x22 =? 0x22 in
    set_cs_line 1 (negb cs1_active) s
  else s.

(** [g233_spi_write].  A bad offset is only logged. *)
Definition g233_spi_write (s : G233SPIState) (addr value : Z) : G233SPIState :=
  if addr =? SPI_CR1 then set_cr1 (wrap_u32 value) s
  else if addr =? SPI_CR2 then g233_spi_update_irq (set_cr2 (wrap_u32 value) s)
  else if addr =? SPI_SR then
    (* Clear error flags *)
    let clear := wrap_u64 (Z.lnot (Z.land value (Z.lor SPI_SR_UDR SPI_SR_OVR))) in
    g233_spi_update_irq (set_sr (wrap_u32 (Z.land (sr s) clear)) s)
  else if addr =? SPI_DR then write_dr s value
  else if addr =? SPI_CSCTRL then write_csctrl s value
  else s.

(** [g233_spi_reset] *)
Definition g233_spi_reset (s : G233SPIState) : G233SPIState :=
  let s := set_cr1 0 s in
  let s := set_cr2 0 s in
  let s := set_sr 0x00000002 s in
  let s := set_dr_tx 0 s in
  let s := set_dr_rx 0 s in
  let s := set_csctrl 0 s in
  let s := set_prev_csctrl 0 s in
  let s := set_rx_fifo_has_data false s in
  let s := set_interrupt_count 0 s in
  foldl (fun s i => if cs_line_attached s i then set_cs_line i true s else s)
        s [0; 1; 2; 3]%nat.

(** [g233_spi_realize] on a zero-filled instance: four chip-select lines,
    none attached yet. *)
Definition g233_spi_realize (bus : Bus) : G233SPIState :=
  {| ssi := bus;
     irq := false;
     cs_lines := replicate 4 None;
     cr1 := 0;
     cr2 := 0;
     sr := 0;
     dr_tx := 0;
     dr_rx := 0;
     csctrl := 0;
     prev_csctrl := 0;
     rx_fifo_has_data := false;
     interrupt_count := 0 |}.

(** What the board's [qdev_connect_gpio_out_named] leaves in slot [i] of the
    array: a line, at the level it happens to have. *)
Definition connect_cs_line (i : nat) (level : bool) (s : G233SPIState)
  : G233SPIState :=
  set_cs_lines (<[i := Some level]> (cs_lines s)) s.

(** The bits by the names the register map gives them. *)
Definition cr1_enable (s : G233SPIState) : bool := Z.testbit (cr1 s) 6.
Definition cr2_receive_ie (s : G233SPIState) : bool := Z.testbit (cr2 s) 6.
Definition cr2_transmit_ie (s : G233SPIState) : bool := Z.testbit (cr2 s) 7.
Definition cr2_error_ie (s : G233SPIState) : bool := Z.testbit (cr2 s) 5.
Definition sr_receive_not_empty (s : G233SPIState) : bool := Z.testbit (sr s) 0.
Definition sr_transmit_empty (s : G233SPIState) : bool := Z.testbit (sr s) 1.
Definition sr_underrun (s : G233SPIState) : bool := Z.testbit (sr s) 2.
Definition sr_overrun (s : G233SPIState) : bool := Z.testbit (sr s) 3.
Definition sr_busy (s : G233SPIState) : bool := Z.testbit (sr s) 7.

(** The interrupt aggregation as the design document words it. *)
Definition interrupt_condition (s : G233SPIState) : bool :=
  (cr2_receive_ie s && sr_receive_not_empty s)
  || (cr2_transmit_ie s && sr_transmit_empty s)
  || (cr2_error_ie s && (sr_underrun s || sr_overrun s)).

(** The enabled conditions other than receive-not-empty. *)
Definition other_conditions (s : G233SPIState) : bool :=
  (cr2_transmit_ie s && sr_transmit_empty s)
  || (cr2_error_ie s && (sr_underrun s || sr_overrun s)).

(** The overrun condition of a data-register write: the previous byte was
    never read. *)
Definition overrun_condition (s : G233SPIState) : bool :=
  rx_fifo_has_data s && sr_receive_not_empty s.

(** The status register a data-register transfer leaves behind. *)
Definition sr_after_transfer (s : G233SPIState) : Z :=
  let sr0 := Z.lor (Z.land (sr s) (wrap_u32 (Z.lnot SPI_SR_TXE))) SPI_SR_BSY in
  let sr1 := if overrun_condition s then Z.lor sr0 SPI_SR_OVR else sr0 in
  Z.land (Z.lor sr1 (Z.lor SPI_SR_TXE SPI_SR_RXNE)) (wrap_u32 (Z.lnot SPI_SR_BSY)).

End Controller.

Arguments G233SPIState : clear implicits.

(** The level the design document gives select line [i] for a CSCTRL value:
    low when the slot's enable bit [i] and active bit [i + 4] are both set. *)
Definition select_level (value : Z) (i : Z) : bool :=
  negb (Z.testbit value i && Z.testbit value (i + 4)).

(** ** Predicates and runs used by the statements *)

(** A run of byte transfers: the device state after the last one and the
    bytes returned, in order. *)
Fixpoint transfers (s : G233FlashState) (txs : list Z)
  : option (G233FlashState * list Z) :=
  match txs with
  | [] => Some (s, [])
  | tx :: txs =>
      '(s, rx) ← g233_flash_transfer s tx;
      '(s, rxs) ← transfers s txs;
      Some (s, rx :: rxs)
  end.

(** The arrays of a device have the extent their declarations give them:
    [storage] is the [size]-byte heap block of [g233_flash_realize],
    [page_buf] has 256 bytes, [jedec_id] has 3, and [size] is a [uint32_t]. *)
Record flash_wf (s : G233FlashState) : Prop := {
  wf_storage : Z.of_nat (length (storage s)) = size s;
  wf_page_buf : length (page_buf s) = 256%nat;
  wf_jedec_id : length (jedec_id s) = 3%nat;
  wf_size : size s < 2 ^ 32
}.

(** The commands that open an address phase. *)
Definition address_cmd (c : Z) : Prop :=
  c = CMD_READ \/ c = CMD_PP \/ c = CMD_SE.

(** The counters stay inside their arrays.  The last field is what makes the
    first two inductive: an address phase is always one of READ, PP or SE and
    leaves [STATE_READING_CMD] on its third byte. *)
Record counters_inv (s : G233FlashState) : Prop := {
  inv_page_pos : 0 <= page_pos s <= 256;
  inv_addr_bytes : 0 <= addr_bytes s <= 3;
  inv_reading_cmd :
    state s = STATE_READING_CMD -> address_cmd (cmd s) /\ addr_bytes s <= 2
}.

(** With byte-wide transfers the address is a 24-bit value, built one byte
    per transfer, and the JEDEC read position is an index of [jedec_id] or
    one past it. *)
Record addr_inv (s : G233FlashState) : Prop := {
  inv_addr : 0 <= addr s < 2 ^ 24;
  inv_addr_partial :
    state s = STATE_READING_CMD -> addr s < 2 ^ (8 * addr_bytes s);
  inv_id_pos : state s = STATE_READING_ID -> 0 <= data_pos s
}.

(** The data-model invariant of the device. *)
Definition flash_inv (s : G233FlashState) : Prop :=
  flash_wf s /\ counters_inv s /\ addr_inv s.

(** The storage is a whole number of 4 KiB sectors. *)
Definition sector_aligned (s : G233FlashState) : Prop := (4096 | size s).

(** A byte on the transfer channel. *)
Definition is_byte (x : Z) : Prop := 0 <= x < 256.

(** The operations of the device. *)
Inductive flash_op : Type :=
  | OpTransfer (tx : Z)
  | OpSetCs (select : bool)
  | OpGpioCs (n level : Z)
  | OpReset.

Definition flash_step (s : G233FlashState) (op : flash_op)
  : option G233FlashState :=
  match op with
  | OpTransfer tx => fst <$> g233_flash_transfer s tx
  | OpSetCs select => g233_flash_set_cs s select
  | OpGpioCs n level => g233_flash_cs s n level
  | OpReset => Some (g233_flash_reset s)
  end.

(** What the callers pass: a byte on the transfer channel, anything for the
    select level. *)
Definition op_ok (op : flash_op) : Prop :=
  match op with
  | OpTransfer tx => is_byte tx
  | _ => True
  end.

(** The states a device constructed with the given [size] property can be
    in. *)
Inductive reachable (size_prop : Z) : G233FlashState -> Prop :=
  | reachable_realize : reachable size_prop (g233_flash_realize size_prop)
  | reachable_step s op s' :
      reachable size_prop s -> op_ok op -> flash_step s op = Some s' ->
      reachable size_prop s'.

(** The parts of the device no operation resizes or rewrites. *)
Definition same_shape (s s' : G233FlashState) : Prop :=
  size s' = size s /\ jedec_id s' = jedec_id s
  /\ length (storage s') = length (storage s)
  /\ length (page_buf s') = length (page_buf s).

(** The 24-bit address three bytes spell, most significant first, and the
    base of the 4 KiB sector an address lies in. *)
Definition address24 (b2 b1 b0 : Z) : Z := b2 * 65536 + b1 * 256 + b0.
Definition sector_base (a : Z) : Z := Z.land a (Z.lnot 0xFFF).


(** The page-program transaction: WREN, the PP opcode, three address bytes,
    the data bytes. *)
Definition page_program (a2 a1 a0 : Z) (data : list Z) : list Z :=
  [CMD_WREN; CMD_PP; a2; a1; a0] ++ data.

(** Program [data] at the address [a2 a1 a0], deselect, then read the same
    address back with one transfer per byte of [dummy]; the result is what
    those last transfers return. *)
Definition program_read_back (s : G233FlashState) (a2 a1 a0 : Z)
    (data dummy : list Z) : option (list Z) :=
  '(s, _) ← transfers s (page_program a2 a1 a0 data);
  s ← g233_flash_set_cs s false;
  '(s, _) ← transfers s [CMD_READ; a2; a1; a0];
  '(_, rxs) ← transfers s dummy;
  Some rxs.

(** The end-to-end scenario: five bytes [0xAB] at address 0x000010. *)
Definition end_to_end (s : G233FlashState) (dummy : list Z) : option (list Z) :=
  program_read_back s 0x00 0x00 0x10 [0xAB; 0xAB; 0xAB; 0xAB; 0xAB] dummy.

(** A controller with a device on each of its four select lines, after
    reset; the bus behind it answers every word with 0. *)
Definition idle_bus (b : unit) (tx : Z) : unit * Z := (b, 0).

Definition four_device_controller : G233SPIState unit :=
  g233_spi_reset
    (connect_cs_line 3 false
       (connect_cs_line 2 false
          (connect_cs_line 1 false
             (connect_cs_line 0 false (g233_spi_realize tt))))).

(** The controller of the witnesses: enabled, master, receive interrupt on. *)
Definition enabled_controller : G233SPIState unit :=
  g233_spi_write idle_bus
    (g233_spi_write idle_bus four_device_controller SPI_CR1 0x44)
    SPI_CR2 0x40.

(** ** Definitions of the further properties *)

(** What [n] successive reads of a byte array return, starting at index
    [start]: the bytes of the array, and 0xFF past its end. *)
Definition padded_read (a : list Z) (start n : nat) : list Z :=
  (fun k => from_option (fun x => Z.land x 0xFF) 0xFF (a !! (start + k)%nat))
    <$> seq 0 n.

(** The register accesses of the guest, and reset. *)
Inductive spi_op : Type :=
  | SpiRead (addr : Z)
  | SpiWrite (addr value : Z)
  | SpiReset.

Section ControllerRuns.

Context {Bus : Type}.
Variable ssi_transfer : Bus -> Z -> Bus * Z.

(** The values the status register takes, with the software flag that
    shadows its receive bit. *)
Definition status_inv (s : G233SPIState Bus) : Prop :=
  (sr s = 0x02 \/ sr s = 0x03 \/ sr s = 0x0A \/ sr s = 0x0B)
  /\ rx_fifo_has_data s = sr_receive_not_empty s.

Definition spi_step (s : G233SPIState Bus) (op : spi_op) : G233SPIState Bus :=
  match op with
  | SpiRead addr => fst (g233_spi_read s addr)
  | SpiWrite addr value => g233_spi_write ssi_transfer s addr value
  | SpiReset => g233_spi_reset s
  end.

(** The states of a controller that has been reset once. *)
Inductive spi_reachable : G233SPIState Bus -> Prop :=
  | spi_reachable_reset s0 : spi_reachable (g233_spi_reset s0)
  | spi_reachable_step s op :
      spi_reachable s -> spi_reachable (spi_step s op).

End ControllerRuns.

(** The devices of the witnesses: a 6000-byte device that has taken the
    opcode and the first two address bytes of an erase of the sector at
    0x1000, and a 16-byte device holding one buffered byte of a page
    program at address 0. *)
Definition mid_erase_device : G233FlashState :=
  set_addr_bytes 2
    (set_addr 0x10
       (set_cmd CMD_SE (set_state STATE_READING_CMD (g233_flash_realize 6000)))).

Definition pending_program_device : G233FlashState :=
  set_page_pos 1 (set_state STATE_WRITING_DATA (g233_flash_realize 16)).

Section ControllerRanges.

Context {Bus : Type}.

(** The registers hold what their C types can: [uint32_t] control
    registers, and a data register that only ever receives a masked byte. *)
Definition range_inv (s : G233SPIState Bus) : Prop :=
  0 <= cr1 s < 2 ^ 32 /\ 0 <= cr2 s < 2 ^ 32 /\ 0 <= csctrl s < 2 ^ 32
  /\ 0 <= dr_rx s < 256.

End ControllerRanges.

(** The one transfer that leaves the storage: the last address byte [tx] of
    a sector erase whose sector starts inside the storage and ends outside
    it.  The code tests only the start against [size]. *)
Definition partial_sector_erase (s : G233FlashState) (tx : Z) : Prop :=
  state s = STATE_READING_CMD /\ cmd s = CMD_SE /\ addr_bytes s = 2
  /\ sector_base (addr s * 256 + tx) < size s
     < sector_base (addr s * 256 + tx) + 4096.

(** The devices of the witnesses of C4, C8 and C9: a 2048-byte device with
    the write-enable latch set by WREN; the default 2 MiB device holding one
    buffered byte of a page program at 0x200000, the first address past its
    storage; a 4 KiB device whose page buffer is full. *)
Definition small_enabled_device : G233FlashState :=
  set_write_enable true (set_cmd CMD_WREN (g233_flash_realize 2048)).

Definition out_of_bounds_program_device : G233FlashState :=
  set_page_pos 1
    (set_page_buf (<[0%nat := 0xAB]> (replicate 256 0))
       (set_state STATE_WRITING_DATA
          (set_addr_bytes 3
             (set_addr 0x200000
                (set_cmd CMD_PP
                   (set_write_enable true (g233_flash_realize 0))))))).


(** * Proofs *)

(** Case analysis on the opcode of a transfer, and on the tests of a
    hypothesis. *)
Ltac case_opcode tx :=
  repeat (case (Z.eqb_spec tx _); [intros -> | intros ?]).

Ltac split_matches :=
  repeat match goal with
    | H : context [match ?x with _ => _ end] |- _ => destruct x eqn:?
    end; simplify_option_eq.

(** ** Facts about machine integers and arrays *)

Lemma wrap_u8_small x : 0 <= x < 256 -> wrap_u8 x = x.
Proof. intros H. unfold wrap_u8. apply Z.mod_small. lia. Qed.

Lemma wrap_u32_small x : 0 <= x < 2 ^ 32 -> wrap_u32 x = x.
Proof. intros H. unfold wrap_u32. apply Z.mod_small. lia. Qed.

Lemma wrap_int_small x : - 2 ^ 31 <= x < 2 ^ 31 -> wrap_int x = x.
Proof. intros H. unfold wrap_int. rewrite Z.mod_small; lia. Qed.

Lemma wrap_u8_range x : 0 <= wrap_u8 x < 256.
Proof. unfold wrap_u8. apply Z.mod_pos_bound. lia. Qed.

Lemma array_store_Some a i v :
  0 <= i < Z.of_nat (length a) ->
  array_store a i v = Some (<[Z.to_nat i := v]> a).
Proof. intros H. unfold array_store. by rewrite decide_True. Qed.

Lemma array_store_length a i v a' :
  array_store a i v = Some a' -> length a' = length a.
Proof.
  unfold array_store. case_decide; [|done].
  intros [= <-]. apply length_insert.
Qed.

Lemma array_load_Some a i :
  0 <= i < Z.of_nat (length a) -> is_Some (array_load a i).
Proof.
  intros H. unfold array_load. rewrite decide_True by lia.
  apply lookup_lt_is_Some. lia.
Qed.

Lemma memset_Some a off v n :
  0 <= off -> 0 <= n -> off + n <= Z.of_nat (length a) ->
  memset a off v n
  = Some (list_inserts (Z.to_nat off) (replicate (Z.to_nat n) (wrap_u8 v)) a).
Proof. intros. unfold memset. by rewrite decide_True. Qed.

Lemma memset_length a off v n a' :
  memset a off v n = Some a' -> length a' = length a.
Proof.
  unfold memset. case_decide; [|done].
  intros [= <-]. apply length_inserts.
Qed.

(** After [memset], a cell inside the range holds the fill byte and a cell
    outside holds what it held. *)
Lemma memset_lookup a off v n a' (i : nat) :
  memset a off v n = Some a' ->
  a' !! i = if decide (off <= Z.of_nat i < off + n)
            then Some (wrap_u8 v) else a !! i.
Proof.
  unfold memset. case_decide as Hb; [|done]. intros [= <-].
  destruct Hb as (Hoff & Hn & Hlen).
  case_decide as Hi.
  - rewrite list_lookup_inserts by (rewrite ?length_replicate; lia).
    apply lookup_replicate_2. lia.
  - destruct (decide (Z.of_nat i < off)).
    + apply list_lookup_inserts_lt. lia.
    + apply list_lookup_inserts_ge. rewrite length_replicate. lia.
Qed.

Lemma memcpy_Some dst off src n :
  0 <= off -> 0 <= n -> off + n <= Z.of_nat (length dst) ->
  n <= Z.of_nat (length src) ->
  memcpy dst off src n
  = Some (list_inserts (Z.to_nat off) (take (Z.to_nat n) src) dst).
Proof. intros. unfold memcpy. by rewrite decide_True. Qed.

Lemma memcpy_length dst off src n dst' :
  memcpy dst off src n = Some dst' -> length dst' = length dst.
Proof.
  unfold memcpy. case_decide; [|done].
  intros [= <-]. apply length_inserts.
Qed.

(** After [memcpy], a cell inside the destination range holds the matching
    source byte and a cell outside holds what it held. *)
Lemma memcpy_lookup dst off src n dst' (i : nat) :
  memcpy dst off src n = Some dst' ->
  dst' !! i = if decide (off <= Z.of_nat i < off + n)
              then src !! (i - Z.to_nat off)%nat else dst !! i.
Proof.
  unfold memcpy. case_decide as Hb; [|done]. intros [= <-].
  destruct Hb as (Hoff & Hn & Hlen & Hsrc).
  assert (length (take (Z.to_nat n) src) = Z.to_nat n) as Hk
    by (rewrite length_take; lia).
  case_decide as Hi.
  - rewrite list_lookup_inserts by lia.
    apply lookup_take_lt. lia.
  - destruct (decide (Z.of_nat i < off)).
    + apply list_lookup_inserts_lt. lia.
    + apply list_lookup_inserts_ge. lia.
Qed.

(** *** What a transfer leaves alone *)

Lemma same_shape_wf s s' : same_shape s s' -> flash_wf s -> flash_wf s'.
Proof.
  intros (Hsz & Hid & Hst & Hpb) [H1 H2 H3 H4].
  split; congruence.
Qed.

Lemma transfer_idle_shape s tx : same_shape s (transfer_idle s tx).
Proof.
  unfold transfer_idle. case_opcode tx.
  all: try destruct (write_enable _); by repeat split.
Qed.

Lemma transfer_idle_storage s tx : storage (transfer_idle s tx) = storage s.
Proof.
  unfold transfer_idle. case_opcode tx.
  all: try destruct (write_enable _); done.
Qed.

Lemma transfer_reading_cmd_shape s tx s' :
  transfer_reading_cmd s tx = Some s' -> same_shape s s'.
Proof.
  unfold transfer_reading_cmd. cbn.
  repeat case_match; intros Hs'; simplify_option_eq; try by repeat split.
  all: repeat split; simpl; eauto using memset_length.
Qed.

Lemma transfer_shape s tx s' rx :
  g233_flash_transfer s tx = Some (s', rx) -> same_shape s s'.
Proof.
  unfold g233_flash_transfer. intros H.
  destruct (state s); simplify_option_eq;
    repeat match goal with
      | H : context [match ?x with _ => _ end] |- _ => destruct x eqn:?
      end; simplify_option_eq.
  all: eauto using transfer_idle_shape, transfer_reading_cmd_shape.
  all: try by repeat split.
  all: repeat split; simpl; eauto using array_store_length.
Qed.

(** A transfer writes the storage only when it completes the address of a
    sector erase. *)
Lemma transfer_storage s tx s' rx :
  g233_flash_transfer s tx = Some (s', rx) ->
  ~ (state s = STATE_READING_CMD /\ cmd s = CMD_SE) ->
  storage s' = storage s.
Proof.
  unfold g233_flash_transfer. intros H Hse.
  destruct (state s) eqn:Hst; simplify_option_eq; split_matches;
    try done; try apply transfer_idle_storage.
  unfold transfer_reading_cmd in *. cbn in *.
  split_matches; try done.
  all: exfalso; apply Hse; split; [done | by apply Z.eqb_eq].
Qed.

(** *** The counters *)

Lemma transfer_idle_counters s tx :
  state s = STATE_IDLE -> counters_inv s -> counters_inv (transfer_idle s tx).
Proof.
  intros Hst [Hpp Hab Hrc]. unfold transfer_idle.
  case_opcode tx.
  all: try destruct (write_enable _).
  all: split; simpl; try lia; try congruence.
  all: intros _; split; [|lia]; unfold address_cmd; vm_compute; tauto.
Qed.

Lemma transfer_reading_cmd_counters s tx s' :
  state s = STATE_READING_CMD -> counters_inv s ->
  transfer_reading_cmd s tx = Some s' -> counters_inv s'.
Proof.
  intros Hst [Hpp Hab Hrc]. destruct (Hrc Hst) as [Hcmd Hlt].
  unfold transfer_reading_cmd. cbn.
  rewrite wrap_int_small by lia.
  destruct (Z.leb_spec 3 (addr_bytes s + 1)).
  - destruct Hcmd as [-> | [-> | ->]]; cbn; intros; simplify_option_eq.
    all: split; simpl; try lia; congruence.
  - intros [= <-]. split; simpl; try lia.
    intros _. split; [done | lia].
Qed.

Lemma transfer_counters s tx s' rx :
  counters_inv s -> g233_flash_transfer s tx = Some (s', rx) -> counters_inv s'.
Proof.
  intros Hinv. unfold g233_flash_transfer. intros H.
  destruct (state s) eqn:Hst; simplify_option_eq.
  - by apply transfer_idle_counters.
  - eauto using transfer_reading_cmd_counters.
  - destruct Hinv. split_matches; split; simpl; try done; congruence.
  - destruct Hinv. split_matches; split; simpl; try done; congruence.
  - destruct Hinv. split; simpl; try done; congruence.
  - destruct Hinv. split; simpl; try done; congruence.
  - destruct Hinv as [Hpp Hab Hrc].
    destruct (Z.ltb_spec (page_pos s) 256); simplify_option_eq.
    + split; simpl; try done; try congruence.
      rewrite wrap_int_small; lia.
    + split; simpl; try done; congruence.
  - destruct Hinv. split; simpl; try done; congruence.
Qed.

Lemma cs_deasserted_counters s s' :
  cs_deasserted s = Some s' -> counters_inv s'.
Proof.
  unfold cs_deasserted. intros H.
  simplify_option_eq; (split; simpl; [lia | lia | congruence]).
Qed.

Lemma cs_deasserted_shape s s' :
  cs_deasserted s = Some s' -> same_shape s s'.
Proof.
  unfold cs_deasserted. intros H. simplify_option_eq. split_matches.
  all: repeat split; simpl; eauto using memcpy_length.
Qed.

Lemma reset_counters s : counters_inv (g233_flash_reset s).
Proof. split; simpl; try lia; congruence. Qed.

Lemma reset_shape s : same_shape s (g233_flash_reset s).
Proof. by repeat split. Qed.

Lemma realize_counters size_prop : counters_inv (g233_flash_realize size_prop).
Proof. split; simpl; try lia; congruence. Qed.



(** *** Address arithmetic *)

(** Shifting the accumulator and or-ing a byte in appends the byte. *)
Lemma shift_in_byte a b :
  0 <= b < 256 -> Z.lor (Z.shiftl a 8) b = a * 256 + b.
Proof.
  intros Hb. rewrite Z.shiftl_mul_pow2 by lia. change (2 ^ 8) with 256.
  symmetry. apply Z.add_nocarry_lor.
  apply Z.bits_inj'. intros n Hn. rewrite Z.land_spec, Z.bits_0.
  destruct (Z.lt_ge_cases n 8).
  - replace (a * 256) with (a * 2 ^ 8) by lia.
    rewrite Z.mul_pow2_bits_low by lia. done.
  - rewrite (Z.bits_above_log2 b n); [apply andb_false_r | lia |].
    destruct (Z.eq_dec b 0) as [-> | ?]; [simpl; lia |].
    apply Z.log2_lt_pow2; [lia |].
    apply Z.lt_le_trans with (2 ^ 8); [lia |]. apply Z.pow_le_mono_r; lia.
Qed.

(** [addr & ~0xFFF] on a 32-bit address is the base of its 4 KiB sector. *)
Lemma sector_mask a :
  0 <= a < 2 ^ 32 ->
  Z.land a (wrap_u32 (Z.lnot 0xFFF)) = 4096 * (a / 4096).
Proof.
  intros Ha.
  change (wrap_u32 (Z.lnot 0xFFF)) with (Z.shiftl (Z.ones 20) 12).
  replace (4096 * (a / 4096)) with (Z.shiftl (Z.shiftr a 12) 12).
  2:{ rewrite Z.shiftl_mul_pow2, Z.shiftr_div_pow2 by lia.
      change (2 ^ 12) with 4096. lia. }
  apply Z.bits_inj'. intros n Hn.
  rewrite Z.land_spec.
  destruct (Z.lt_ge_cases n 12).
  - rewrite !Z.shiftl_spec_low by lia. apply andb_false_r.
  - rewrite !Z.shiftl_spec_high by lia.
    rewrite Z.shiftr_spec by lia. replace (n - 12 + 12) with n by lia.
    destruct (Z.lt_ge_cases n 32).
    + rewrite Z.ones_spec_low by lia. apply andb_true_r.
    + rewrite Z.ones_spec_high by lia. rewrite andb_false_r.
      symmetry. destruct (Z.eq_dec a 0) as [-> | ?]; [apply Z.bits_0 |].
      apply Z.bits_above_log2; [lia |].
      apply Z.lt_le_trans with 32; [|done].
      apply Z.log2_lt_pow2; lia.
Qed.

Lemma sector_mask_spec a :
  0 <= a < 2 ^ 32 ->
  Z.land a (wrap_u32 (Z.lnot 0xFFF)) = Z.land a (Z.lnot 0xFFF).
Proof.
  intros Ha. rewrite sector_mask by done.
  replace (4096 * (a / 4096)) with (Z.shiftl (Z.shiftr a 12) 12).
  2:{ rewrite Z.shiftl_mul_pow2, Z.shiftr_div_pow2 by lia.
      change (2 ^ 12) with 4096. lia. }
  change 0xFFF with (Z.ones 12).
  rewrite <- Z.ldiff_ones_r by lia. 
  apply Z.bits_inj'. intros n Hn.
  rewrite Z.ldiff_spec, Z.land_spec, Z.lnot_spec by done. done.
Qed.

(** A sector that starts inside sector-aligned storage ends inside it. *)
Lemma sector_fits a sz :
  0 <= a -> (4096 | sz) -> 4096 * (a / 4096) < sz ->
  4096 * (a / 4096) + 4096 <= sz.
Proof. intros Ha [k ->] Hlt. nia. Qed.

(** *** The address, with byte-wide transfers *)

Lemma transfer_idle_addr s tx :
  state s = STATE_IDLE -> addr_inv s -> addr_inv (transfer_idle s tx).
Proof.
  intros Hst [Ha Hp Hid]. unfold transfer_idle.
  case_opcode tx.
  all: try destruct (write_enable _).
  all: split; simpl; try lia; try congruence.
Qed.

Lemma transfer_reading_cmd_addr s tx s' :
  state s = STATE_READING_CMD -> counters_inv s -> addr_inv s -> is_byte tx ->
  transfer_reading_cmd s tx = Some s' -> addr_inv s'.
Proof.
  intros Hst [Hpp Hab Hrc] [Ha Hp Hid] Htx.
  destruct (Hrc Hst) as [Hcmd Hlt]. specialize (Hp Hst).
  assert (0 <= addr s * 256 + tx < 2 ^ (8 * (addr_bytes s + 1))
          /\ addr s * 256 + tx < 2 ^ 24) as [Hnew H24].
  { unfold is_byte in Htx.
    assert (addr_bytes s = 0 \/ addr_bytes s = 1 \/ addr_bytes s = 2)
      as [E | [E | E]] by lia; rewrite E in *; simpl in *; lia. }
  unfold transfer_reading_cmd. cbn.
  rewrite wrap_int_small by lia.
  rewrite (wrap_u32_small (Z.shiftl _ _))
    by (rewrite Z.shiftl_mul_pow2 by lia; change (2 ^ 8) with 256; lia).
  rewrite shift_in_byte by done.
  destruct (Z.leb_spec 3 (addr_bytes s + 1)).
  - destruct Hcmd as [-> | [-> | ->]]; cbn; intros; simplify_option_eq.
    all: split; simpl; try lia; congruence.
  - intros [= <-]. split; simpl; try lia; congruence.
Qed.

Lemma transfer_addr s tx s' rx :
  counters_inv s -> addr_inv s -> is_byte tx ->
  g233_flash_transfer s tx = Some (s', rx) -> addr_inv s'.
Proof.
  intros Hc Hinv Htx. unfold g233_flash_transfer. intros H.
  destruct (state s) eqn:Hst; simplify_option_eq.
  - by apply transfer_idle_addr.
  - eauto using transfer_reading_cmd_addr.
  - destruct Hinv as [Ha Hp Hid]. specialize (Hid Hst).
    destruct (Z.ltb_spec (data_pos s) 3); simplify_option_eq.
    + split; simpl; try done; try congruence.
      intros _. rewrite wrap_int_small; lia.
    + split; simpl; try done; congruence.
  - destruct Hinv. split_matches; split; simpl; try done; congruence.
  - destruct Hinv. split; simpl; try done; congruence.
  - destruct Hinv. split; simpl; try done; congruence.
  - destruct Hinv. split_matches; split; simpl; try done; congruence.
  - destruct Hinv. split; simpl; try done; congruence.
Qed.

Lemma cs_deasserted_addr s s' : cs_deasserted s = Some s' -> addr_inv s'.
Proof.
  unfold cs_deasserted. intros H.
  simplify_option_eq; (split; simpl; [lia | congruence | congruence]).
Qed.

(** *** The data-model invariant: established, preserved, and enough for
    every operation to stay inside the arrays *)

Lemma realize_inv size_prop :
  0 <= size_prop < 2 ^ 32 -> flash_inv (g233_flash_realize size_prop).
Proof.
  intros Hsz. split; [|split].
  - split; simpl; try done.
    + rewrite length_replicate. destruct (Z.eqb_spec size_prop 0); lia.
    + destruct (Z.eqb_spec size_prop 0); lia.
  - apply realize_counters.
  - split; simpl; try lia; congruence.
Qed.

Lemma reset_inv s : flash_inv s -> flash_inv (g233_flash_reset s).
Proof.
  intros (Hwf & _ & _). split; [|split].
  - eapply same_shape_wf; [apply reset_shape | done].
  - apply reset_counters.
  - split; simpl; try lia; congruence.
Qed.

Lemma transfer_inv s tx s' rx :
  flash_inv s -> is_byte tx ->
  g233_flash_transfer s tx = Some (s', rx) -> flash_inv s'.
Proof.
  intros (Hwf & Hc & Ha) Htx Htr. split; [|split].
  - eauto using same_shape_wf, transfer_shape.
  - eauto using transfer_counters.
  - eauto using transfer_addr.
Qed.

Lemma cs_deasserted_inv s s' :
  flash_inv s -> cs_deasserted s = Some s' -> flash_inv s'.
Proof.
  intros (Hwf & Hc & Ha) Hcs. split; [|split].
  - eauto using same_shape_wf, cs_deasserted_shape.
  - eauto using cs_deasserted_counters.
  - eauto using cs_deasserted_addr.
Qed.

(** No transfer of a byte leaves the arrays, provided the storage is a
    whole number of sectors. *)
Lemma transfer_defined s tx :
  flash_inv s -> sector_aligned s -> is_byte tx ->
  is_Some (g233_flash_transfer s tx).
Proof.
  intros ([Hst Hpb Hid Hsz] & [Hpp Hab Hrc] & [Ha Hp Hidp]) Hal Htx.
  unfold g233_flash_transfer.
  destruct (state s) eqn:Hstate; simpl; try done.
  - (* address phase *)
    destruct (Hrc eq_refl) as [Hcmd Hlt]. specialize (Hp eq_refl).
    assert (0 <= addr s * 256 + tx < 2 ^ 24) as H24.
    { unfold is_byte in Htx.
      assert (addr_bytes s = 0 \/ addr_bytes s = 1 \/ addr_bytes s = 2)
        as [E | [E | E]] by lia; rewrite E in *; simpl in *; lia. }
    unfold transfer_reading_cmd. cbn.
    rewrite (wrap_u32_small (Z.shiftl _ _))
      by (rewrite Z.shiftl_mul_pow2 by lia; change (2 ^ 8) with 256; lia).
    rewrite shift_in_byte by done.
    destruct (3 <=? _); [|done].
    destruct Hcmd as [-> | [-> | ->]]; cbn; try done.
    rewrite sector_mask by lia.
    destruct (Z.ltb_spec (4096 * ((addr s * 256 + tx) / 4096)) (size s)); [|done].
    rewrite memset_Some; [done | | lia |].
    + apply Z.mul_nonneg_nonneg; [lia |]. apply Z.div_pos; lia.
    + rewrite Hst. apply sector_fits; [lia | done | done].
  - (* JEDEC id *)
    destruct (Z.ltb_spec (data_pos s) 3); [|done].
    destruct (array_load_Some (jedec_id s) (data_pos s)) as [x ->]; [|done].
    specialize (Hidp eq_refl). lia.
  - (* read *)
    assert (0 <= wrap_u32 (addr s + data_pos s))
      by (apply Z.mod_pos_bound; lia).
    destruct (Z.ltb_spec (wrap_u32 (addr s + data_pos s)) (size s)); [|done].
    destruct (array_load_Some (storage s) (wrap_u32 (addr s + data_pos s)))
      as [x ->]; [lia | done].
  - (* page buffer *)
    destruct (Z.ltb_spec (page_pos s) 256); [|done].
    rewrite array_store_Some by lia. done.
Qed.

(** Deselecting never leaves the arrays. *)
Lemma cs_deasserted_defined s :
  flash_inv s -> is_Some (cs_deasserted s).
Proof.
  intros ([Hst Hpb Hid Hsz] & [Hpp Hab Hrc] & [Ha Hp Hidp]).
  unfold cs_deasserted.
  destruct (bool_decide _ && _) eqn:Hc; simpl; [|done].
  apply andb_true_iff in Hc as [_ Hpos]. apply Z.ltb_lt in Hpos.
  rewrite wrap_u32_small by lia.
  destruct (Z.leb_spec (addr s + page_pos s) (size s)); [|done].
  rewrite memcpy_Some by lia. done.
Qed.

Lemma transfers_nil s : transfers s [] = Some (s, []).
Proof. done. Qed.

Lemma transfers_cons s tx txs :
  transfers s (tx :: txs)
  = '(s1, rx) ← g233_flash_transfer s tx;
    '(s2, rxs) ← transfers s1 txs;
    Some (s2, rx :: rxs).
Proof. done. Qed.

Lemma transfers_app s l1 l2 :
  transfers s (l1 ++ l2)
  = '(s1, r1) ← transfers s l1;
    '(s2, r2) ← transfers s1 l2;
    Some (s2, r1 ++ r2).
Proof.
  revert s. induction l1 as [| tx l1 IH]; intros s; simpl.
  - by destruct (transfers s l2) as [[? ?]|].
  - destruct (g233_flash_transfer s tx) as [[s1 rx]|]; simpl; [|done].
    rewrite IH. destruct (transfers s1 l1) as [[s2 r1]|]; simpl; [|done].
    by destruct (transfers s2 l2) as [[? ?]|].
Qed.

Lemma transfers_cons_Some s tx txs s1 rx s2 rxs :
  g233_flash_transfer s tx = Some (s1, rx) ->
  transfers s1 txs = Some (s2, rxs) ->
  transfers s (tx :: txs) = Some (s2, rx :: rxs).
Proof. intros H1 H2. rewrite transfers_cons, H1. simpl. by rewrite H2. Qed.

Lemma transfers_app_Some s l1 l2 s1 r1 s2 r2 :
  transfers s l1 = Some (s1, r1) ->
  transfers s1 l2 = Some (s2, r2) ->
  transfers s (l1 ++ l2) = Some (s2, r1 ++ r2).
Proof. intros H1 H2. rewrite transfers_app, H1. simpl. by rewrite H2. Qed.

Arguments transfers : simpl never.

(** *** One transfer, state by state *)

Lemma transfer_in_idle s tx :
  state s = STATE_IDLE ->
  g233_flash_transfer s tx = Some (transfer_idle s tx, 0).
Proof. intros Hst. unfold g233_flash_transfer. by rewrite Hst. Qed.

Lemma transfer_in_reading_cmd s tx s' :
  state s = STATE_READING_CMD ->
  transfer_reading_cmd s tx = Some s' ->
  g233_flash_transfer s tx = Some (s', 0).
Proof.
  intros Hst Hrc. unfold g233_flash_transfer. rewrite Hst. simpl.
  by rewrite Hrc.
Qed.

Lemma transfer_in_writing_data s tx :
  state s = STATE_WRITING_DATA ->
  0 <= page_pos s < 256 -> length (page_buf s) = 256%nat ->
  g233_flash_transfer s tx
  = Some (set_page_pos (page_pos s + 1)
            (set_page_buf (<[Z.to_nat (page_pos s) := wrap_u8 tx]> (page_buf s)) s),
          0).
Proof.
  intros Hst Hpos Hlen. unfold g233_flash_transfer. rewrite Hst.
  destruct (Z.ltb_spec (page_pos s) 256); [|lia].
  rewrite array_store_Some by lia. simpl.
  by rewrite wrap_int_small by lia.
Qed.

Lemma transfer_in_writing_data_full s tx :
  state s = STATE_WRITING_DATA -> 256 <= page_pos s ->
  g233_flash_transfer s tx = Some (s, 0).
Proof.
  intros Hst Hpos. unfold g233_flash_transfer. rewrite Hst.
  by destruct (Z.ltb_spec (page_pos s) 256); [lia|].
Qed.

Lemma transfer_in_reading_data s tx x :
  state s = STATE_READING_DATA ->
  0 <= addr s + data_pos s < size s -> size s < 2 ^ 32 ->
  - 2 ^ 31 <= data_pos s + 1 < 2 ^ 31 ->
  storage s !! Z.to_nat (addr s + data_pos s) = Some x ->
  g233_flash_transfer s tx
  = Some (set_data_pos (data_pos s + 1) s, Z.land x 0xFF).
Proof.
  intros Hst Hin Hsz Hdp Hx. unfold g233_flash_transfer. rewrite Hst.
  rewrite wrap_u32_small by lia.
  destruct (Z.ltb_spec (addr s + data_pos s) (size s)); [|lia].
  unfold array_load. rewrite decide_True by lia. rewrite Hx. simpl.
  by rewrite wrap_int_small by lia.
Qed.

(** The address accumulated from three bytes. *)
Lemma transfer_reading_cmd_more s tx :
  0 <= addr_bytes s < 2 ->
  transfer_reading_cmd s tx
  = Some (set_addr_bytes (addr_bytes s + 1)
            (set_addr (Z.lor (wrap_u32 (Z.shiftl (addr s) 8)) tx) s)).
Proof.
  intros Hab. unfold transfer_reading_cmd. cbn.
  rewrite wrap_int_small by lia.
  by destruct (Z.leb_spec 3 (addr_bytes s + 1)); [lia|].
Qed.

Lemma transfer_reading_cmd_last s tx :
  addr_bytes s = 2 ->
  transfer_reading_cmd s tx
  = let s := set_addr_bytes 3
               (set_addr (Z.lor (wrap_u32 (Z.shiftl (addr s) 8)) tx) s) in
    if cmd s =? CMD_READ then
      Some (set_data_pos 0 (set_state STATE_READING_DATA s))
    else if cmd s =? CMD_PP then Some (set_state STATE_WRITING_DATA s)
    else if cmd s =? CMD_SE then
      let sector_addr := Z.land (addr s) (wrap_u32 (Z.lnot 0xFFF)) in
      st ← (if sector_addr <? size s
            then memset (storage s) sector_addr 0xFF 4096
            else Some (storage s));
      Some (set_state STATE_IDLE (set_write_enable false (set_storage st s)))
    else Some s.
Proof. intros Hab. unfold transfer_reading_cmd. cbn. by rewrite Hab. Qed.

(** One more byte on a 24-bit accumulator. *)
Lemma accumulate_byte a tx :
  0 <= a < 2 ^ 24 -> is_byte tx ->
  Z.lor (wrap_u32 (Z.shiftl a 8)) tx = a * 256 + tx.
Proof.
  intros Ha Htx. rewrite wrap_u32_small.
  - by apply shift_in_byte.
  - rewrite Z.shiftl_mul_pow2 by lia. change (2 ^ 8) with 256. lia.
Qed.

(** Three address bytes after an opcode: the first two only accumulate. *)
Lemma address_prefix s b2 b1 :
  state s = STATE_READING_CMD -> addr s = 0 -> addr_bytes s = 0 ->
  is_byte b2 -> is_byte b1 ->
  transfers s [b2; b1]
  = Some (set_addr_bytes 2 (set_addr (b2 * 256 + b1)
            (set_addr_bytes 1 (set_addr b2 s))), [0; 0]).
Proof.
  intros Hst Ha Hab H2 H1.
  eapply transfers_cons_Some; [|eapply transfers_cons_Some; [|apply transfers_nil]].
  - apply transfer_in_reading_cmd; [done |].
    rewrite transfer_reading_cmd_more by lia.
    rewrite accumulate_byte, Ha, Hab by (done || lia). done.
  - apply transfer_in_reading_cmd; [done |].
    rewrite transfer_reading_cmd_more by (simpl; lia). simpl.
    rewrite accumulate_byte by (done || (unfold is_byte in *; lia)). done.
Qed.

(** C3.  Write-enable gating: in [STATE_IDLE] with the write-enable latch
    clear, a transfer of the PAGE_PROGRAM opcode 0x02 or of the SECTOR_ERASE
    opcode 0x20 returns the byte 0 and changes nothing but the recorded
    opcode: the storage is the same and the state is still [STATE_IDLE]. *)
Theorem write_enable_gating s tx :
  state s = STATE_IDLE -> write_enable s = false ->
  tx = CMD_PP \/ tx = CMD_SE ->
  g233_flash_transfer s tx = Some (set_cmd tx s, 0)
  /\ storage (set_cmd tx s) = storage s
  /\ state (set_cmd tx s) = STATE_IDLE.
Proof.
  intros Hst Hwe Htx. rewrite transfer_in_idle by done.
  split; [|by split].
  destruct Htx as [-> | ->]; unfold transfer_idle; cbn; by rewrite Hwe.
Qed.

(** The third address byte of a sector erase. *)
Lemma erase_on_third_byte s b0 :
  flash_wf s -> sector_aligned s ->
  state s = STATE_READING_CMD -> cmd s = CMD_SE -> addr_bytes s = 2 ->
  0 <= addr s < 2 ^ 16 -> is_byte b0 ->
  let A := addr s * 256 + b0 in
  exists s',
    g233_flash_transfer s b0 = Some (s', 0)
    /\ addr s' = A
    /\ write_enable s' = false /\ state s' = STATE_IDLE
    /\ length (storage s') = length (storage s)
    /\ (sector_base A < size s ->
        sector_base A + 4096 <= size s
        /\ forall i : nat,
            storage s' !! i
            = if decide (sector_base A <= Z.of_nat i < sector_base A + 4096)
              then Some 0xFF else storage s !! i)
    /\ (size s <= sector_base A -> storage s' = storage s).
Proof.
  intros [Hlen _ _ Hsz] Hal Hst Hcmd Hab Ha Hb0 A.
  assert (0 <= A < 2 ^ 24) as HA by (unfold A, is_byte in *; lia).
  assert (sector_base A = 4096 * (A / 4096)) as Hbase.
  { unfold sector_base. rewrite <- sector_mask_spec, sector_mask by lia. done. }
  assert (0 <= sector_base A).
  { rewrite Hbase. apply Z.mul_nonneg_nonneg; [lia |]. apply Z.div_pos; lia. }
  pose proof (transfer_reading_cmd_last s b0 Hab) as Hlast.
  cbn in Hlast. rewrite Hcmd in Hlast. cbn in Hlast.
  rewrite accumulate_byte in Hlast by (done || lia). fold A in Hlast.
  rewrite sector_mask, <- Hbase in Hlast by lia.
  destruct (Z.ltb_spec (sector_base A) (size s)) as [Hin | Hout].
  - assert (sector_base A + 4096 <= size s) as Hfit.
    { rewrite Hbase in *. apply sector_fits; [lia | done | done]. }
    destruct (memset (storage s) (sector_base A) 255 4096) as [st|] eqn:Hms.
    2:{ rewrite memset_Some in Hms by lia. done. }
    cbn in Hlast. eexists. split; [by apply transfer_in_reading_cmd |].
    cbn. repeat split; eauto using memset_length; try lia.
    intros i. by rewrite (memset_lookup _ _ _ _ _ i Hms).
  - cbn in Hlast. eexists. split; [by apply transfer_in_reading_cmd |].
    cbn. repeat split; try done; lia.
Qed.

Lemma transfer_idle_erase s :
  write_enable s = true ->
  transfer_idle s CMD_SE
  = set_addr_bytes 0 (set_addr 0 (set_state STATE_READING_CMD (set_cmd CMD_SE s))).
Proof. intros Hwe. unfold transfer_idle. cbn. by rewrite Hwe. Qed.

(** *** Sector erase, whatever the size of the device *)

Lemma sector_base_div a :
  0 <= a < 2 ^ 32 -> sector_base a = 4096 * (a / 4096).
Proof.
  intros Ha. unfold sector_base.
  by rewrite <- sector_mask_spec, sector_mask by lia.
Qed.

(** The last address byte of a sector erase, whatever the size of the
    device: what [transfer_reading_cmd] comes to. *)
Lemma transfer_reading_cmd_erase s b0 :
  state s = STATE_READING_CMD -> cmd s = CMD_SE -> addr_bytes s = 2 ->
  0 <= addr s < 2 ^ 16 -> is_byte b0 ->
  let A := addr s * 256 + b0 in
  transfer_reading_cmd s b0
  = st ← (if sector_base A <? size s
          then memset (storage s) (sector_base A) 0xFF 4096
          else Some (storage s));
    Some (set_state STATE_IDLE
            (set_write_enable false
               (set_storage st (set_addr_bytes 3 (set_addr A s))))).
Proof.
  intros Hst Hcmd Hab Ha Hb0 A.
  assert (0 <= A < 2 ^ 24) as HA by (unfold A, is_byte in *; lia).
  rewrite (transfer_reading_cmd_last s b0 Hab). cbn.
  rewrite Hcmd. cbn.
  rewrite accumulate_byte by (done || lia). fold A.
  by rewrite sector_mask, <- sector_base_div by lia.
Qed.

Lemma transfer_reading_cmd_overrun s b0 :
  flash_wf s ->
  0 <= addr s < 2 ^ 16 -> is_byte b0 -> partial_sector_erase s b0 ->
  g233_flash_transfer s b0 = None.
Proof.
  intros [Hlen _ _ Hsz] Ha Hb0 (Hst & Hcmd & Hab & Hpart).
  unfold g233_flash_transfer. rewrite Hst.
  rewrite transfer_reading_cmd_erase by done. cbv zeta.
  destruct (Z.ltb_spec (sector_base (addr s * 256 + b0)) (size s)); [|lia].
  unfold memset. rewrite decide_False by lia. done.
Qed.

Lemma erase_on_third_byte_fits s b0 :
  flash_wf s ->
  state s = STATE_READING_CMD -> cmd s = CMD_SE -> addr_bytes s = 2 ->
  0 <= addr s < 2 ^ 16 -> is_byte b0 ->
  let A := addr s * 256 + b0 in
  sector_base A + 4096 <= size s \/ size s <= sector_base A ->
  exists s',
    g233_flash_transfer s b0 = Some (s', 0)
    /\ addr s' = A
    /\ write_enable s' = false /\ state s' = STATE_IDLE
    /\ length (storage s') = length (storage s)
    /\ (sector_base A < size s ->
        forall i : nat,
          storage s' !! i
          = if decide (sector_base A <= Z.of_nat i < sector_base A + 4096)
            then Some 0xFF else storage s !! i)
    /\ (size s <= sector_base A -> storage s' = storage s).
Proof.
  intros [Hlen _ _ Hsz] Hst Hcmd Hab Ha Hb0 A Hfit.
  assert (0 <= A < 2 ^ 24) as HA by (unfold A, is_byte in *; lia).
  assert (0 <= sector_base A).
  { rewrite sector_base_div by lia.
    apply Z.mul_nonneg_nonneg; [lia |]. apply Z.div_pos; lia. }
  pose proof (transfer_reading_cmd_erase s b0 Hst Hcmd Hab Ha Hb0) as Hlast.
  cbv zeta in Hlast. fold A in Hlast.
  destruct (Z.ltb_spec (sector_base A) (size s)) as [Hin | Hout].
  - destruct (memset (storage s) (sector_base A) 255 4096) as [st|] eqn:Hms.
    2:{ rewrite memset_Some in Hms by lia. done. }
    cbn in Hlast. eexists. split; [by apply transfer_in_reading_cmd |].
    cbn. repeat split; eauto using memset_length; try lia.
    intros _ i. by rewrite (memset_lookup _ _ _ _ _ i Hms).
  - cbn in Hlast. eexists. split; [by apply transfer_in_reading_cmd |].
    cbn. repeat split; try done; lia.
Qed.

(** C4.  Erase extent.  A sector-erase transaction from [STATE_IDLE] with
    the latch set, on a device of any size, with the address bytes
    [b2 b1 b0], [A] the 24-bit address they spell and
    [sector_base A = A & ~0xFFF].  When the sector starts inside the storage
    and ends outside it ([sector_base A < size < sector_base A + 4096]), the
    opcode and the first two address bytes are taken and the third has no
    defined result: the [memset] of 4096 bytes leaves the storage, although
    [sector_base A < size] holds.  Otherwise the four transfers return 0,
    the write-enable latch is clear and the state is [STATE_IDLE]; when
    [sector_base A < size] exactly the 4096 bytes from [sector_base A] read
    0xFF afterwards and every other byte is what it was, and when
    [size <= sector_base A] the storage is unchanged. *)
Theorem sector_erase_extent s b2 b1 b0 :
  flash_wf s -> state s = STATE_IDLE -> write_enable s = true ->
  is_byte b2 -> is_byte b1 -> is_byte b0 ->
  let A := address24 b2 b1 b0 in
  (sector_base A < size s < sector_base A + 4096 ->
   (exists s3, transfers s [CMD_SE; b2; b1] = Some (s3, [0; 0; 0]))
   /\ transfers s [CMD_SE; b2; b1; b0] = None)
  /\ (sector_base A + 4096 <= size s \/ size s <= sector_base A ->
      exists s',
        transfers s [CMD_SE; b2; b1; b0] = Some (s', [0; 0; 0; 0])
        /\ addr s' = A
        /\ write_enable s' = false /\ state s' = STATE_IDLE
        /\ length (storage s') = length (storage s)
        /\ (sector_base A < size s ->
            forall i : nat,
              storage s' !! i
              = if decide (sector_base A <= Z.of_nat i < sector_base A + 4096)
                then Some 0xFF else storage s !! i)
        /\ (size s <= sector_base A -> storage s' = storage s)).
Proof.
  intros Hwf Hst Hwe H2 H1 H0 A.
  pose (s1 := set_addr_bytes 0 (set_addr 0 (set_state STATE_READING_CMD
                                              (set_cmd CMD_SE s)))).
  pose (s3 := set_addr_bytes 2 (set_addr (b2 * 256 + b1)
                                  (set_addr_bytes 1 (set_addr b2 s1)))).
  assert (flash_wf s3) as Hwf3 by (destruct Hwf; by split).
  assert (g233_flash_transfer s CMD_SE = Some (s1, 0)) as Hop.
  { rewrite transfer_in_idle by done. by rewrite transfer_idle_erase. }
  assert (transfers s1 [b2; b1] = Some (s3, [0; 0])) as Hpre
    by (by apply address_prefix).
  assert (0 <= addr s3 < 2 ^ 16) as Ha3
    by (simpl; unfold is_byte in *; lia).
  assert (addr s3 * 256 + b0 = A) as HA
    by (simpl; unfold A, address24; lia).
  split.
  - intros Hpart. split.
    + exists s3. exact (transfers_cons_Some _ _ [b2; b1] _ _ _ _ Hop Hpre).
    + rewrite transfers_cons, Hop. cbn [mbind option_bind].
      change [b2; b1; b0] with ([b2; b1] ++ [b0]).
      rewrite transfers_app, Hpre. cbn [mbind option_bind].
      rewrite transfers_cons, (transfer_reading_cmd_overrun s3 b0); try done.
      split; [done |]. split; [done |]. split; [done |].
      rewrite HA. change (size s3) with (size s). exact Hpart.
  - intros Hfit.
    destruct (erase_on_third_byte_fits s3 b0)
      as (s' & Htr & Hres); try done.
    { rewrite HA. exact Hfit. }
    exists s'. split.
    + eapply transfers_cons_Some; [exact Hop |].
      apply (transfers_app_Some _ [b2; b1] [b0] s3 [0; 0] s' [0]);
        [exact Hpre |].
      eapply transfers_cons_Some; [exact Htr | apply transfers_nil].
    + rewrite HA in Hres. exact Hres.
Qed.

(** *** Deselecting *)

Lemma cs_deasserted_resets s s' :
  cs_deasserted s = Some s' ->
  state s' = STATE_IDLE /\ data_pos s' = 0 /\ page_pos s' = 0
  /\ addr s' = 0 /\ addr_bytes s' = 0.
Proof.
  unfold cs_deasserted. intros H. simplify_option_eq; done.
Qed.

(** Without a pending page program, deselecting touches neither the storage
    nor the latch. *)
Lemma cs_deasserted_no_program s s' :
  cs_deasserted s = Some s' ->
  ~ (state s = STATE_WRITING_DATA /\ 0 < page_pos s) ->
  storage s' = storage s /\ write_enable s' = write_enable s.
Proof.
  unfold cs_deasserted. intros H Hno.
  destruct (bool_decide _ && _) eqn:Hc.
  - exfalso. apply Hno. apply andb_true_iff in Hc as [Hst Hpos].
    split; [by apply bool_decide_eq_true in Hst | by apply Z.ltb_lt].
  - simplify_option_eq; done.
Qed.

(** With one, the latch is cleared whether the copy happens or not. *)
Lemma cs_deasserted_program s s' :
  cs_deasserted s = Some s' ->
  state s = STATE_WRITING_DATA -> 0 < page_pos s ->
  write_enable s' = false
  /\ (size s < wrap_u32 (addr s + page_pos s) -> storage s' = storage s).
Proof.
  unfold cs_deasserted. intros H Hst Hpos.
  rewrite bool_decide_eq_true_2 in H by done.
  destruct (Z.ltb_spec 0 (page_pos s)); [|lia]. simpl in H.
  destruct (Z.leb_spec (wrap_u32 (addr s + page_pos s)) (size s)).
  - destruct (memcpy _ _ _ _); simplify_option_eq. split; [done | lia].
  - simplify_option_eq. done.
Qed.

(** The copy, when it is in bounds. *)
Lemma cs_deasserted_commit s :
  flash_wf s -> state s = STATE_WRITING_DATA ->
  0 < page_pos s <= 256 -> 0 <= addr s -> addr s + page_pos s <= size s ->
  exists s',
    cs_deasserted s = Some s'
    /\ size s' = size s /\ write_enable s' = false
    /\ length (storage s') = length (storage s)
    /\ page_buf s' = page_buf s /\ jedec_id s' = jedec_id s
    /\ forall i : nat,
        storage s' !! i
        = if decide (addr s <= Z.of_nat i < addr s + page_pos s)
          then page_buf s !! (i - Z.to_nat (addr s))%nat
          else storage s !! i.
Proof.
  intros [Hlen Hpb _ Hsz] Hst Hpos Ha Hfit.
  unfold cs_deasserted.
  rewrite bool_decide_eq_true_2 by done.
  destruct (Z.ltb_spec 0 (page_pos s)); [|lia]. simpl.
  rewrite wrap_u32_small by lia.
  destruct (Z.leb_spec (addr s + page_pos s) (size s)); [|lia].
  destruct (memcpy (storage s) (addr s) (page_buf s) (page_pos s))
    as [st|] eqn:Hcp.
  2:{ rewrite memcpy_Some in Hcp by lia. done. }
  simpl. eexists. split; [done |]. simpl.
  repeat split; eauto using memcpy_length.
  intros i. rewrite (memcpy_lookup _ _ _ _ _ i Hcp).
  case_decide; [|done]. done.
Qed.

(** C8, as the code has it.  Deselecting ([g233_flash_set_cs] with [false],
    or the GPIO handler with a high level) in any state of the data-model
    invariant: the state becomes [STATE_IDLE] and [data_pos], [page_pos],
    [addr], [addr_bytes] become 0.  With a page program pending
    ([STATE_WRITING_DATA] and [page_pos > 0]) the write-enable latch is
    cleared, whether the copy is in bounds or not, and when
    [addr + page_pos > size] the storage is not written.  Without one,
    storage and latch are untouched. *)
Theorem deselect_completes_program s :
  flash_inv s ->
  exists s',
    g233_flash_set_cs s false = Some s'
    /\ (forall n level, level <> 0 -> g233_flash_cs s n level = Some s')
    /\ (state s' = STATE_IDLE /\ data_pos s' = 0 /\ page_pos s' = 0
        /\ addr s' = 0 /\ addr_bytes s' = 0)
    /\ (state s = STATE_WRITING_DATA -> 0 < page_pos s ->
        write_enable s' = false
        /\ (size s < addr s + page_pos s -> storage s' = storage s))
    /\ (~ (state s = STATE_WRITING_DATA /\ 0 < page_pos s) ->
        storage s' = storage s /\ write_enable s' = write_enable s).
Proof.
  intros Hinv.
  destruct (cs_deasserted_defined s Hinv) as [s' Hcs].
  exists s'. split; [exact Hcs |]. split; [|split; [|split]].
  - intros n level Hl. unfold g233_flash_cs.
    destruct (Z.eqb_spec level 0); [done | exact Hcs].
  - eauto using cs_deasserted_resets.
  - intros Hst Hpos.
    destruct (cs_deasserted_program s s' Hcs Hst Hpos) as [Hwe Hsto].
    split; [done |]. intros Hout. apply Hsto.
    destruct Hinv as (_ & [Hpp _ _] & [Ha _ _]).
    rewrite wrap_u32_small by lia. done.
  - eauto using cs_deasserted_no_program.
Qed.

Lemma reachable_inv size_prop s :
  0 <= size_prop < 2 ^ 32 -> reachable size_prop s ->
  flash_inv s /\ size s = size (g233_flash_realize size_prop).
Proof.
  intros Hsz. induction 1 as [| s op s' _ [IH Hsize] Hok Hstep].
  - split; [by apply realize_inv | done].
  - destruct op as [tx | selected | n level |]; simpl in *.
    + destruct (g233_flash_transfer s tx) as [[s1 rx]|] eqn:Htr; [|done].
      injection Hstep as <-. split; [eauto using transfer_inv |].
      destruct (transfer_shape _ _ _ _ Htr) as [-> _]. done.
    + unfold g233_flash_set_cs in Hstep. destruct (negb selected).
      * split; [eauto using cs_deasserted_inv |].
        destruct (cs_deasserted_shape _ _ Hstep) as [-> _]. done.
      * by injection Hstep as <-.
    + unfold g233_flash_cs in Hstep. destruct (negb (level =? 0)).
      * split; [eauto using cs_deasserted_inv |].
        destruct (cs_deasserted_shape _ _ Hstep) as [-> _]. done.
      * by injection Hstep as <-.
    + injection Hstep as <-. split; [by apply reset_inv | done].
Qed.







(** X15.  Every operation a caller can issue (a byte transfer, a
    chip-select edge on either path, a reset) is defined on every reachable
    state of a device whose storage is a whole number of sectors: no access
    leaves an array. *)
Lemma reachable_step_defined size_prop s op :
  0 <= size_prop < 2 ^ 32 ->
  sector_aligned (g233_flash_realize size_prop) ->
  reachable size_prop s -> op_ok op ->
  is_Some (flash_step s op).
Proof.
  intros Hsz Hal Hr Hok.
  destruct (reachable_inv _ _ Hsz Hr) as [Hinv Hsize].
  assert (sector_aligned s) as Hal' by (unfold sector_aligned in *; congruence).
  destruct op as [tx | selected | n level |]; simpl in *.
  - destruct (transfer_defined s tx Hinv Hal' Hok) as [[s' rx] ->]. done.
  - unfold g233_flash_set_cs. destruct (negb selected); [|done].
    by apply cs_deasserted_defined.
  - unfold g233_flash_cs. destruct (negb (level =? 0)); [|done].
    by apply cs_deasserted_defined.
  - done.
Qed.

(** *** Page program: nothing reaches the storage before the deselect *)



Lemma transfer_idle_wren s :
  transfer_idle s CMD_WREN = set_write_enable true (set_cmd CMD_WREN s).
Proof. done. Qed.

Lemma transfer_idle_pp s :
  write_enable s = true ->
  transfer_idle s CMD_PP
  = set_page_pos 0 (set_addr_bytes 0 (set_addr 0
      (set_state STATE_READING_CMD (set_cmd CMD_PP s)))).
Proof. intros Hwe. unfold transfer_idle. cbn. by rewrite Hwe. Qed.

Lemma transfer_idle_read s :
  transfer_idle s CMD_READ
  = set_addr_bytes 0 (set_addr 0
      (set_state STATE_READING_CMD (set_cmd CMD_READ s))).
Proof. done. Qed.

(** WREN then PP, from idle. *)
Lemma page_program_opens s :
  state s = STATE_IDLE ->
  transfers s [CMD_WREN; CMD_PP]
  = Some (set_page_pos 0 (set_addr_bytes 0 (set_addr 0
            (set_state STATE_READING_CMD (set_cmd CMD_PP
               (set_write_enable true (set_cmd CMD_WREN s)))))), [0; 0]).
Proof.
  intros Hst.
  eapply transfers_cons_Some; [|eapply transfers_cons_Some; [|apply transfers_nil]].
  - rewrite transfer_in_idle by done. by rewrite transfer_idle_wren.
  - rewrite transfer_in_idle by done. by rewrite transfer_idle_pp.
Qed.


(** *** Program, deselect, read back *)

(** The data phase of a page program that fits the page buffer. *)
Lemma writing_data_run data : forall s,
  state s = STATE_WRITING_DATA -> length (page_buf s) = 256%nat ->
  0 <= page_pos s -> page_pos s + Z.of_nat (length data) <= 256 ->
  exists s',
    transfers s data = Some (s', replicate (length data) 0)
    /\ state s' = STATE_WRITING_DATA
    /\ page_pos s' = page_pos s + Z.of_nat (length data)
    /\ page_buf s'
       = list_inserts (Z.to_nat (page_pos s)) (wrap_u8 <$> data) (page_buf s)
    /\ storage s' = storage s /\ size s' = size s /\ addr s' = addr s
    /\ jedec_id s' = jedec_id s /\ write_enable s' = write_enable s.
Proof.
  induction data as [| x data IH]; intros s Hst Hlen Hpos Hfit.
  - exists s. rewrite transfers_nil. simpl. repeat split; try done. lia.
  - simpl in Hfit.
    destruct (IH (set_page_pos (page_pos s + 1)
                    (set_page_buf
                       (<[Z.to_nat (page_pos s) := wrap_u8 x]> (page_buf s)) s)))
      as (s' & Hrun & Hst' & Hpos' & Hbuf' & Hrest); simpl; try done; try lia.
    { by rewrite length_insert. }
    simpl in *.
    exists s'. split; [|split; [done | split; [lia | split; [|done]]]].
    + eapply transfers_cons_Some; [|exact Hrun].
      apply transfer_in_writing_data; done || lia.
    + rewrite Hbuf'. replace (Z.to_nat (page_pos s + 1))
        with (S (Z.to_nat (page_pos s))) by lia.
      symmetry. apply list_insert_inserts_lt. lia.
Qed.

(** Reading [n] bytes that lie inside the storage returns them in order. *)
Lemma reading_data_run dummy : forall s,
  flash_wf s -> state s = STATE_READING_DATA ->
  0 <= addr s -> 0 <= data_pos s ->
  addr s + data_pos s + Z.of_nat (length dummy) <= size s ->
  data_pos s + Z.of_nat (length dummy) < 2 ^ 31 ->
  exists s',
    transfers s dummy
    = Some (s', (fun x => Z.land x 0xFF)
                <$> take (length dummy)
                      (drop (Z.to_nat (addr s + data_pos s)) (storage s))).
Proof.
  induction dummy as [| d dummy IH]; intros s Hwf Hst Ha Hdp Hfit Hint.
  - exists s. by rewrite transfers_nil.
  - simpl in Hfit, Hint. destruct Hwf as [Hlen Hpb Hid Hsz].
    destruct (lookup_lt_is_Some_2 (storage s) (Z.to_nat (addr s + data_pos s)))
      as [x Hx]; [lia |].
    destruct (IH (set_data_pos (data_pos s + 1) s)) as (s' & Hrun);
      simpl; try done; try lia.
    simpl in Hrun.
    replace (Z.to_nat (addr s + (data_pos s + 1)))
      with (S (Z.to_nat (addr s + data_pos s))) in Hrun by lia.
    exists s'. rewrite (drop_S _ x _ Hx). simpl.
    eapply transfers_cons_Some; [|exact Hrun].
    apply (transfer_in_reading_data s d x); done || lia.
Qed.

Lemma program_read_back_Some s a2 a1 a0 data dummy s1 r1 s2 s3 r3 s4 r4 :
  transfers s (page_program a2 a1 a0 data) = Some (s1, r1) ->
  g233_flash_set_cs s1 false = Some s2 ->
  transfers s2 [CMD_READ; a2; a1; a0] = Some (s3, r3) ->
  transfers s3 dummy = Some (s4, r4) ->
  program_read_back s a2 a1 a0 data dummy = Some r4.
Proof.
  intros H1 H2 H3 H4. unfold program_read_back.
  rewrite H1. simpl. rewrite H2. simpl. rewrite H3. simpl. by rewrite H4.
Qed.

Lemma land_byte x : is_byte x -> Z.land x 0xFF = x.
Proof.
  intros Hx. change 0xFF with (Z.ones 8).
  rewrite Z.land_ones by lia. apply Z.mod_small. unfold is_byte in Hx. lia.
Qed.

(** The header of a page program, from idle: the device ends up waiting for
    data with an empty page buffer and the address latched. *)
Lemma page_program_header s a2 a1 a0 :
  state s = STATE_IDLE -> is_byte a2 -> is_byte a1 -> is_byte a0 ->
  exists s',
    transfers s [CMD_WREN; CMD_PP; a2; a1; a0] = Some (s', [0; 0; 0; 0; 0])
    /\ state s' = STATE_WRITING_DATA /\ page_pos s' = 0
    /\ addr s' = address24 a2 a1 a0 /\ write_enable s' = true
    /\ storage s' = storage s /\ size s' = size s
    /\ page_buf s' = page_buf s /\ jedec_id s' = jedec_id s.
Proof.
  intros Hst H2 H1 H0.
  pose (s2 := set_page_pos 0 (set_addr_bytes 0 (set_addr 0
                (set_state STATE_READING_CMD (set_cmd CMD_PP
                   (set_write_enable true (set_cmd CMD_WREN s))))))).
  pose (s4 := set_addr_bytes 2 (set_addr (a2 * 256 + a1)
                (set_addr_bytes 1 (set_addr a2 s2)))).
  eexists. split.
  - apply (transfers_app_Some _ [CMD_WREN; CMD_PP] [a2; a1; a0] s2 [0; 0]
             _ [0; 0; 0]).
    { by apply page_program_opens. }
    apply (transfers_app_Some _ [a2; a1] [a0] s4 [0; 0] _ [0]).
    { by apply address_prefix. }
    eapply transfers_cons_Some; [|apply transfers_nil].
    apply transfer_in_reading_cmd; [done |].
    rewrite transfer_reading_cmd_last by done. cbn.
    rewrite accumulate_byte by (done || (unfold is_byte in *; lia)).
    done.
  - simpl. repeat split. unfold address24. lia.
Qed.

(** The opcode and address of a read, from idle. *)
Lemma read_header s a2 a1 a0 :
  state s = STATE_IDLE -> is_byte a2 -> is_byte a1 -> is_byte a0 ->
  exists s',
    transfers s [CMD_READ; a2; a1; a0] = Some (s', [0; 0; 0; 0])
    /\ state s' = STATE_READING_DATA /\ data_pos s' = 0
    /\ addr s' = address24 a2 a1 a0
    /\ storage s' = storage s /\ size s' = size s
    /\ page_buf s' = page_buf s /\ jedec_id s' = jedec_id s.
Proof.
  intros Hst H2 H1 H0.
  pose (s1 := set_addr_bytes 0 (set_addr 0
                (set_state STATE_READING_CMD (set_cmd CMD_READ s)))).
  pose (s3 := set_addr_bytes 2 (set_addr (a2 * 256 + a1)
                (set_addr_bytes 1 (set_addr a2 s1)))).
  eexists. split.
  - eapply transfers_cons_Some.
    { rewrite transfer_in_idle by done. by rewrite transfer_idle_read. }
    apply (transfers_app_Some _ [a2; a1] [a0] s3 [0; 0] _ [0]).
    { by apply address_prefix. }
    eapply transfers_cons_Some; [|apply transfers_nil].
    apply transfer_in_reading_cmd; [done |].
    rewrite transfer_reading_cmd_last by done. cbn.
    rewrite accumulate_byte by (done || (unfold is_byte in *; lia)).
    done.
  - simpl. repeat split. unfold address24. lia.
Qed.

(** What a page program writes is what a read of the same address returns. *)
Lemma program_read_back_returns s a2 a1 a0 data dummy :
  flash_wf s -> state s = STATE_IDLE ->
  is_byte a2 -> is_byte a1 -> is_byte a0 -> Forall is_byte data ->
  (0 < length data <= 256)%nat ->
  address24 a2 a1 a0 + Z.of_nat (length data) <= size s ->
  length dummy = length data ->
  program_read_back s a2 a1 a0 data dummy = Some data.
Proof.
  intros Hwf Hst H2 H1 H0 Hdata Hn Hfit Hdummy.
  set (A := address24 a2 a1 a0) in *.
  assert (0 <= A) by (unfold A, address24, is_byte in *; lia).
  destruct Hwf as [Hlen Hpb Hid Hsz].
  (* the program *)
  destruct (page_program_header s a2 a1 a0)
    as (s5 & Hrun5 & Hst5 & Hpos5 & Ha5 & _ & Hsto5 & Hsz5 & Hpb5 & Hid5);
    try done.
  destruct (writing_data_run data s5)
    as (s6 & Hrun6 & Hst6 & Hpos6 & Hbuf6 & Hsto6 & Hsz6 & Ha6 & Hid6 & _);
    try done; try lia; try congruence.
  rewrite Hpos5 in Hpos6, Hbuf6. simpl in Hpos6, Hbuf6.
  (* the deselect *)
  destruct (cs_deasserted_commit s6)
    as (s7 & Hcs & Hsz7 & _ & Hlen7 & Hpb7 & Hid7 & Hsto7);
    try done; try lia.
  { split; try congruence.
    rewrite Hbuf6, length_inserts. congruence. }
  destruct (cs_deasserted_resets _ _ Hcs) as (Hst7 & _).
  (* the read *)
  destruct (read_header s7 a2 a1 a0)
    as (s8 & Hrun8 & Hst8 & Hdp8 & Ha8 & Hsto8 & Hsz8 & Hpb8 & Hid8);
    try done.
  destruct (reading_data_run dummy s8) as (s9 & Hrun9).
  { split; try congruence.
    rewrite Hpb8, Hpb7, Hbuf6, length_inserts. congruence. }
  { done. }
  { rewrite Ha8. fold A. lia. }
  { lia. }
  { rewrite Ha8, Hdp8, Hsz8, Hsz7, Hsz6, Hsz5. fold A. lia. }
  { rewrite Hdp8. lia. }
  (* what was read is what was programmed *)
  rewrite (program_read_back_Some _ _ _ _ _ _ s6 _ s7 s8 _ s9 _
             (transfers_app_Some _ _ _ _ _ _ _ Hrun5 Hrun6) Hcs Hrun8 Hrun9).
  f_equal. rewrite Ha8, Hdp8, Z.add_0_r, Hsto8, Hdummy. fold A.
  apply list_eq. intros i.
  rewrite list_lookup_fmap, lookup_take, lookup_drop.
  destruct (decide (i < length data)%nat) as [Hi | Hi].
  2:{ rewrite (lookup_ge_None_2 data) by lia. done. }
  rewrite Hsto7, Ha6, Ha5, Hpos6. fold A.
  rewrite decide_True by lia.
  replace (Z.to_nat A + i - Z.to_nat A)%nat with i by lia.
  rewrite Hbuf6, list_lookup_inserts
    by (rewrite ?length_fmap, ?Hpb5, ?Hpb; lia).
  rewrite Nat.sub_0_r, list_lookup_fmap.
  destruct (data !! i) as [x|] eqn:Hx; [|done]. simpl.
  assert (is_byte x) as Hbx.
  { eapply Forall_lookup_1; [exact Hdata | exact Hx]. }
  rewrite wrap_u8_small by exact Hbx. by rewrite land_byte.
Qed.

(** C1.  The end-to-end scenario on a 2 MiB device in [STATE_IDLE]:
    WREN, PP, address 0x000010, five bytes 0xAB, deselect, READ, address
    0x000010; the next five transfers, whatever bytes they send, each return
    0xAB.  (The result does not depend on what the five bytes held before,
    so the erased state of 0x10..0x14 is not assumed.) *)
Theorem end_to_end_scenario s d1 d2 d3 d4 d5 :
  flash_wf s -> size s = 2 * 1024 * 1024 -> state s = STATE_IDLE ->
  end_to_end s [d1; d2; d3; d4; d5] = Some [0xAB; 0xAB; 0xAB; 0xAB; 0xAB].
Proof.
  intros Hwf Hsz Hst. unfold end_to_end.
  apply program_read_back_returns; try done.
  - repeat constructor; done.
  - simpl. lia.
  - rewrite Hsz. simpl. unfold address24. lia.
Qed.

Local Arguments Z.testbit : simpl never.

(** ** Bits *)

Lemma land_pow2 x k :
  0 <= k -> Z.land x (2 ^ k) = if Z.testbit x k then 2 ^ k else 0.
Proof.
  intros Hk. apply Z.bits_inj'. intros n Hn.
  rewrite Z.land_spec, Z.pow2_bits_eqb by done.
  destruct (Z.eqb_spec k n) as [-> | Hne].
  - rewrite andb_true_r. destruct (Z.testbit x n) eqn:E.
    + by rewrite Z.pow2_bits_true.
    + by rewrite Z.bits_0.
  - rewrite andb_false_r. destruct (Z.testbit x k).
    + by rewrite Z.pow2_bits_false.
    + by rewrite Z.bits_0.
Qed.

(** [x & (1 << k)] as a C condition tests bit [k]. *)
Lemma nonzero_land_bit x k :
  0 <= k -> nonzero (Z.land x (Z.shiftl 1 k)) = Z.testbit x k.
Proof.
  intros Hk. rewrite Z.shiftl_1_l, land_pow2 by done. unfold nonzero.
  destruct (Z.testbit x k); [|done].
  destruct (Z.eqb_spec (2 ^ k) 0); [|done].
  pose proof (Z.pow_pos_nonneg 2 k). lia.
Qed.

(** [x & (a | b)] as a C condition tests either. *)
Lemma nonzero_land_lor x a b :
  nonzero (Z.land x (Z.lor a b)) = nonzero (Z.land x a) || nonzero (Z.land x b).
Proof.
  rewrite Z.land_lor_distr_r. unfold nonzero.
  destruct (Z.eqb_spec (Z.lor (Z.land x a) (Z.land x b)) 0) as [E | E].
  - apply Z.lor_eq_0_iff in E as [-> ->]. done.
  - destruct (Z.eqb_spec (Z.land x a) 0) as [Ea | Ea];
      destruct (Z.eqb_spec (Z.land x b) 0) as [Eb | Eb]; try done.
    rewrite Ea, Eb in E. done.
Qed.

(** [(x & m) == m] for a mask of two bits tests both. *)
Lemma land_two_bits x i j :
  0 <= i -> 0 <= j ->
  (Z.land x (Z.lor (2 ^ i) (2 ^ j)) =? Z.lor (2 ^ i) (2 ^ j))
  = Z.testbit x i && Z.testbit x j.
Proof.
  intros Hi Hj.
  destruct (Z.eqb_spec (Z.land x (Z.lor (2 ^ i) (2 ^ j))) (Z.lor (2 ^ i) (2 ^ j)))
    as [E | E].
  - symmetry. apply andb_true_iff. split.
    + apply (f_equal (fun y => Z.testbit y i)) in E.
      rewrite Z.land_spec, Z.lor_spec, Z.pow2_bits_true in E by done.
      simpl in E. by rewrite andb_true_r in E.
    + apply (f_equal (fun y => Z.testbit y j)) in E.
      rewrite Z.land_spec, Z.lor_spec, (Z.pow2_bits_true j) in E by done.
      rewrite orb_true_r in E. by rewrite andb_true_r in E.
  - symmetry. apply not_true_is_false. intros [Bi Bj]%andb_true_iff.
    apply E. apply Z.bits_inj'. intros n Hn.
    rewrite Z.land_spec, Z.lor_spec, !Z.pow2_bits_eqb by done.
    destruct (Z.eqb_spec i n) as [<- | ?]; [by rewrite Bi |].
    destruct (Z.eqb_spec j n) as [<- | ?]; [by rewrite Bj |].
    apply andb_false_r.
Qed.

(** Clearing one bit of a 32-bit register: [x & ~(1 << k)]. *)
Lemma testbit_clear x k n :
  0 <= k -> 0 <= n < 32 ->
  Z.testbit (Z.land x (wrap_u32 (Z.lnot (Z.shiftl 1 k)))) n
  = Z.testbit x n && negb (n =? k).
Proof.
  intros Hk Hn. rewrite Z.land_spec. f_equal.
  unfold wrap_u32. rewrite Z.mod_pow2_bits_low by lia.
  rewrite Z.lnot_spec, Z.shiftl_1_l, Z.pow2_bits_eqb by lia.
  by rewrite Z.eqb_sym.
Qed.

(** Setting bits: [x | m]. *)
Lemma testbit_set x k n :
  0 <= k -> 0 <= n ->
  Z.testbit (Z.lor x (Z.shiftl 1 k)) n = Z.testbit x n || (n =? k).
Proof.
  intros Hk Hn.
  rewrite Z.lor_spec, Z.shiftl_1_l, Z.pow2_bits_eqb by lia.
  by rewrite Z.eqb_sym.
Qed.

Section ControllerFacts.

Context {Bus : Type}.
Variable ssi_transfer : Bus -> Z -> Bus * Z.

Implicit Types s : G233SPIState Bus.

(** ** The interrupt line *)

(** [g233_spi_update_irq] drives the line to the aggregated condition and
    touches nothing but the line and its counter. *)
Lemma update_irq_level s : irq (g233_spi_update_irq s) = interrupt_condition s.
Proof.
  unfold g233_spi_update_irq, interrupt_condition.
  unfold cr2_receive_ie, cr2_transmit_ie, cr2_error_ie, sr_receive_not_empty,
    sr_transmit_empty, sr_underrun, sr_overrun.
  rewrite nonzero_land_lor.
  unfold SPI_CR2_RXNEIE, SPI_CR2_TXEIE, SPI_CR2_ERRIE, SPI_SR_RXNE, SPI_SR_TXE,
    SPI_SR_UDR, SPI_SR_OVR.
  rewrite !nonzero_land_bit by lia. simpl.
  destruct (Z.testbit (cr2 s) 6), (Z.testbit (cr2 s) 7), (Z.testbit (cr2 s) 5),
    (Z.testbit (sr s) 0), (Z.testbit (sr s) 1), (Z.testbit (sr s) 2),
    (Z.testbit (sr s) 3); reflexivity.
Qed.

Lemma update_irq_count s :
  interrupt_count (g233_spi_update_irq s)
  = if interrupt_condition s then wrap_int (interrupt_count s + 1)
    else interrupt_count s.
Proof.
  unfold g233_spi_update_irq, interrupt_condition.
  unfold cr2_receive_ie, cr2_transmit_ie, cr2_error_ie, sr_receive_not_empty,
    sr_transmit_empty, sr_underrun, sr_overrun.
  rewrite nonzero_land_lor.
  unfold SPI_CR2_RXNEIE, SPI_CR2_TXEIE, SPI_CR2_ERRIE, SPI_SR_RXNE, SPI_SR_TXE,
    SPI_SR_UDR, SPI_SR_OVR.
  rewrite !nonzero_land_bit by lia. simpl.
  destruct (Z.testbit (cr2 s) 6), (Z.testbit (cr2 s) 7), (Z.testbit (cr2 s) 5),
    (Z.testbit (sr s) 0), (Z.testbit (sr s) 1), (Z.testbit (sr s) 2),
    (Z.testbit (sr s) 3); reflexivity.
Qed.

Lemma update_irq_frame s :
  let s' := g233_spi_update_irq s in
  ssi s' = ssi s /\ cs_lines s' = cs_lines s /\ cr1 s' = cr1 s
  /\ cr2 s' = cr2 s /\ sr s' = sr s /\ dr_tx s' = dr_tx s
  /\ dr_rx s' = dr_rx s /\ csctrl s' = csctrl s
  /\ prev_csctrl s' = prev_csctrl s
  /\ rx_fifo_has_data s' = rx_fifo_has_data s.
Proof.
  unfold g233_spi_update_irq. simpl.
  repeat match goal with |- context [if ?b then _ else _] => destruct b end;
    simpl; repeat split.
Qed.

Lemma update_irq_condition s :
  interrupt_condition (g233_spi_update_irq s) = interrupt_condition s.
Proof.
  destruct (update_irq_frame s) as (_ & _ & _ & Hcr2 & Hsr & _).
  unfold interrupt_condition, cr2_receive_ie, cr2_transmit_ie, cr2_error_ie,
    sr_receive_not_empty, sr_transmit_empty, sr_underrun, sr_overrun.
  by rewrite Hcr2, Hsr.
Qed.

Lemma update_irq_recomputed s :
  irq (g233_spi_update_irq s) = interrupt_condition (g233_spi_update_irq s).
Proof. by rewrite update_irq_condition, update_irq_level. Qed.

(** ** Reading the data register *)

Lemma read_dr s :
  g233_spi_read s SPI_DR
  = (g233_spi_update_irq
       (set_rx_fifo_has_data false
          (set_sr (Z.land (sr s) (wrap_u32 (Z.lnot SPI_SR_RXNE))) s)),
     dr_rx s).
Proof. reflexivity. Qed.

(** ** Writing the data register *)

Lemma cr1_enable_nonzero s :
  nonzero (Z.land (cr1 s) SPI_CR1_SPE) = cr1_enable s.
Proof. unfold SPI_CR1_SPE, cr1_enable. by rewrite nonzero_land_bit. Qed.

Lemma overrun_condition_nonzero s :
  rx_fifo_has_data s && nonzero (Z.land (sr s) SPI_SR_RXNE)
  = overrun_condition s.
Proof.
  unfold SPI_SR_RXNE, overrun_condition, sr_receive_not_empty.
  by rewrite nonzero_land_bit.
Qed.

Lemma write_dr_enabled s value :
  cr1_enable s = true ->
  let r := ssi_transfer (ssi s) (Z.land value 0xFF) in
  let s' := write_dr ssi_transfer s value in
  ssi s' = fst r
  /\ dr_tx s' = Z.land value 0xFF
  /\ dr_rx s' = Z.land (snd r) 0xFF
  /\ sr s' = sr_after_transfer s
  /\ rx_fifo_has_data s' = true
  /\ cr1 s' = cr1 s /\ cr2 s' = cr2 s
  /\ irq s' = interrupt_condition s'.
Proof.
  intros Hen. unfold write_dr. rewrite cr1_enable_nonzero, Hen.
  rewrite overrun_condition_nonzero. cbn [dr_tx set_dr_tx set_sr sr ssi].
  destruct (ssi_transfer (ssi s) (Z.land value 255)) as [bus rx] eqn:Htr.
  cbv zeta.
  match goal with |- context [g233_spi_update_irq ?x] =>
    destruct (update_irq_frame x)
      as (H1 & H2 & H3 & H4 & H5 & H6 & H7 & H8 & H9 & H10);
    rewrite (update_irq_recomputed x)
  end.
  rewrite H1, H3, H4, H5, H6, H7, H10. clear.
  unfold sr_after_transfer.
  destruct (overrun_condition s); simpl; repeat split.
Qed.

Lemma sr_after_transfer_bits s n :
  0 <= n < 32 ->
  Z.testbit (sr_after_transfer s) n
  = if n =? 0 then true
    else if n =? 1 then true
    else if n =? 7 then false
    else if n =? 3 then Z.testbit (sr s) 3 || overrun_condition s
    else Z.testbit (sr s) n.
Proof.
  intros Hn. unfold sr_after_transfer.
  unfold SPI_SR_TXE, SPI_SR_RXNE, SPI_SR_BSY, SPI_SR_OVR.
  rewrite testbit_clear by lia.
  rewrite Z.lor_spec, Z.lor_spec, !Z.shiftl_1_l, !Z.pow2_bits_eqb by lia.
  assert (Z.testbit (Z.lor (Z.land (sr s) (wrap_u32 (Z.lnot (2 ^ 1)))) (2 ^ 7)) n
          = Z.testbit (sr s) n && negb (n =? 1) || (n =? 7)) as Hsr0.
  { rewrite Z.lor_spec, Z.pow2_bits_eqb, (Z.eqb_sym 7 n) by lia. f_equal.
    rewrite <- (Z.shiftl_1_l 1). apply testbit_clear; lia. }
  assert (Z.testbit
            (if overrun_condition s
             then Z.lor (Z.lor (Z.land (sr s) (wrap_u32 (Z.lnot (2 ^ 1)))) (2 ^ 7))
                    (2 ^ 3)
             else Z.lor (Z.land (sr s) (wrap_u32 (Z.lnot (2 ^ 1)))) (2 ^ 7)) n
          = Z.testbit (sr s) n && negb (n =? 1) || (n =? 7)
            || (overrun_condition s && (n =? 3))) as ->.
  { destruct (overrun_condition s).
    - rewrite Z.lor_spec, Hsr0, Z.pow2_bits_eqb, (Z.eqb_sym 3 n) by lia. done.
    - rewrite Hsr0. by rewrite orb_false_r. }
  rewrite (Z.eqb_sym 1 n), (Z.eqb_sym 0 n).
  destruct (n =? 0) eqn:E0, (n =? 1) eqn:E1, (n =? 7) eqn:E7, (n =? 3) eqn:E3;
    try lia; simpl;
    rewrite ?andb_true_r, ?orb_true_r, ?orb_false_r, ?andb_false_r; try done.
  - apply Z.eqb_eq in E3. by subst n.
  - apply orb_false_r.
Qed.

End ControllerFacts.

Section ControllerProperties.

Context {Bus : Type}.
Variable ssi_transfer : Bus -> Z -> Bus * Z.

Implicit Types s : G233SPIState Bus.

Lemma write_dr_overrun s value :
  cr1_enable s = true ->
  let s' := write_dr ssi_transfer s value in
  sr_overrun s' = sr_overrun s || overrun_condition s
  /\ sr_receive_not_empty s' = true /\ sr_transmit_empty s' = true
  /\ sr_busy s' = false /\ sr_underrun s' = sr_underrun s.
Proof.
  intros Hen.
  destruct (write_dr_enabled ssi_transfer s value Hen)
    as (_ & _ & _ & Hsr & _).
  unfold sr_overrun, sr_receive_not_empty, sr_transmit_empty, sr_busy,
    sr_underrun.
  simpl. rewrite Hsr, !sr_after_transfer_bits by lia. done.
Qed.

(** C5.  Overrun ordering.  With the CR1 enable bit set, two writes of DR
    in a row leave the overrun bit set after the second; the receive latch
    then holds the byte the second transfer returned, and the bus is in the
    state that transfer left it in.  The overrun bit after each write is the
    bit before it or-ed with the overrun condition of the state before that
    write (unread data and receive-not-empty), so it is decided by the
    receive state the transfer found, not by the one it leaves. *)
Theorem overrun_ordering s v1 v2 :
  cr1_enable s = true ->
  let s1 := g233_spi_write ssi_transfer s SPI_DR v1 in
  let s2 := g233_spi_write ssi_transfer s1 SPI_DR v2 in
  sr_overrun s2 = true
  /\ dr_rx s2 = Z.land (snd (ssi_transfer (ssi s1) (Z.land v2 0xFF))) 0xFF
  /\ ssi s2 = fst (ssi_transfer (ssi s1) (Z.land v2 0xFF))
  /\ overrun_condition s1 = true
  /\ sr_overrun s2 = sr_overrun s1 || overrun_condition s1
  /\ sr_overrun s1 = sr_overrun s || overrun_condition s.
Proof.
  intros Hen s1 s2.
  change s2 with (write_dr ssi_transfer s1 v2).
  change s1 with (write_dr ssi_transfer s v1) in *.
  destruct (write_dr_enabled ssi_transfer s v1 Hen)
    as (_ & _ & _ & _ & Hfifo1 & Hcr1 & _).
  destruct (write_dr_overrun s v1 Hen) as (Hovr1 & Hrxne1 & _).
  assert (cr1_enable (write_dr ssi_transfer s v1) = true) as Hen1.
  { unfold cr1_enable in *. by rewrite Hcr1. }
  destruct (write_dr_enabled ssi_transfer _ v2 Hen1)
    as (Hssi2 & _ & Hrx2 & _).
  destruct (write_dr_overrun _ v2 Hen1) as (Hovr2 & _).
  assert (overrun_condition (write_dr ssi_transfer s v1) = true) as Hcond.
  { unfold overrun_condition. by rewrite Hfifo1, Hrxne1. }
  repeat split; try done.
  rewrite Hovr2, Hcond. apply orb_true_r.
Qed.

Lemma read_dr_frame s :
  let s1 := fst (g233_spi_read s SPI_DR) in
  snd (g233_spi_read s SPI_DR) = dr_rx s
  /\ dr_rx s1 = dr_rx s /\ dr_tx s1 = dr_tx s
  /\ cr1 s1 = cr1 s /\ cr2 s1 = cr2 s
  /\ csctrl s1 = csctrl s /\ prev_csctrl s1 = prev_csctrl s
  /\ cs_lines s1 = cs_lines s /\ ssi s1 = ssi s
  /\ (forall n, 0 < n < 32 -> Z.testbit (sr s1) n = Z.testbit (sr s) n)
  /\ sr_receive_not_empty s1 = false
  /\ rx_fifo_has_data s1 = false
  /\ irq s1 = interrupt_condition s1.
Proof.
  rewrite read_dr. cbn [fst snd].
  match goal with |- context [g233_spi_update_irq ?x] =>
    destruct (update_irq_frame x)
      as (H1 & H2 & H3 & H4 & H5 & H6 & H7 & H8 & H9 & H10);
    pose proof (update_irq_recomputed x) as Hirq
  end.
  cbv zeta. unfold sr_receive_not_empty.
  rewrite H1, H2, H3, H4, H5, H6, H7, H8, H9, H10, Hirq. simpl.
  repeat split; try done.
  - intros n Hn. unfold SPI_SR_RXNE. rewrite testbit_clear by lia.
    destruct (Z.eqb_spec n 0); [lia |]. apply andb_true_r.
  - unfold SPI_SR_RXNE. rewrite testbit_clear by lia. apply andb_false_r.
Qed.

Lemma read_dr_count s :
  let s1 := fst (g233_spi_read s SPI_DR) in
  interrupt_count s1
  = if interrupt_condition s1 then wrap_int (interrupt_count s + 1)
    else interrupt_count s.
Proof.
  rewrite read_dr. cbn [fst]. cbv zeta.
  by rewrite update_irq_count, update_irq_condition.
Qed.

(** C10.  Reading DR returns the receive latch and leaves it in place: a
    second read returns the same byte.  The read leaves CR1, CR2, CSCTRL and
    its shadow, both data latches, the select lines and the bus as they
    were, and every status bit but bit 0; it clears receive-not-empty and
    the unread-data marker, recomputes the interrupt line, and adds one to
    [interrupt_count] when the recomputed condition is true. *)
Theorem dr_read_keeps_latch s :
  let s1 := fst (g233_spi_read s SPI_DR) in
  snd (g233_spi_read s SPI_DR) = dr_rx s
  /\ snd (g233_spi_read s1 SPI_DR) = dr_rx s
  /\ dr_rx s1 = dr_rx s /\ dr_tx s1 = dr_tx s
  /\ cr1 s1 = cr1 s /\ cr2 s1 = cr2 s
  /\ csctrl s1 = csctrl s /\ prev_csctrl s1 = prev_csctrl s
  /\ cs_lines s1 = cs_lines s /\ ssi s1 = ssi s
  /\ (forall n, 0 < n < 32 -> Z.testbit (sr s1) n = Z.testbit (sr s) n)
  /\ sr_receive_not_empty s1 = false
  /\ rx_fifo_has_data s1 = false
  /\ irq s1 = interrupt_condition s1
  /\ interrupt_count s1
     = if interrupt_condition s1 then wrap_int (interrupt_count s + 1)
       else interrupt_count s.
Proof.
  intros s1.
  destruct (read_dr_frame s)
    as (Hr & Hrx & H3 & H4 & H5 & H6 & H7 & H8 & H9 & H10 & H11 & H12 & H13).
  destruct (read_dr_frame s1) as (Hr1 & _).
  fold s1 in Hrx, H3, H4, H5, H6, H7, H8, H9, H10, H11, H12, H13.
  split; [done |]. split; [congruence |].
  split; [done |]. split; [done |]. split; [done |]. split; [done |].
  split; [done |]. split; [done |]. split; [done |]. split; [done |].
  split; [done |]. split; [done |]. split; [done |]. split; [done |].
  apply read_dr_count.
Qed.

Lemma interrupt_condition_split s :
  interrupt_condition s
  = (cr2_receive_ie s && sr_receive_not_empty s) || other_conditions s.
Proof. unfold interrupt_condition, other_conditions. by rewrite orb_assoc. Qed.

Lemma other_conditions_read s :
  other_conditions (fst (g233_spi_read s SPI_DR)) = other_conditions s.
Proof.
  destruct (read_dr_frame s) as (_ & _ & _ & _ & Hcr2 & _ & _ & _ & _ & Hsr & _).
  unfold other_conditions, cr2_transmit_ie, cr2_error_ie, sr_transmit_empty,
    sr_underrun, sr_overrun.
  by rewrite Hcr2, !Hsr by lia.
Qed.

(** C6.  Interrupt aggregation.  After a read of DR, a write of CR2, a
    write of SR and an enabled write of DR, the interrupt line is at
    (receive-interrupt-enable and receive-not-empty) or
    (transmit-interrupt-enable and transmit-empty) or
    (error-interrupt-enable and (underrun or overrun)), evaluated in the
    state the operation leaves.  With the CR1 enable bit and the CR2
    receive-interrupt-enable bit set, the line is high right after a write
    of DR, and low after the read of DR that follows when no other enabled
    condition holds. *)
Theorem interrupt_level_aggregation s value :
  irq (fst (g233_spi_read s SPI_DR))
  = interrupt_condition (fst (g233_spi_read s SPI_DR))
  /\ irq (g233_spi_write ssi_transfer s SPI_CR2 value)
     = interrupt_condition (g233_spi_write ssi_transfer s SPI_CR2 value)
  /\ irq (g233_spi_write ssi_transfer s SPI_SR value)
     = interrupt_condition (g233_spi_write ssi_transfer s SPI_SR value)
  /\ (cr1_enable s = true ->
      irq (g233_spi_write ssi_transfer s SPI_DR value)
      = interrupt_condition (g233_spi_write ssi_transfer s SPI_DR value))
  /\ (cr1_enable s = true -> cr2_receive_ie s = true ->
      let s1 := g233_spi_write ssi_transfer s SPI_DR value in
      let s2 := fst (g233_spi_read s1 SPI_DR) in
      irq s1 = true /\ (other_conditions s1 = false -> irq s2 = false)).
Proof.
  split; [|split; [|split; [|split]]].
  - apply read_dr_frame.
  - apply update_irq_recomputed.
  - apply update_irq_recomputed.
  - intros Hen. apply (write_dr_enabled ssi_transfer s value Hen).
  - intros Hen Hie s1 s2.
    change s1 with (write_dr ssi_transfer s value) in *.
    destruct (write_dr_enabled ssi_transfer s value Hen)
      as (_ & _ & _ & _ & _ & _ & Hcr2 & Hirq).
    destruct (write_dr_overrun s value Hen) as (_ & Hrxne & _).
    split.
    + rewrite Hirq. unfold interrupt_condition, cr2_receive_ie.
      rewrite Hcr2. unfold cr2_receive_ie in Hie. by rewrite Hie, Hrxne.
    + intros Hother.
      destruct (read_dr_frame (write_dr ssi_transfer s value))
        as (_ & _ & _ & _ & _ & _ & _ & _ & _ & _ & Hrxne2 & _ & Hirq2).
      pose proof (other_conditions_read (write_dr ssi_transfer s value)) as Ho.
      unfold s2. rewrite Hirq2.
      rewrite interrupt_condition_split, Hrxne2, andb_false_r, orb_false_l, Ho.
      exact Hother.
Qed.

(** ** Chip select *)

(** X25.  A write to CSCTRL drives an attached select line 0 or 1 low
    exactly when the slot's enable bit and active bit are both set in the
    value, and high otherwise. *)
Lemma csctrl_drives_slots_0_1 s value (i : nat) :
  (i = 0 \/ i = 1)%nat -> cs_line_attached s i = true ->
  cs_lines (g233_spi_write ssi_transfer s SPI_CSCTRL value) !! i
  = Some (Some (select_level value (Z.of_nat i))).
Proof.
  intros Hi Hatt.
  change (g233_spi_write ssi_transfer s SPI_CSCTRL value)
    with (write_csctrl s value).
  unfold write_csctrl, cs_line_attached in *. cbn in *.
  assert (forall l : list (option bool), forall j : nat,
             is_Some (l !! j) -> (j < length l)%nat) as Hlt
    by (intros; by apply lookup_lt_is_Some).
  change 17 with (Z.lor (2 ^ 0) (2 ^ 4)).
  change 34 with (Z.lor (2 ^ 1) (2 ^ 5)).
  rewrite !land_two_bits by lia. unfold select_level.
  destruct Hi as [-> | ->]; simpl.
  - destruct (cs_lines s !! 0%nat) as [[l|]|] eqn:H0; try done.
    cbn. 
    assert (0 < length (cs_lines s))%nat by (apply Hlt; eauto).
    destruct (<[0%nat:=_]> (cs_lines s) !! 1%nat) as [[l1|]|]; cbn.
    + rewrite list_lookup_insert_ne by done.
      by rewrite list_lookup_insert_eq.
    + by rewrite list_lookup_insert_eq.
    + by rewrite list_lookup_insert_eq.
  - destruct (cs_lines s !! 1%nat) as [[l|]|] eqn:H1; try done.
    assert (1 < length (cs_lines s))%nat by (apply Hlt; eauto).
    destruct (cs_lines s !! 0%nat) as [[l0|]|] eqn:H0; cbn.
    + rewrite list_lookup_insert_ne, H1 by done. cbn.
      rewrite list_lookup_insert_eq by (rewrite length_insert; lia). done.
    + rewrite H1. cbn. by rewrite list_lookup_insert_eq.
    + rewrite H1. cbn. by rewrite list_lookup_insert_eq.
Qed.

(** X26.  A write to CSCTRL never drives select lines 2 and 3, whatever
    the value. *)
Lemma csctrl_leaves_slots_2_3 s value (i : nat) :
  (2 <= i)%nat ->
  cs_lines (g233_spi_write ssi_transfer s SPI_CSCTRL value) !! i
  = cs_lines s !! i.
Proof.
  intros Hi.
  change (g233_spi_write ssi_transfer s SPI_CSCTRL value)
    with (write_csctrl s value).
  unfold write_csctrl, cs_line_attached, set_cs_line. cbn.
  repeat case_match; cbn; rewrite ?list_lookup_insert_ne by lia; done.
Qed.

End ControllerProperties.

(** C7, at slot 2.  On a controller with a device on each of the four
    select lines, all high after reset, a write of 0x44 to CSCTRL (enable
    bit 2 and active bit 6) leaves line 2 high, where the design document
    gives it the level [select_level 0x44 2 = false]. *)
Theorem csctrl_write_leaves_slot_2 :
  let s := four_device_controller in
  let s' := g233_spi_write idle_bus s SPI_CSCTRL 0x44 in
  cs_line_attached s 2 = true
  /\ cs_lines s !! 2%nat = Some (Some true)
  /\ cs_lines s' !! 2%nat = Some (Some true)
  /\ select_level 0x44 2 = false.
Proof. vm_compute. done. Qed.

(** An out-of-bounds program still clears the latch. *)
Lemma cs_deasserted_out_of_bounds s :
  state s = STATE_WRITING_DATA -> 0 < page_pos s ->
  size s < wrap_u32 (addr s + page_pos s) ->
  cs_deasserted s
  = Some (set_addr_bytes 0 (set_addr 0 (set_page_pos 0 (set_data_pos 0
            (set_state STATE_IDLE
               (set_write_enable false (set_storage (storage s) s))))))).
Proof.
  intros Hst Hpos Hout. unfold cs_deasserted.
  rewrite bool_decide_eq_true_2 by done.
  destruct (Z.ltb_spec 0 (page_pos s)); [|lia]. simpl.
  by destruct (Z.leb_spec (wrap_u32 (addr s + page_pos s)) (size s)); [lia |].
Qed.

(** On a device whose size is not a whole number of sectors, an erase of the
    last, partial sector runs past the end of the storage. *)
Remark erase_of_partial_sector_overruns_storage :
  transfers (set_write_enable true (g233_flash_realize 6000))
            [CMD_SE; 0x00; 0x10; 0x00] = None.
Proof. vm_compute. reflexivity. Qed.

(** C8 as stated fails.  On a fresh 2 MiB device, a page program of one
    byte at address 0x200000 (the first address past the storage) followed
    by a deselect: the copy is out of bounds and the storage is not
    written, but the write-enable latch, set before the deselect, is clear
    after it. *)
Lemma deselect_out_of_bounds_clears_latch :
  exists s rxs s',
    transfers (g233_flash_realize 0) (page_program 0x20 0x00 0x00 [0xAB])
    = Some (s, rxs)
    /\ state s = STATE_WRITING_DATA /\ 0 < page_pos s
    /\ size s < addr s + page_pos s
    /\ write_enable s = true
    /\ g233_flash_set_cs s false = Some s'
    /\ storage s' = storage s
    /\ write_enable s' <> write_enable s.
Proof.
  destruct (page_program_header (g233_flash_realize 0) 0x20 0x00 0x00)
    as (s5 & Hrun5 & Hst5 & Hpos5 & Ha5 & Hwe5 & _ & Hsz5 & Hpb5 & _);
    [reflexivity | unfold is_byte; lia ..|].
  destruct (writing_data_run [0xAB] s5)
    as (s6 & Hrun6 & Hst6 & Hpos6 & _ & _ & Hsz6 & Ha6 & _ & Hwe6);
    [done | by rewrite Hpb5 | lia | simpl; lia |].
  rewrite Hpos5 in Hpos6. rewrite Ha5 in Ha6. rewrite Hsz5 in Hsz6.
  rewrite Hwe5 in Hwe6.
  assert (size s6 = 2097152) as Hsize by (rewrite Hsz6; reflexivity).
  assert (addr s6 = 2097152) as Haddr by (rewrite Ha6; reflexivity).
  assert (page_pos s6 = 1) as Hpp by (rewrite Hpos6; reflexivity).
  eexists s6, _, _. split.
  { apply (transfers_app_Some _ [CMD_WREN; CMD_PP; 0x20; 0x00; 0x00] [0xAB]
             _ _ _ _ Hrun5 Hrun6). }
  split; [done |]. split; [lia |]. split; [lia |]. split; [done |]. split.
  { unfold g233_flash_set_cs. simpl. apply cs_deasserted_out_of_bounds.
    - done.
    - lia.
    - rewrite Haddr, Hpp, Hsize. vm_compute. reflexivity. }
  split; [done |]. simpl. by rewrite Hwe6.
Qed.

(** ** The statements at concrete inputs *)

Lemma realize_default_wf : flash_wf (g233_flash_realize 0).
Proof. apply realize_inv. lia. Qed.

Lemma realize_default_aligned : sector_aligned (g233_flash_realize 0).
Proof. exists 512. reflexivity. Qed.

Lemma end_to_end_scenario_witness :
  flash_wf (g233_flash_realize 0)
  /\ size (g233_flash_realize 0) = 2 * 1024 * 1024
  /\ state (g233_flash_realize 0) = STATE_IDLE
  /\ end_to_end (g233_flash_realize 0) [0; 0; 0; 0; 0]
     = Some [0xAB; 0xAB; 0xAB; 0xAB; 0xAB].
Proof.
  split; [exact realize_default_wf |].
  split; [reflexivity |]. split; [reflexivity |].
  apply (end_to_end_scenario (g233_flash_realize 0) 0 0 0 0 0);
    [exact realize_default_wf | reflexivity | reflexivity].
Defined.


Lemma write_enable_gating_witness :
  state (g233_flash_realize 0) = STATE_IDLE
  /\ write_enable (g233_flash_realize 0) = false
  /\ g233_flash_transfer (g233_flash_realize 0) CMD_SE
     = Some (set_cmd CMD_SE (g233_flash_realize 0), 0).
Proof.
  split; [reflexivity |]. split; [reflexivity |].
  apply (write_enable_gating (g233_flash_realize 0) CMD_SE);
    [reflexivity | reflexivity | right; reflexivity].
Defined.

Lemma sector_erase_extent_witness :
  g233_flash_transfer (g233_flash_realize 2048) CMD_WREN
  = Some (small_enabled_device, 0)
  /\ flash_wf small_enabled_device
  /\ sector_base (address24 0 0 0) < size small_enabled_device
  /\ transfers small_enabled_device [CMD_SE; 0; 0; 0] = None.
Proof.
  assert (flash_wf small_enabled_device) as Hwf.
  { destruct (realize_inv 2048 ltac:(lia)) as [[H1 H2 H3 H4] _].
    split; assumption. }
  split; [reflexivity |]. split; [exact Hwf |]. split; [reflexivity |].
  destruct (sector_erase_extent small_enabled_device 0 0 0 Hwf eq_refl eq_refl)
    as [Hover _]; [unfold is_byte; lia ..|].
  apply Hover. split; reflexivity.
Defined.

Lemma out_of_bounds_program_inv : flash_inv out_of_bounds_program_device.
Proof.
  destruct realize_default_wf as [H1 H2 H3 H4].
  split; [|split].
  - split; [exact H1 | reflexivity | exact H3 | exact H4].
  - split; [simpl; lia | simpl; lia | discriminate].
  - split; [simpl; lia | discriminate | discriminate].
Qed.

Lemma deselect_completes_program_witness :
  flash_inv out_of_bounds_program_device
  /\ state out_of_bounds_program_device = STATE_WRITING_DATA
  /\ 0 < page_pos out_of_bounds_program_device
  /\ size out_of_bounds_program_device
     < addr out_of_bounds_program_device
       + page_pos out_of_bounds_program_device
  /\ write_enable out_of_bounds_program_device = true
  /\ exists s',
      g233_flash_set_cs out_of_bounds_program_device false = Some s'
      /\ state s' = STATE_IDLE /\ page_pos s' = 0
      /\ write_enable s' = false
      /\ storage s' = storage out_of_bounds_program_device.
Proof.
  split; [exact out_of_bounds_program_inv |].
  split; [reflexivity |]. split; [reflexivity |]. split; [reflexivity |].
  split; [reflexivity |].
  destruct (deselect_completes_program out_of_bounds_program_device
              out_of_bounds_program_inv)
    as (s' & Hcs & _ & (Hst & _ & Hpos & _) & Hprog & _).
  destruct (Hprog eq_refl eq_refl) as [Hwe Hsto].
  exists s'. split; [exact Hcs |]. split; [exact Hst |]. split; [exact Hpos |].
  split; [exact Hwe |]. apply Hsto. reflexivity.
Defined.




(** C10 as stated fails.  After reset and a write of 0x80 (TXEIE) to CR2,
    a read of DR leaves the status register, the unread-data marker and the
    interrupt line as they were, and changes [interrupt_count] from 1 to
    2. *)
Lemma dr_read_changes_interrupt_count :
  let s0 := g233_spi_write idle_bus four_device_controller SPI_CR2 0x80 in
  let s1 := fst (g233_spi_read s0 SPI_DR) in
  sr s1 = sr s0
  /\ rx_fifo_has_data s1 = rx_fifo_has_data s0
  /\ irq s1 = irq s0
  /\ interrupt_count s0 = 1 /\ interrupt_count s1 = 2
  /\ s1 <> s0.
Proof.
  vm_compute. repeat split. intros H.
  apply (f_equal interrupt_count) in H. discriminate H.
Qed.

Lemma overrun_ordering_witness :
  cr1_enable enabled_controller = true
  /\ sr_overrun
       (g233_spi_write idle_bus
          (g233_spi_write idle_bus enabled_controller SPI_DR 0x9F) SPI_DR 0x00)
     = true.
Proof.
  split; [reflexivity |].
  apply (overrun_ordering idle_bus enabled_controller 0x9F 0x00).
  reflexivity.
Defined.

Lemma interrupt_level_aggregation_witness :
  cr1_enable enabled_controller = true
  /\ cr2_receive_ie enabled_controller = true
  /\ irq (g233_spi_write idle_bus enabled_controller SPI_DR 0x9F) = true
  /\ irq (fst (g233_spi_read
                 (g233_spi_write idle_bus enabled_controller SPI_DR 0x9F)
                 SPI_DR)) = false.
Proof.
  split; [reflexivity |]. split; [reflexivity |].
  destruct (interrupt_level_aggregation idle_bus enabled_controller 0x9F)
    as (_ & _ & _ & _ & Hrx).
  destruct (Hrx eq_refl eq_refl) as [Hon Hoff].
  split; [exact Hon |]. apply Hoff. reflexivity.
Defined.

(** * Further properties *)

(** ** The flash device *)

(** ** Reads: the JEDEC id, the status register, the data *)

Lemma padded_read_S a start n :
  padded_read a start (S n)
  = from_option (fun x => Z.land x 0xFF) 0xFF (a !! start)
    :: padded_read a (S start) n.
Proof.
  unfold padded_read. simpl. rewrite Nat.add_0_r. f_equal.
  rewrite <- fmap_S_seq, <- list_fmap_compose.
  apply list_fmap_ext. intros i k _. simpl.
  by replace (start + S k)%nat with (S (start + k)) by lia.
Qed.

Lemma padded_read_past_end a start n :
  (length a <= start)%nat -> padded_read a start n = replicate n 0xFF.
Proof.
  revert start. induction n as [| n IH]; intros start Hlen; [done |].
  rewrite padded_read_S, lookup_ge_None_2 by lia. simpl.
  f_equal. apply IH. lia.
Qed.

Lemma padded_read_length a start n : length (padded_read a start n) = n.
Proof. unfold padded_read. by rewrite length_fmap, length_seq. Qed.

Lemma padded_read_lookup a start n (i : nat) :
  (i < n)%nat ->
  padded_read a start n !! i
  = Some (from_option (fun x => Z.land x 0xFF) 0xFF (a !! (start + i)%nat)).
Proof.
  intros Hi. unfold padded_read.
  rewrite list_lookup_fmap, lookup_seq_lt by done. done.
Qed.

(** On an array of bytes, a padded read from the start is a prefix of the
    array followed by 0xFF. *)
Lemma padded_read_bytes a n :
  Forall is_byte a -> padded_read a 0 n = take n (a ++ replicate n 0xFF).
Proof.
  intros Ha. apply list_eq. intros i.
  destruct (decide (i < n)%nat) as [Hi | Hi].
  - rewrite padded_read_lookup, lookup_take_lt by done. simpl.
    destruct (decide (i < length a)%nat) as [Hia | Hia].
    + rewrite lookup_app_l by done.
      destruct (lookup_lt_is_Some_2 a i Hia) as [x Hx]. rewrite Hx. simpl.
      f_equal. apply land_byte. eapply Forall_lookup_1; eauto.
    + rewrite lookup_app_r, lookup_ge_None_2 by lia. simpl.
      symmetry. apply lookup_replicate_2. lia.
  - rewrite lookup_ge_None_2 by (rewrite padded_read_length; lia).
    symmetry. apply lookup_ge_None_2. rewrite length_take. lia.
Qed.

Lemma transfer_in_reading_id s tx x :
  state s = STATE_READING_ID -> 0 <= data_pos s < 3 ->
  jedec_id s !! Z.to_nat (data_pos s) = Some x ->
  g233_flash_transfer s tx
  = Some (set_data_pos (data_pos s + 1) s, Z.land x 0xFF).
Proof.
  intros Hst Hpos Hx. unfold g233_flash_transfer. rewrite Hst.
  destruct (Z.ltb_spec (data_pos s) 3); [|lia].
  unfold array_load. rewrite decide_True by lia. rewrite Hx. simpl.
  by rewrite wrap_int_small by lia.
Qed.

Lemma transfer_in_reading_id_done s tx :
  state s = STATE_READING_ID -> 3 <= data_pos s ->
  g233_flash_transfer s tx = Some (s, 0xFF).
Proof.
  intros Hst Hpos. unfold g233_flash_transfer. rewrite Hst.
  by destruct (Z.ltb_spec (data_pos s) 3); [lia |].
Qed.

Lemma reading_id_run dummy : forall s,
  state s = STATE_READING_ID -> length (jedec_id s) = 3%nat ->
  0 <= data_pos s <= 3 ->
  exists s',
    transfers s dummy
    = Some (s', padded_read (jedec_id s) (Z.to_nat (data_pos s)) (length dummy))
    /\ state s' = STATE_READING_ID /\ storage s' = storage s
    /\ write_enable s' = write_enable s.
Proof.
  induction dummy as [| d dummy IH]; intros s Hst Hlen Hpos.
  - exists s. by rewrite transfers_nil.
  - simpl. rewrite padded_read_S.
    destruct (Z.lt_ge_cases (data_pos s) 3) as [Hlt | Hge].
    + destruct (lookup_lt_is_Some_2 (jedec_id s) (Z.to_nat (data_pos s)))
        as [x Hx]; [lia |].
      destruct (IH (set_data_pos (data_pos s + 1) s))
        as (s' & Hrun & Hst' & Hsto & Hwe); simpl; try done; try lia.
      simpl in Hrun.
      replace (Z.to_nat (data_pos s + 1)) with (S (Z.to_nat (data_pos s)))
        in Hrun by lia.
      exists s'. split; [|done]. rewrite Hx. simpl.
      eapply transfers_cons_Some; [|exact Hrun].
      apply transfer_in_reading_id; done || lia.
    + destruct (IH s) as (s' & Hrun & Hrest); try done.
      exists s'. split; [|done].
      rewrite lookup_ge_None_2 by lia. simpl.
      rewrite padded_read_past_end in Hrun |- * by lia.
      eapply transfers_cons_Some; [|exact Hrun].
      by apply transfer_in_reading_id_done.
Qed.

Lemma transfer_idle_jedec s :
  transfer_idle s CMD_JEDEC_ID
  = set_data_pos 0 (set_state STATE_READING_ID (set_cmd CMD_JEDEC_ID s)).
Proof. done. Qed.

Lemma transfer_idle_rdsr s :
  transfer_idle s CMD_RDSR = set_state STATE_READING_SR (set_cmd CMD_RDSR s).
Proof. done. Qed.

(** What the operations never touch: the identifier and the status
    register. *)
Lemma transfer_reading_cmd_status_reg s tx s' :
  transfer_reading_cmd s tx = Some s' -> status_reg s' = status_reg s.
Proof.
  unfold transfer_reading_cmd. cbn.
  repeat case_match; intros Hs'; simplify_option_eq; done.
Qed.

Lemma transfer_status_reg s tx s' rx :
  g233_flash_transfer s tx = Some (s', rx) -> status_reg s' = status_reg s.
Proof.
  unfold g233_flash_transfer. intros H.
  destruct (state s); simplify_option_eq; split_matches; try done.
  - unfold transfer_idle. case_opcode tx.
    all: try destruct (write_enable _); done.
  - eauto using transfer_reading_cmd_status_reg.
Qed.

Lemma cs_deasserted_status_reg s s' :
  cs_deasserted s = Some s' -> status_reg s' = status_reg s.
Proof.
  unfold cs_deasserted. intros H.
  destruct (bool_decide _ && _); simplify_option_eq; [|done].
  by destruct (_ <=? _); simplify_option_eq.
Qed.

Lemma step_shape s op s' : flash_step s op = Some s' -> same_shape s s'.
Proof.
  destruct op as [tx | sel | n level |]; simpl.
  - destruct (g233_flash_transfer s tx) as [[s1 rx]|] eqn:Htr; [|done].
    intros [= <-]. eauto using transfer_shape.
  - unfold g233_flash_set_cs. destruct (negb sel).
    + apply cs_deasserted_shape.
    + intros [= <-]. by repeat split.
  - unfold g233_flash_cs. destruct (negb (level =? 0)).
    + apply cs_deasserted_shape.
    + intros [= <-]. by repeat split.
  - intros [= <-]. apply reset_shape.
Qed.

Lemma reachable_registers size_prop s :
  reachable size_prop s ->
  status_reg s = 0 /\ jedec_id s = jedec_id (g233_flash_realize size_prop).
Proof.
  induction 1 as [| s op s' _ [IHs IHj] _ Hstep]; [done |].
  split.
  - destruct op as [tx | sel | n level |]; simpl in Hstep.
    + destruct (g233_flash_transfer s tx) as [[s1 rx]|] eqn:Htr; [|done].
      injection Hstep as <-. by rewrite (transfer_status_reg _ _ _ _ Htr).
    + unfold g233_flash_set_cs in Hstep. destruct (negb sel).
      * by rewrite (cs_deasserted_status_reg _ _ Hstep).
      * by injection Hstep as <-.
    + unfold g233_flash_cs in Hstep. destruct (negb (level =? 0)).
      * by rewrite (cs_deasserted_status_reg _ _ Hstep).
      * by injection Hstep as <-.
    + by injection Hstep as <-.
  - destruct (step_shape _ _ _ Hstep) as (_ & -> & _). done.
Qed.

(** X1.  Identification.  On every reachable device in [STATE_IDLE], the
    opcode 0x9F followed by dummy bytes returns 0 for the opcode, then the
    manufacturer byte 0xEF, the memory type 0x30 and the capacity byte
    [g233_flash_realize] chose (0x15 for 2 MiB, 0x16 for 4 MiB, 0 otherwise),
    then 0xFF for every further byte; the storage and the write-enable latch
    are untouched. *)
Theorem jedec_id_read size_prop s dummy :
  reachable size_prop s -> state s = STATE_IDLE ->
  let sz := if size_prop =? 0 then 2 * 1024 * 1024 else size_prop in
  let capacity := if sz =? 2 * 1024 * 1024 then 0x15
                  else if sz =? 4 * 1024 * 1024 then 0x16 else 0 in
  exists s',
    transfers s (CMD_JEDEC_ID :: dummy)
    = Some (s', 0 :: take (length dummy)
                       ([0xEF; 0x30; capacity]
                          ++ replicate (length dummy) 0xFF))
    /\ storage s' = storage s /\ write_enable s' = write_enable s.
Proof.
  intros Hr Hst sz capacity.
  destruct (reachable_registers _ _ Hr) as [_ Hid].
  change (jedec_id (g233_flash_realize size_prop))
    with [0xEF; 0x30; capacity] in Hid.
  destruct (reading_id_run dummy
              (set_data_pos 0 (set_state STATE_READING_ID
                                 (set_cmd CMD_JEDEC_ID s))))
    as (s' & Hrun & _ & Hsto & Hwe); simpl; try done; try lia.
  { by rewrite Hid. }
  simpl in Hrun, Hsto, Hwe. rewrite Hid, padded_read_bytes in Hrun.
  2:{ repeat apply Forall_cons_2; try apply Forall_nil_2;
        unfold is_byte, capacity; repeat case_match; lia. }
  exists s'. split; [|done].
  eapply transfers_cons_Some; [|exact Hrun].
  rewrite transfer_in_idle by done. by rewrite transfer_idle_jedec.
Qed.

(** X2.  Status read.  On every reachable device in [STATE_IDLE], the opcode
    0x05 and one dummy byte return 0 and 0 (no operation ever sets a bit of
    the status register), and the device is back in [STATE_IDLE] after that
    single data byte; the storage and the latch are untouched. *)
Theorem status_read_one_shot size_prop s d :
  reachable size_prop s -> state s = STATE_IDLE ->
  exists s',
    transfers s [CMD_RDSR; d] = Some (s', [0; 0])
    /\ state s' = STATE_IDLE /\ storage s' = storage s
    /\ write_enable s' = write_enable s.
Proof.
  intros Hr Hst.
  destruct (reachable_registers _ _ Hr) as [Hsr _].
  eexists. split.
  - eapply transfers_cons_Some; [|eapply transfers_cons_Some;
                                    [|apply transfers_nil]].
    + rewrite transfer_in_idle by done. by rewrite transfer_idle_rdsr.
    + unfold g233_flash_transfer. simpl. by rewrite Hsr.
  - done.
Qed.

Lemma transfer_in_reading_data_past_end s tx :
  state s = STATE_READING_DATA ->
  0 <= addr s + data_pos s < 2 ^ 32 -> size s <= addr s + data_pos s ->
  - 2 ^ 31 <= data_pos s + 1 < 2 ^ 31 ->
  g233_flash_transfer s tx = Some (set_data_pos (data_pos s + 1) s, 0xFF).
Proof.
  intros Hst Hrange Hout Hdp. unfold g233_flash_transfer. rewrite Hst.
  rewrite wrap_u32_small by lia.
  destruct (Z.ltb_spec (addr s + data_pos s) (size s)); [lia |]. simpl.
  by rewrite wrap_int_small by lia.
Qed.

(** A run of reads: storage bytes while the address is inside the storage,
    0xFF once it is past the end. *)
Lemma reading_data_padded dummy : forall s,
  flash_wf s -> state s = STATE_READING_DATA ->
  0 <= addr s -> 0 <= data_pos s ->
  addr s + data_pos s + Z.of_nat (length dummy) < 2 ^ 32 ->
  data_pos s + Z.of_nat (length dummy) < 2 ^ 31 ->
  exists s',
    transfers s dummy
    = Some (s', padded_read (storage s) (Z.to_nat (addr s + data_pos s))
                  (length dummy))
    /\ storage s' = storage s /\ state s' = STATE_READING_DATA.
Proof.
  induction dummy as [| d dummy IH]; intros s Hwf Hst Ha Hdp Hfit Hint.
  - exists s. by rewrite transfers_nil.
  - simpl in Hfit, Hint. pose proof Hwf as [Hlen Hpb Hid Hsz].
    destruct (IH (set_data_pos (data_pos s + 1) s))
      as (s' & Hrun & Hrest); simpl; try done; try lia.
    simpl in Hrun, Hrest.
    replace (Z.to_nat (addr s + (data_pos s + 1)))
      with (S (Z.to_nat (addr s + data_pos s))) in Hrun by lia.
    exists s'. split; [|done]. simpl. rewrite padded_read_S.
    eapply transfers_cons_Some; [|exact Hrun].
    destruct (Z.lt_ge_cases (addr s + data_pos s) (size s)).
    + destruct (lookup_lt_is_Some_2 (storage s)
                  (Z.to_nat (addr s + data_pos s))) as [x Hx]; [lia |].
      rewrite Hx. simpl.
      apply (transfer_in_reading_data s d x); done || lia.
    + rewrite lookup_ge_None_2 by lia. simpl.
      apply transfer_in_reading_data_past_end; done || lia.
Qed.

Lemma read_run s a2 a1 a0 dummy :
  flash_wf s -> state s = STATE_IDLE ->
  is_byte a2 -> is_byte a1 -> is_byte a0 ->
  Z.of_nat (length dummy) < 2 ^ 31 ->
  exists s',
    transfers s ([CMD_READ; a2; a1; a0] ++ dummy)
    = Some (s', [0; 0; 0; 0]
                ++ padded_read (storage s) (Z.to_nat (address24 a2 a1 a0))
                     (length dummy))
    /\ storage s' = storage s.
Proof.
  intros Hwf Hst H2 H1 H0 Hn.
  assert (0 <= address24 a2 a1 a0 < 2 ^ 24)
    by (unfold address24, is_byte in *; lia).
  destruct (read_header s a2 a1 a0)
    as (s1 & Hrun1 & Hst1 & Hdp1 & Ha1 & Hsto1 & Hsz1 & Hpb1 & Hid1);
    try done.
  destruct (reading_data_padded dummy s1)
    as (s2 & Hrun2 & Hsto2 & _); try done; try lia.
  { destruct Hwf. split; congruence. }
  rewrite Ha1, Hdp1, Z.add_0_r, Hsto1 in Hrun2.
  exists s2. split; [|congruence].
  eapply transfers_app_Some; [exact Hrun1 | exact Hrun2].
Qed.

(** X3.  Read.  From [STATE_IDLE], the opcode 0x03, three address bytes
    spelling [A] and fewer than 2^31 dummy bytes: the four header transfers
    return 0 and the k-th dummy transfer returns the stored byte at [A + k]
    while [A + k] is below the size and 0xFF from there on; the storage is
    unchanged.  A read that starts at or past the size returns only 0xFF. *)
Theorem read_returns_storage_then_pads s a2 a1 a0 dummy :
  flash_wf s -> state s = STATE_IDLE ->
  is_byte a2 -> is_byte a1 -> is_byte a0 ->
  Z.of_nat (length dummy) < 2 ^ 31 ->
  let A := address24 a2 a1 a0 in
  exists s',
    transfers s ([CMD_READ; a2; a1; a0] ++ dummy)
    = Some (s', [0; 0; 0; 0]
                ++ padded_read (storage s) (Z.to_nat A) (length dummy))
    /\ storage s' = storage s
    /\ (size s <= A ->
        padded_read (storage s) (Z.to_nat A) (length dummy)
        = replicate (length dummy) 0xFF).
Proof.
  intros Hwf Hst H2 H1 H0 Hn A.
  destruct (read_run s a2 a1 a0 dummy Hwf Hst H2 H1 H0 Hn)
    as (s' & Hrun & Hsto).
  exists s'. split; [exact Hrun |]. split; [exact Hsto |].
  intros Hout. apply padded_read_past_end.
  assert (0 <= A) by (unfold A, address24, is_byte in *; lia).
  destruct Hwf. lia.
Qed.

(** ** Page program: what is committed *)

(** Once the page buffer is full, further bytes are dropped. *)
Lemma writing_data_full_run txs : forall s,
  state s = STATE_WRITING_DATA -> 256 <= page_pos s ->
  transfers s txs = Some (s, replicate (length txs) 0).
Proof.
  induction txs as [| tx txs IH]; intros s Hst Hfull; [done |].
  simpl. eapply transfers_cons_Some; [|by apply IH].
  by apply transfer_in_writing_data_full.
Qed.

(** The data phase for any number of bytes: the first 256 fill the buffer. *)
Lemma writing_data_any data s :
  state s = STATE_WRITING_DATA -> length (page_buf s) = 256%nat ->
  page_pos s = 0 -> Forall is_byte data ->
  exists s',
    transfers s data = Some (s', replicate (length data) 0)
    /\ state s' = STATE_WRITING_DATA
    /\ page_pos s' = Z.of_nat (length (take 256 data))
    /\ page_buf s' = list_inserts 0 (take 256 data) (page_buf s)
    /\ storage s' = storage s /\ size s' = size s /\ addr s' = addr s
    /\ jedec_id s' = jedec_id s /\ write_enable s' = write_enable s.
Proof.
  intros Hst Hlen Hpos Hbytes.
  destruct (writing_data_run (take 256 data) s)
    as (s1 & Hrun1 & Hst1 & Hpos1 & Hbuf1 & Hsto1 & Hsz1 & Ha1 & Hid1 & Hwe1);
    [done | done | lia | rewrite length_take; lia |].
  rewrite Hpos in Hpos1, Hbuf1. simpl in Hpos1, Hbuf1.
  assert (wrap_u8 <$> take 256 data = take 256 data) as Hwrap.
  { apply list_eq. intros i. rewrite list_lookup_fmap.
    destruct (take 256 data !! i) as [x|] eqn:Hx; [|done]. simpl.
    f_equal. apply wrap_u8_small. change (is_byte x).
    apply lookup_take_Some in Hx as [Hx _].
    exact (Forall_lookup_1 _ _ _ _ Hbytes Hx). }
  rewrite Hwrap in Hbuf1.
  exists s1. split; [|done].
  rewrite <- (take_drop 256 data) at 1.
  replace (replicate (length data) 0)
    with (replicate (length (take 256 data)) 0
            ++ replicate (length (drop 256 data)) 0).
  2:{ rewrite <- replicate_add. f_equal.
      rewrite length_take, length_drop. lia. }
  eapply transfers_app_Some; [exact Hrun1 |].
  destruct (decide (length data <= 256)%nat).
  - rewrite drop_ge by done. apply transfers_nil.
  - apply writing_data_full_run; [done |].
    rewrite Hpos1, length_take. lia.
Qed.

Lemma cs_deasserted_no_copy s :
  ~ (state s = STATE_WRITING_DATA /\ 0 < page_pos s) ->
  cs_deasserted s
  = Some (set_addr_bytes 0 (set_addr 0 (set_page_pos 0 (set_data_pos 0
            (set_state STATE_IDLE s))))).
Proof.
  intros Hno. unfold cs_deasserted.
  destruct (bool_decide _ && _) eqn:Hc; [|done].
  exfalso. apply Hno. apply andb_true_iff in Hc as [Hst Hpos].
  split; [by apply bool_decide_eq_true in Hst | by apply Z.ltb_lt].
Qed.


(** X6.  A page program with no data byte.  From [STATE_IDLE], WREN, PP and
    three address bytes followed at once by a deselect: nothing is written
    and the write-enable latch stays set, since the deselect clears it only
    when at least one byte was buffered. *)
Theorem empty_program_keeps_latch s a2 a1 a0 :
  state s = STATE_IDLE -> is_byte a2 -> is_byte a1 -> is_byte a0 ->
  exists s1 s',
    transfers s (page_program a2 a1 a0 []) = Some (s1, [0; 0; 0; 0; 0])
    /\ g233_flash_set_cs s1 false = Some s'
    /\ storage s' = storage s /\ write_enable s' = true
    /\ state s' = STATE_IDLE.
Proof.
  intros Hst H2 H1 H0.
  destruct (page_program_header s a2 a1 a0)
    as (s1 & Hrun & Hst1 & Hpos1 & _ & Hwe1 & Hsto1 & _); try done.
  exists s1. eexists. split; [exact Hrun |]. split.
  - unfold g233_flash_set_cs. simpl. apply cs_deasserted_no_copy. lia.
  - simpl. done.
Qed.

(** Two device states with the same fields are the same state. *)
Lemma flash_state_eq s1 s2 :
  storage s1 = storage s2 -> size s1 = size s2 ->
  jedec_id s1 = jedec_id s2 -> state s1 = state s2 -> cmd s1 = cmd s2 ->
  addr s1 = addr s2 -> addr_bytes s1 = addr_bytes s2 ->
  data_pos s1 = data_pos s2 -> status_reg s1 = status_reg s2 ->
  write_enable s1 = write_enable s2 -> page_buf s1 = page_buf s2 ->
  page_pos s1 = page_pos s2 -> s1 = s2.
Proof. destruct s1, s2. simpl. intros. by subst. Qed.

Lemma deselect_after_reset s :
  g233_flash_set_cs (g233_flash_reset s) false = Some (g233_flash_reset s).
Proof.
  unfold g233_flash_set_cs. cbn [negb].
  rewrite cs_deasserted_no_copy by (intros [H _]; discriminate H).
  apply (f_equal Some). apply flash_state_eq; simpl; reflexivity.
Qed.

(** X7.  Reset during a page program.  After WREN, PP, the address and any
    data, [g233_flash_reset] leaves the storage as it was before the
    transaction; the buffered bytes are never committed, not even by the
    deselect that follows the reset, which changes nothing at all. *)
Theorem reset_discards_pending_program s a2 a1 a0 data :
  flash_wf s -> state s = STATE_IDLE ->
  is_byte a2 -> is_byte a1 -> is_byte a0 -> Forall is_byte data ->
  exists s1,
    transfers s (page_program a2 a1 a0 data)
    = Some (s1, replicate (5 + length data) 0)
    /\ g233_flash_set_cs (g233_flash_reset s1) false
       = Some (g233_flash_reset s1)
    /\ storage (g233_flash_reset s1) = storage s
    /\ write_enable (g233_flash_reset s1) = false
    /\ state (g233_flash_reset s1) = STATE_IDLE.
Proof.
  intros Hwf Hst H2 H1 H0 Hbytes. destruct Hwf as [Hlen Hpb Hid Hsz].
  destruct (page_program_header s a2 a1 a0)
    as (s5 & Hrun5 & Hst5 & Hpos5 & _ & _ & Hsto5 & _ & Hpb5 & _); try done.
  destruct (writing_data_any data s5)
    as (s6 & Hrun6 & _ & _ & _ & Hsto6 & _); try done; try congruence.
  exists s6. split; [|split; [apply deselect_after_reset | split; [|done]]].
  - change (replicate (5 + length data) 0)
      with ([0; 0; 0; 0; 0] ++ replicate (length data) 0).
    eapply transfers_app_Some; [exact Hrun5 | exact Hrun6].
  - simpl. congruence.
Qed.

(** X9.  In [STATE_IDLE], a byte that is none of the seven opcodes the
    device decodes returns 0 and only records the byte, truncated to 8 bits,
    in [cmd]; WRSR (0x01), which the file defines but never decodes, is
    such a byte. *)
Theorem unknown_opcode_ignored s tx :
  state s = STATE_IDLE ->
  tx <> CMD_JEDEC_ID -> tx <> CMD_RDSR -> tx <> CMD_WREN -> tx <> CMD_WRDI ->
  tx <> CMD_READ -> tx <> CMD_PP -> tx <> CMD_SE ->
  g233_flash_transfer s tx = Some (set_cmd (wrap_u8 tx) s, 0).
Proof.
  intros Hst. intros. rewrite transfer_in_idle by done. f_equal. f_equal.
  unfold transfer_idle. case_opcode tx; done.
Qed.

(** X13.  Who writes the storage.  An operation that changes the storage is
    either a transfer in [STATE_READING_CMD] of a sector erase, or a
    deselect (through [g233_flash_set_cs] or [g233_flash_cs]) in
    [STATE_WRITING_DATA] with at least one byte buffered. *)
Theorem storage_written_only_by_erase_and_commit s op s' :
  flash_step s op = Some s' -> storage s' <> storage s ->
  (exists tx, op = OpTransfer tx
              /\ state s = STATE_READING_CMD /\ cmd s = CMD_SE)
  \/ ((op = OpSetCs false \/ exists n level, op = OpGpioCs n level /\ level <> 0)
      /\ state s = STATE_WRITING_DATA /\ 0 < page_pos s).
Proof.
  intros Hstep Hne.
  assert (forall s1, cs_deasserted s = Some s1 -> storage s1 <> storage s ->
                     state s = STATE_WRITING_DATA /\ 0 < page_pos s) as Hcs.
  { intros s1 H1 Hne1.
    destruct (decide (state s = STATE_WRITING_DATA)) as [? | ?];
      destruct (Z.lt_ge_cases 0 (page_pos s)); try done.
    all: exfalso; apply Hne1;
      apply (cs_deasserted_no_program s s1 H1); intros [? ?]; done || lia. }
  destruct op as [tx | sel | n level |]; simpl in Hstep.
  - left. exists tx. split; [done |].
    destruct (g233_flash_transfer s tx) as [[s1 rx]|] eqn:Htr; [|done].
    injection Hstep as <-.
    destruct (decide (state s = STATE_READING_CMD)) as [? | Hn];
      destruct (decide (cmd s = CMD_SE)) as [? | Hc]; try done.
    all: exfalso; apply Hne; apply (transfer_storage _ _ _ _ Htr);
      intros [? ?]; done.
  - right. unfold g233_flash_set_cs in Hstep. destruct sel; simpl in Hstep.
    + injection Hstep as <-. done.
    + split; [by left | eauto].
  - right. unfold g233_flash_cs in Hstep.
    destruct (Z.eqb_spec level 0); simpl in Hstep.
    + injection Hstep as <-. done.
    + split; [right; eauto | eauto].
  - injection Hstep as <-. done.
Qed.

(** X14.  On every reachable device the size is the one
    [g233_flash_realize] fixed (2 MiB for the property value 0), the storage
    has exactly that many bytes, the page buffer has 256, and the address
    accumulator holds at most 24 bits. *)
Theorem storage_extent_is_fixed size_prop s :
  0 <= size_prop < 2 ^ 32 -> reachable size_prop s ->
  size s = (if size_prop =? 0 then 2 * 1024 * 1024 else size_prop)
  /\ Z.of_nat (length (storage s)) = size s
  /\ length (page_buf s) = 256%nat
  /\ 0 <= addr s < 2 ^ 24.
Proof.
  intros Hsz Hr.
  destruct (reachable_inv _ _ Hsz Hr) as [([H1 H2 _ _] & _ & [H3 _ _]) Hsize].
  done.
Qed.

(** X11.  The last address byte of a sector erase whose sector starts below
    the size but does not end within it: the [memset] of 4096 bytes leaves
    the storage, so the transfer has no defined result.  (The code checks
    only [sector_addr < size].) *)
Theorem erase_of_partial_sector_undefined s b0 :
  flash_wf s ->
  state s = STATE_READING_CMD -> cmd s = CMD_SE -> addr_bytes s = 2 ->
  0 <= addr s < 2 ^ 16 -> is_byte b0 ->
  let A := addr s * 256 + b0 in
  sector_base A < size s < sector_base A + 4096 ->
  g233_flash_transfer s b0 = None.
Proof.
  intros [Hlen _ _ Hsz] Hst Hcmd Hab Ha Hb0 A Hpart.
  assert (0 <= A < 2 ^ 24) as HA by (unfold A, is_byte in *; lia).
  assert (sector_base A = 4096 * (A / 4096)) as Hbase.
  { unfold sector_base. rewrite <- sector_mask_spec, sector_mask by lia. done. }
  unfold g233_flash_transfer. rewrite Hst. simpl.
  rewrite (transfer_reading_cmd_last s b0 Hab). cbn.
  rewrite Hcmd. cbn.
  rewrite accumulate_byte by (done || lia). fold A.
  rewrite sector_mask, <- Hbase by lia.
  destruct (Z.ltb_spec (sector_base A) (size s)); [|lia].
  unfold memset. rewrite decide_False by lia. done.
Qed.

Lemma padded_read_erased a start n :
  (forall i : nat, (start <= i < start + n)%nat ->
     a !! i = Some 0xFF \/ a !! i = None) ->
  padded_read a start n = replicate n 0xFF.
Proof.
  intros Ha. apply list_eq. intros i.
  destruct (decide (i < n)%nat) as [Hi | Hi].
  - rewrite padded_read_lookup, lookup_replicate_2 by done.
    by destruct (Ha (start + i)%nat ltac:(lia)) as [-> | ->].
  - rewrite !lookup_ge_None_2;
      rewrite ?padded_read_length, ?length_replicate; [done | lia | lia].
Qed.

(** X4.  A device fresh from [g233_flash_realize], whatever its size
    property, answers a read at any 24-bit address with 0xFF for every data
    byte. *)
Theorem fresh_device_reads_erased size_prop a2 a1 a0 dummy :
  0 <= size_prop < 2 ^ 32 ->
  is_byte a2 -> is_byte a1 -> is_byte a0 ->
  Z.of_nat (length dummy) < 2 ^ 31 ->
  exists s',
    transfers (g233_flash_realize size_prop) ([CMD_READ; a2; a1; a0] ++ dummy)
    = Some (s', [0; 0; 0; 0] ++ replicate (length dummy) 0xFF).
Proof.
  intros Hsz H2 H1 H0 Hn.
  destruct (read_run (g233_flash_realize size_prop) a2 a1 a0 dummy)
    as (s' & Hrun & _); try done.
  { by apply realize_inv. }
  exists s'. rewrite Hrun, padded_read_erased; [done |].
  intros i _. cbn [storage g233_flash_realize].
  destruct (replicate _ 255 !! i) as [x|] eqn:Hx; [left | by right].
  by apply lookup_replicate in Hx as [-> _].
Qed.

(** ** Erase, then read *)

Lemma sector_erase_run s b2 b1 b0 :
  flash_wf s -> sector_aligned s ->
  state s = STATE_IDLE -> write_enable s = true ->
  is_byte b2 -> is_byte b1 -> is_byte b0 ->
  let A := address24 b2 b1 b0 in
  exists s',
    transfers s [CMD_SE; b2; b1; b0] = Some (s', [0; 0; 0; 0])
    /\ state s' = STATE_IDLE /\ flash_wf s'
    /\ (sector_base A < size s ->
        forall i : nat,
          storage s' !! i
          = if decide (sector_base A <= Z.of_nat i < sector_base A + 4096)
            then Some 0xFF else storage s !! i).
Proof.
  intros Hwf Hal Hst Hwe H2 H1 H0 A.
  pose (s1 := set_addr_bytes 0 (set_addr 0 (set_state STATE_READING_CMD
                                              (set_cmd CMD_SE s)))).
  pose (s3 := set_addr_bytes 2 (set_addr (b2 * 256 + b1)
                                  (set_addr_bytes 1 (set_addr b2 s1)))).
  assert (flash_wf s3) as Hwf3 by (destruct Hwf; by split).
  destruct (erase_on_third_byte s3 b0)
    as (s' & Htr & _ & _ & Hst' & _ & Hin & _);
    [exact Hwf3 | exact Hal | reflexivity | reflexivity | reflexivity
    | simpl; unfold is_byte in *; lia | exact H0 |].
  exists s'. split; [|split; [exact Hst' | split]].
  - eapply transfers_cons_Some.
    { rewrite transfer_in_idle by done. by rewrite transfer_idle_erase. }
    apply (transfers_app_Some _ [b2; b1] [b0] s3 [0; 0] s' [0]).
    + by apply address_prefix.
    + eapply transfers_cons_Some; [exact Htr | apply transfers_nil].
  - exact (same_shape_wf _ _ (transfer_shape _ _ _ _ Htr) Hwf3).
  - cbn [addr storage size set_addr set_addr_bytes set_state set_cmd s1 s3]
      in Hin.
    replace ((b2 * 256 + b1) * 256 + b0) with A in Hin
      by (unfold A, address24; lia).
    intros Hlt. by destruct (Hin Hlt).
Qed.

(** X10.  Erase, then read.  On a device whose storage is a whole number of
    sectors, in [STATE_IDLE] with the latch set: after a sector erase whose
    sector starts below the size, and a deselect, a read that starts and
    ends within that sector returns 0xFF for every data byte. *)
Theorem erased_sector_reads_ff s b2 b1 b0 a2 a1 a0 dummy :
  flash_wf s -> sector_aligned s ->
  state s = STATE_IDLE -> write_enable s = true ->
  is_byte b2 -> is_byte b1 -> is_byte b0 ->
  is_byte a2 -> is_byte a1 -> is_byte a0 ->
  let base := sector_base (address24 b2 b1 b0) in
  base < size s ->
  base <= address24 a2 a1 a0 ->
  address24 a2 a1 a0 + Z.of_nat (length dummy) <= base + 4096 ->
  exists s1 s2 s3,
    transfers s [CMD_SE; b2; b1; b0] = Some (s1, [0; 0; 0; 0])
    /\ g233_flash_set_cs s1 false = Some s2
    /\ transfers s2 ([CMD_READ; a2; a1; a0] ++ dummy)
       = Some (s3, [0; 0; 0; 0] ++ replicate (length dummy) 0xFF).
Proof.
  intros Hwf Hal Hst Hwe Hb2 Hb1 Hb0 Ha2 Ha1 Ha0 base Hin Hlo Hhi.
  destruct (sector_erase_run s b2 b1 b0)
    as (s1 & Hrun1 & Hst1 & Hwf1 & Hsto1); try done.
  specialize (Hsto1 Hin). fold base in Hsto1.
  assert (0 <= base).
  { unfold base, sector_base. apply Z.land_nonneg. left.
    unfold address24, is_byte in *. lia. }
  pose (s2 := set_addr_bytes 0 (set_addr 0 (set_page_pos 0 (set_data_pos 0
                (set_state STATE_IDLE s1))))).
  assert (g233_flash_set_cs s1 false = Some s2) as Hcs.
  { unfold g233_flash_set_cs. cbn [negb].
    apply cs_deasserted_no_copy. rewrite Hst1. by intros [? _]. }
  destruct (read_run s2 a2 a1 a0 dummy) as (s3 & Hrun3 & _); try done.
  { destruct Hwf1. by split. }
  { lia. }
  exists s1, s2, s3. split; [exact Hrun1 |]. split; [exact Hcs |].
  rewrite Hrun3, padded_read_erased; [done |].
  intros i Hi. left. change (storage s2) with (storage s1).
  rewrite Hsto1. rewrite decide_True; [done | lia].
Qed.

(** ** Write disable *)

(** X8.  Write disable.  From [STATE_IDLE], WREN then WRDI then the
    page-program or sector-erase opcode: all three return 0, the last one is
    ignored, the state is still [STATE_IDLE], the latch is clear and the
    storage is unchanged. *)
Theorem write_disable_revokes_enable s tx :
  state s = STATE_IDLE -> tx = CMD_PP \/ tx = CMD_SE ->
  exists s',
    transfers s [CMD_WREN; CMD_WRDI; tx] = Some (s', [0; 0; 0])
    /\ state s' = STATE_IDLE /\ write_enable s' = false
    /\ storage s' = storage s.
Proof.
  intros Hst Htx.
  eexists. split.
  - eapply transfers_cons_Some;
      [by apply transfer_in_idle
      | eapply transfers_cons_Some;
          [by apply transfer_in_idle
          | eapply transfers_cons_Some;
              [by apply transfer_in_idle | apply transfers_nil]]].
  - destruct Htx as [-> | ->]; by repeat split.
Qed.

(** ** Chip select *)

(** X12.  After a deselect, any further chip-select edge, on the SSI hook
    or on the GPIO line and at either level, leaves the device exactly as it
    is. *)
Theorem deselect_is_idempotent s s' n level selected :
  g233_flash_set_cs s false = Some s' ->
  g233_flash_set_cs s' selected = Some s'
  /\ g233_flash_cs s' n level = Some s'.
Proof.
  unfold g233_flash_set_cs, g233_flash_cs. cbn [negb]. intros Hcs.
  destruct (cs_deasserted_resets s s' Hcs) as (Hst & Hdp & Hpp & Ha & Hab).
  assert (cs_deasserted s' = Some s') as Hagain.
  { rewrite cs_deasserted_no_copy by (rewrite Hst; by intros [? _]).
    apply (f_equal Some). by apply flash_state_eq. }
  split; [by destruct (negb selected) | by destruct (negb (level =? 0))].
Qed.

(** ** The byte a transfer returns *)

Lemma land_byte_range x : 0 <= Z.land x 0xFF < 256.
Proof.
  change 0xFF with (Z.ones 8). rewrite Z.land_ones by lia.
  apply Z.mod_pos_bound. lia.
Qed.

(** X27.  Whatever the state and whatever is sent, the value a transfer
    returns is a byte: the result is masked with 0xFF on the way out. *)
Theorem transfer_returns_a_byte s tx s' rx :
  g233_flash_transfer s tx = Some (s', rx) -> is_byte rx.
Proof.
  unfold g233_flash_transfer. intros H.
  destruct (match state s with STATE_IDLE => _ | _ => _ end)
    as [[s1 rx1]|]; [|discriminate H].
  injection H as _ <-. apply land_byte_range.
Qed.

(** ** The controller *)

Section ControllerExtras.

Context {Bus : Type}.
Variable ssi_transfer : Bus -> Z -> Bus * Z.

Implicit Types s : G233SPIState Bus.

(** ** Reset *)

Lemma reset_registers s :
  let s' := g233_spi_reset s in
  cr1 s' = 0 /\ cr2 s' = 0 /\ sr s' = 2 /\ dr_tx s' = 0 /\ dr_rx s' = 0
  /\ csctrl s' = 0 /\ prev_csctrl s' = 0 /\ rx_fifo_has_data s' = false
  /\ interrupt_count s' = 0 /\ irq s' = irq s /\ ssi s' = ssi s.
Proof.
  unfold g233_spi_reset. cbn [foldl].
  repeat match goal with
         | |- context [if ?b then _ else _] => destruct b
         end; cbn; repeat split.
Qed.

Lemma drive_line_lookup s (i j : nat) :
  cs_lines (if cs_line_attached s i then set_cs_line i true s else s) !! j
  = if decide (i = j) then fmap (fun _ => true) <$> (cs_lines s !! j)
    else cs_lines s !! j.
Proof.
  unfold cs_line_attached, set_cs_line.
  destruct (decide (i = j)) as [<- | Hne].
  - destruct (cs_lines s !! i) as [[l|]|] eqn:Hi; simpl; rewrite ?Hi; try done.
    apply list_lookup_insert_eq. by eapply lookup_lt_Some.
  - destruct (cs_lines s !! i) as [[l|]|]; simpl; try done.
    by apply list_lookup_insert_ne.
Qed.

Lemma reset_lines s (i : nat) :
  (i < 4)%nat ->
  cs_lines (g233_spi_reset s) !! i
  = fmap (fun _ => true) <$> (cs_lines s !! i).
Proof.
  intros Hi. unfold g233_spi_reset. cbn [foldl].
  rewrite !drive_line_lookup. cbn [cs_lines set_cr1 set_cr2 set_sr set_dr_tx
    set_dr_rx set_csctrl set_prev_csctrl set_rx_fifo_has_data
    set_interrupt_count].
  repeat case_decide; try lia; done.
Qed.

(** X16.  Controller reset.  [g233_spi_reset] zeroes CR1, CR2, both data
    registers, CSCTRL and its shadow, sets SR to 0x02 (TXE only) and clears
    the software receive flag; every attached select line among the four is
    driven high and an unattached slot is left alone; the interrupt
    condition is false afterwards, but the interrupt line itself is not
    driven. *)
Theorem controller_reset_state s :
  let s' := g233_spi_reset s in
  (cr1 s' = 0 /\ cr2 s' = 0 /\ sr s' = 2 /\ dr_tx s' = 0 /\ dr_rx s' = 0
   /\ csctrl s' = 0 /\ prev_csctrl s' = 0 /\ rx_fifo_has_data s' = false)
  /\ (forall i : nat, (i < 4)%nat ->
        (cs_line_attached s i = true -> cs_lines s' !! i = Some (Some true))
        /\ (cs_line_attached s i = false -> cs_lines s' !! i = cs_lines s !! i))
  /\ interrupt_condition s' = false /\ irq s' = irq s.
Proof.
  intros s'.
  destruct (reset_registers s)
    as (H1 & H2 & H3 & H4 & H5 & H6 & H7 & H8 & _ & H10 & _).
  fold s' in H1, H2, H3, H4, H5, H6, H7, H8, H10.
  split; [done |]. split; [|split; [|done]].
  - intros i Hi. unfold s'. rewrite reset_lines by done.
    unfold cs_line_attached.
    destruct (cs_lines s !! i) as [[l|]|]; simpl; split; done.
  - unfold interrupt_condition, cr2_receive_ie, cr2_transmit_ie, cr2_error_ie.
    rewrite H2. by rewrite !Z.bits_0.
Qed.

(** ** Register accesses *)

Lemma write_cases s addr value :
  g233_spi_write ssi_transfer s addr value
  = if addr =? SPI_CR1 then set_cr1 (wrap_u32 value) s
    else if addr =? SPI_CR2
         then g233_spi_update_irq (set_cr2 (wrap_u32 value) s)
    else if addr =? SPI_SR
         then g233_spi_update_irq
                (set_sr (wrap_u32 (Z.land (sr s)
                   (wrap_u64 (Z.lnot (Z.land value
                      (Z.lor SPI_SR_UDR SPI_SR_OVR)))))) s)
    else if addr =? SPI_DR then write_dr ssi_transfer s value
    else if addr =? SPI_CSCTRL then write_csctrl s value
    else s.
Proof. reflexivity. Qed.

Lemma write_cr1_eq s value :
  g233_spi_write ssi_transfer s SPI_CR1 value = set_cr1 (wrap_u32 value) s.
Proof. reflexivity. Qed.

Lemma write_cr2_eq s value :
  g233_spi_write ssi_transfer s SPI_CR2 value
  = g233_spi_update_irq (set_cr2 (wrap_u32 value) s).
Proof. reflexivity. Qed.

Lemma write_sr_eq s value :
  g233_spi_write ssi_transfer s SPI_SR value
  = g233_spi_update_irq
      (set_sr (wrap_u32 (Z.land (sr s)
         (wrap_u64 (Z.lnot (Z.land value (Z.lor SPI_SR_UDR SPI_SR_OVR)))))) s).
Proof. reflexivity. Qed.

Lemma write_dr_eq s value :
  g233_spi_write ssi_transfer s SPI_DR value = write_dr ssi_transfer s value.
Proof. reflexivity. Qed.

Lemma write_csctrl_eq s value :
  g233_spi_write ssi_transfer s SPI_CSCTRL value = write_csctrl s value.
Proof. reflexivity. Qed.

(** The status bits after a write of SR: a 1 written to the underrun or
    overrun position clears that bit, nothing else changes. *)
Lemma sr_write_bits s value n :
  0 <= n < 32 ->
  Z.testbit (sr (g233_spi_write ssi_transfer s SPI_SR value)) n
  = Z.testbit (sr s) n
    && negb (((n =? 2) || (n =? 3)) && Z.testbit value n).
Proof.
  intros Hn. rewrite write_sr_eq.
  destruct (update_irq_frame
              (set_sr (wrap_u32 (Z.land (sr s)
                 (wrap_u64 (Z.lnot (Z.land value
                    (Z.lor SPI_SR_UDR SPI_SR_OVR)))))) s))
    as (_ & _ & _ & _ & -> & _).
  cbn [sr set_sr]. unfold wrap_u32, wrap_u64.
  rewrite Z.mod_pow2_bits_low, Z.land_spec by lia. f_equal.
  rewrite Z.mod_pow2_bits_low, Z.lnot_spec, Z.land_spec by lia.
  unfold SPI_SR_UDR, SPI_SR_OVR.
  rewrite Z.lor_spec, !Z.shiftl_1_l, !Z.pow2_bits_eqb by lia.
  rewrite (Z.eqb_sym 2 n), (Z.eqb_sym 3 n), andb_comm. done.
Qed.

Lemma sr_write_high_bits s value n :
  32 <= n ->
  Z.testbit (sr (g233_spi_write ssi_transfer s SPI_SR value)) n = false.
Proof.
  intros Hn. rewrite write_sr_eq.
  destruct (update_irq_frame
              (set_sr (wrap_u32 (Z.land (sr s)
                 (wrap_u64 (Z.lnot (Z.land value
                    (Z.lor SPI_SR_UDR SPI_SR_OVR)))))) s))
    as (_ & _ & _ & _ & -> & _).
  cbn [sr set_sr]. unfold wrap_u32.
  apply Z.mod_pow2_bits_high. lia.
Qed.

(** X19.  A write to SR clears the underrun flag when bit 2 of the value is
    set and the overrun flag when bit 3 is; no other bit of SR changes,
    whatever is written; and the interrupt line is recomputed. *)
Theorem status_write_clears_only_errors s value :
  let s' := g233_spi_write ssi_transfer s SPI_SR value in
  sr_receive_not_empty s' = sr_receive_not_empty s
  /\ sr_transmit_empty s' = sr_transmit_empty s
  /\ sr_busy s' = sr_busy s
  /\ sr_underrun s' = sr_underrun s && negb (Z.testbit value 2)
  /\ sr_overrun s' = sr_overrun s && negb (Z.testbit value 3)
  /\ (forall n, 0 <= n < 32 -> n <> 2 -> n <> 3 ->
        Z.testbit (sr s') n = Z.testbit (sr s) n)
  /\ irq s' = interrupt_condition s'.
Proof.
  intros s'. unfold sr_receive_not_empty, sr_transmit_empty, sr_busy,
    sr_underrun, sr_overrun, s'.
  assert (forall n, 0 <= n < 32 -> n <> 2 -> n <> 3 ->
            Z.testbit (sr (g233_spi_write ssi_transfer s SPI_SR value)) n
            = Z.testbit (sr s) n) as Hother.
  { intros n Hn H2 H3. rewrite sr_write_bits by done.
    destruct (Z.eqb_spec n 2), (Z.eqb_spec n 3); try lia.
    simpl. apply andb_true_r. }
  split; [apply Hother; lia |]. split; [apply Hother; lia |].
  split; [apply Hother; lia |].
  split; [by rewrite sr_write_bits by lia |].
  split; [by rewrite sr_write_bits by lia |].
  split; [exact Hother |].
  rewrite write_sr_eq. apply update_irq_recomputed.
Qed.

(** X17.  CR1, CR2 and CSCTRL read back the 32-bit value last written to
    them, and the read changes nothing. *)
Theorem register_write_read_round_trip s reg value :
  reg = SPI_CR1 \/ reg = SPI_CR2 \/ reg = SPI_CSCTRL ->
  0 <= value < 2 ^ 32 ->
  g233_spi_read (g233_spi_write ssi_transfer s reg value) reg
  = (g233_spi_write ssi_transfer s reg value, value).
Proof.
  intros Hreg Hv.
  destruct Hreg as [-> | [-> | ->]].
  - rewrite write_cr1_eq. change (g233_spi_read ?x SPI_CR1) with (x, cr1 x).
    cbn [cr1 set_cr1]. by rewrite wrap_u32_small.
  - rewrite write_cr2_eq. change (g233_spi_read ?x SPI_CR2) with (x, cr2 x).
    destruct (update_irq_frame (set_cr2 (wrap_u32 value) s))
      as (_ & _ & _ & -> & _).
    cbn [cr2 set_cr2]. by rewrite wrap_u32_small.
  - rewrite write_csctrl_eq.
    change (g233_spi_read ?x SPI_CSCTRL) with (x, csctrl x).
    apply (f_equal (pair _)). unfold write_csctrl, set_cs_line.
    repeat match goal with
           | |- context [if ?b then _ else _] => destruct b
           end; cbn; by rewrite wrap_u32_small.
Qed.

(** X18.  An access at an offset other than the five registers: a read
    returns 0 and a write changes nothing. *)
Theorem unmapped_offset_is_inert s addr value :
  addr <> SPI_CR1 -> addr <> SPI_CR2 -> addr <> SPI_SR -> addr <> SPI_DR ->
  addr <> SPI_CSCTRL ->
  g233_spi_read s addr = (s, 0)
  /\ g233_spi_write ssi_transfer s addr value = s.
Proof.
  intros H1 H2 H3 H4 H5. rewrite write_cases. unfold g233_spi_read.
  apply Z.eqb_neq in H1, H2, H3, H4, H5.
  by rewrite H1, H2, H3, H4, H5.
Qed.

(** X20.  With the enable bit of CR1 clear, a write to DR changes nothing:
    no transfer, no status change, no interrupt update. *)
Theorem disabled_data_write_ignored s value :
  cr1_enable s = false -> g233_spi_write ssi_transfer s SPI_DR value = s.
Proof.
  intros Hen. rewrite write_dr_eq.
  unfold write_dr. by rewrite cr1_enable_nonzero, Hen.
Qed.

(** X21.  With the controller enabled, a write to DR sends the low 8 bits
    of the value over the bus once and sets RXNE; the read of DR that
    follows returns the low 8 bits of the bus's answer, leaves the bus as
    the transfer left it and clears RXNE. *)
Theorem data_write_then_read_exchanges_a_byte s value :
  cr1_enable s = true ->
  let r := ssi_transfer (ssi s) (Z.land value 0xFF) in
  let s1 := g233_spi_write ssi_transfer s SPI_DR value in
  snd (g233_spi_read s1 SPI_DR) = Z.land (snd r) 0xFF
  /\ ssi (fst (g233_spi_read s1 SPI_DR)) = fst r
  /\ dr_tx s1 = Z.land value 0xFF
  /\ sr_receive_not_empty s1 = true
  /\ sr_receive_not_empty (fst (g233_spi_read s1 SPI_DR)) = false.
Proof.
  intros Hen r s1.
  change s1 with (write_dr ssi_transfer s value).
  destruct (write_dr_enabled ssi_transfer s value Hen)
    as (Hssi & Htx & Hrx & _).
  destruct (write_dr_overrun ssi_transfer s value Hen) as (_ & Hrxne & _).
  destruct (read_dr_frame (write_dr ssi_transfer s value))
    as (Hret & _ & _ & _ & _ & _ & _ & _ & Hssi' & _ & Hcl & _).
  cbv zeta in *.
  split; [by rewrite Hret, Hrx |].
  split; [by rewrite Hssi', Hssi |].
  split; [exact Htx |].
  split; [exact Hrxne | exact Hcl].
Qed.

(** X22.  With the controller enabled, write DR, read DR, write DR: the
    second write adds no overrun, so the overrun flag after it is the flag
    after the first write, and the flag before the sequence when the first
    write did not overrun either. *)
Theorem read_between_writes_prevents_overrun s v1 v2 :
  cr1_enable s = true ->
  let s1 := g233_spi_write ssi_transfer s SPI_DR v1 in
  let s2 := fst (g233_spi_read s1 SPI_DR) in
  let s3 := g233_spi_write ssi_transfer s2 SPI_DR v2 in
  sr_overrun s3 = sr_overrun s1
  /\ (overrun_condition s = false -> sr_overrun s3 = sr_overrun s).
Proof.
  intros Hen s1 s2 s3.
  change s1 with (write_dr ssi_transfer s v1) in *.
  destruct (write_dr_enabled ssi_transfer s v1 Hen)
    as (_ & _ & _ & _ & _ & Hcr1 & _).
  destruct (write_dr_overrun ssi_transfer s v1 Hen) as (Hovr1 & _).
  destruct (read_dr_frame (write_dr ssi_transfer s v1))
    as (_ & _ & _ & Hcr1' & _ & _ & _ & _ & _ & Hbits & Hrxne & Hfifo & _).
  fold s2 in Hcr1', Hbits, Hrxne, Hfifo.
  assert (cr1_enable s2 = true) as Hen2.
  { unfold cr1_enable in *. by rewrite Hcr1', Hcr1. }
  change s3 with (write_dr ssi_transfer s2 v2).
  destruct (write_dr_overrun ssi_transfer s2 v2 Hen2) as (Hovr3 & _).
  assert (sr_overrun (write_dr ssi_transfer s2 v2)
          = sr_overrun (write_dr ssi_transfer s v1)) as Heq.
  { rewrite Hovr3. unfold overrun_condition. rewrite Hfifo. simpl.
    rewrite orb_false_r. unfold sr_overrun. apply Hbits. lia. }
  split; [exact Heq |]. intros Hno. rewrite Heq, Hovr1, Hno.
  apply orb_false_r.
Qed.

(** ** The status register over whole runs *)

Lemma land_error_mask value :
  let m := Z.land value (Z.lor SPI_SR_UDR SPI_SR_OVR) in
  m = 0 \/ m = 4 \/ m = 8 \/ m = 12.
Proof.
  change (Z.lor SPI_SR_UDR SPI_SR_OVR) with (Z.land (Z.ones 4) 12).
  cbv zeta. rewrite Z.land_assoc, Z.land_ones by lia.
  pose proof (Z.mod_pos_bound value (2 ^ 4) ltac:(lia)) as Hb.
  assert (value `mod` 2 ^ 4 = 0 \/ value `mod` 2 ^ 4 = 1
          \/ value `mod` 2 ^ 4 = 2 \/ value `mod` 2 ^ 4 = 3
          \/ value `mod` 2 ^ 4 = 4 \/ value `mod` 2 ^ 4 = 5
          \/ value `mod` 2 ^ 4 = 6 \/ value `mod` 2 ^ 4 = 7
          \/ value `mod` 2 ^ 4 = 8 \/ value `mod` 2 ^ 4 = 9
          \/ value `mod` 2 ^ 4 = 10 \/ value `mod` 2 ^ 4 = 11
          \/ value `mod` 2 ^ 4 = 12 \/ value `mod` 2 ^ 4 = 13
          \/ value `mod` 2 ^ 4 = 14 \/ value `mod` 2 ^ 4 = 15) as Hc by lia.
  repeat (destruct Hc as [-> | Hc]); try rewrite Hc; vm_compute; tauto.
Qed.

Lemma status_inv_reset s : status_inv (g233_spi_reset s).
Proof.
  destruct (reset_registers s) as (_ & _ & Hsr & _ & _ & _ & _ & Hf & _).
  unfold status_inv, sr_receive_not_empty. rewrite Hsr, Hf. by split; [left |].
Qed.

Lemma status_inv_read s addr :
  status_inv s -> status_inv (fst (g233_spi_read s addr)).
Proof.
  intros [Hsr Hf]. unfold g233_spi_read.
  destruct (addr =? SPI_CR1); [done |]. destruct (addr =? SPI_CR2); [done |].
  destruct (addr =? SPI_SR); [done |].
  destruct (addr =? SPI_DR);
    [| destruct (addr =? SPI_CSCTRL); exact (conj Hsr Hf)].
  clear Hf. cbv zeta. cbn [fst].
  match goal with |- context [g233_spi_update_irq ?x] =>
    destruct (update_irq_frame x) as (_ & _ & _ & _ & H5 & _ & _ & _ & _ & H10)
  end.
  unfold status_inv, sr_receive_not_empty. rewrite H5, H10.
  cbn [sr set_sr rx_fifo_has_data set_rx_fifo_has_data].
  destruct Hsr as [-> | [-> | [-> | ->]]]; vm_compute; tauto.
Qed.

Lemma status_inv_write s addr value :
  status_inv s -> status_inv (g233_spi_write ssi_transfer s addr value).
Proof.
  intros [Hsr Hf]. rewrite write_cases.
  destruct (addr =? SPI_CR1); [exact (conj Hsr Hf) |].
  destruct (addr =? SPI_CR2).
  { destruct (update_irq_frame (set_cr2 (wrap_u32 value) s))
      as (_ & _ & _ & _ & H5 & _ & _ & _ & _ & H10).
    unfold status_inv, sr_receive_not_empty. rewrite H5, H10.
    exact (conj Hsr Hf). }
  destruct (addr =? SPI_SR).
  { match goal with |- context [g233_spi_update_irq ?x] =>
      destruct (update_irq_frame x)
        as (_ & _ & _ & _ & H5 & _ & _ & _ & _ & H10)
    end.
    unfold status_inv, sr_receive_not_empty in *. rewrite H5, H10.
    cbn [sr set_sr rx_fifo_has_data set_rx_fifo_has_data]. rewrite Hf.
    destruct (land_error_mask value) as [-> | [-> | [-> | ->]]];
      destruct Hsr as [-> | [-> | [-> | ->]]]; vm_compute; tauto. }
  destruct (addr =? SPI_DR).
  { destruct (cr1_enable s) eqn:Hen.
    - destruct (write_dr_enabled ssi_transfer s value Hen)
        as (_ & _ & _ & Hsr' & Hf' & _).
      cbv zeta in Hsr', Hf'.
      unfold status_inv, sr_receive_not_empty in *. rewrite Hsr', Hf'.
      unfold sr_after_transfer, overrun_condition, sr_receive_not_empty.
      rewrite Hf.
      destruct Hsr as [-> | [-> | [-> | ->]]]; vm_compute; tauto.
    - unfold write_dr. rewrite cr1_enable_nonzero, Hen. exact (conj Hsr Hf). }
  destruct (addr =? SPI_CSCTRL); [| exact (conj Hsr Hf)].
  unfold write_csctrl, set_cs_line.
  repeat match goal with
         | |- context [if ?b then _ else _] => destruct b
         end; exact (conj Hsr Hf).
Qed.

Lemma spi_reachable_status s :
  spi_reachable ssi_transfer s -> status_inv s.
Proof.
  induction 1 as [s0 | s op _ IH].
  - apply status_inv_reset.
  - destruct op as [addr | addr value |]; simpl.
    + by apply status_inv_read.
    + by apply status_inv_write.
    + apply status_inv_reset.
Qed.

(** X23.  On every state reached from a reset by register reads, register
    writes and resets, SR is one of 0x02, 0x03, 0x0A and 0x0B: TXE is always
    set, BSY and UDR are never visible, and the software receive flag
    equals RXNE. *)
Theorem status_register_values s :
  spi_reachable ssi_transfer s ->
  (sr s = 0x02 \/ sr s = 0x03 \/ sr s = 0x0A \/ sr s = 0x0B)
  /\ rx_fifo_has_data s = sr_receive_not_empty s
  /\ sr_transmit_empty s = true /\ sr_busy s = false
  /\ sr_underrun s = false.
Proof.
  intros [Hsr Hf]%spi_reachable_status.
  split; [done |]. split; [done |].
  unfold sr_transmit_empty, sr_busy, sr_underrun.
  destruct Hsr as [-> | [-> | [-> | ->]]]; done.
Qed.

(** X24.  On every state reached from a reset by register reads, register
    writes and resets, a write to CR2 of a value with bit 7 (TXEIE) set
    raises the interrupt line at once, since TXE is always set. *)
Theorem transmit_interrupt_enable_raises_irq s value :
  spi_reachable ssi_transfer s ->
  Z.testbit value 7 = true ->
  irq (g233_spi_write ssi_transfer s SPI_CR2 value) = true.
Proof.
  intros [Hsr _]%spi_reachable_status Hbit. rewrite write_cr2_eq.
  rewrite update_irq_recomputed, update_irq_condition.
  unfold interrupt_condition, cr2_receive_ie, cr2_transmit_ie, cr2_error_ie,
    sr_receive_not_empty, sr_transmit_empty, sr_underrun, sr_overrun.
  cbn [cr2 set_cr2 sr set_sr].
  assert (Z.testbit (wrap_u32 value) 7 = true) as ->.
  { unfold wrap_u32. by rewrite Z.mod_pow2_bits_low by lia. }
  assert (Z.testbit (sr s) 1 = true) as ->.
  { destruct Hsr as [-> | [-> | [-> | ->]]]; done. }
  simpl. by rewrite orb_true_r.
Qed.

End ControllerExtras.

Section ControllerCounts.

Context {Bus : Type}.
Variable ssi_transfer : Bus -> Z -> Bus * Z.

Implicit Types s : G233SPIState Bus.

(** ** The interrupt counter *)

Lemma write_dr_count s value :
  cr1_enable s = true ->
  interrupt_count (write_dr ssi_transfer s value)
  = if interrupt_condition (write_dr ssi_transfer s value)
    then wrap_int (interrupt_count s + 1) else interrupt_count s.
Proof.
  intros Hen. unfold write_dr. rewrite cr1_enable_nonzero, Hen.
  destruct (ssi_transfer _ _) as [bus rx].
  rewrite update_irq_count, update_irq_condition.
  by destruct (rx_fifo_has_data s && _).
Qed.

(** X28.  With the controller enabled and the receive interrupt enabled, a
    write to DR leaves the interrupt line high and adds one to the interrupt
    counter, whether or not the line was high already: the counter counts
    evaluations that find the condition true, not rising edges. *)
Theorem interrupt_count_counts_evaluations s value :
  cr1_enable s = true -> cr2_receive_ie s = true ->
  let s' := g233_spi_write ssi_transfer s SPI_DR value in
  irq s' = true
  /\ interrupt_count s' = wrap_int (interrupt_count s + 1).
Proof.
  intros Hen Hie s'.
  change s' with (write_dr ssi_transfer s value).
  destruct (write_dr_enabled ssi_transfer s value Hen)
    as (_ & _ & _ & _ & _ & _ & Hcr2 & Hirq).
  destruct (write_dr_overrun ssi_transfer s value Hen) as (_ & Hrxne & _).
  cbv zeta in Hcr2, Hirq, Hrxne.
  assert (interrupt_condition (write_dr ssi_transfer s value) = true) as Hc.
  { unfold interrupt_condition, cr2_receive_ie in *.
    by rewrite Hcr2, Hie, Hrxne. }
  split; [by rewrite Hirq |].
  by rewrite write_dr_count, Hc.
Qed.

(** ** The ranges of the registers *)

Lemma wrap_u32_range x : 0 <= wrap_u32 x < 2 ^ 32.
Proof. unfold wrap_u32. apply Z.mod_pos_bound. lia. Qed.

Lemma range_inv_reset s : range_inv (g233_spi_reset s).
Proof.
  destruct (reset_registers s) as (H1 & H2 & _ & _ & H5 & H6 & _).
  unfold range_inv. rewrite H1, H2, H5, H6. lia.
Qed.

Lemma range_inv_update_irq s :
  range_inv s -> range_inv (g233_spi_update_irq s).
Proof.
  destruct (update_irq_frame s) as (_ & _ & H3 & H4 & _ & _ & H7 & H8 & _).
  unfold range_inv. by rewrite H3, H4, H7, H8.
Qed.

Lemma range_inv_read s addr :
  range_inv s -> range_inv (fst (g233_spi_read s addr)).
Proof.
  intros Hr. unfold g233_spi_read.
  destruct (addr =? SPI_CR1); [done |]. destruct (addr =? SPI_CR2); [done |].
  destruct (addr =? SPI_SR); [done |].
  destruct (addr =? SPI_DR); [| by destruct (addr =? SPI_CSCTRL)].
  cbv zeta. cbn [fst]. by apply range_inv_update_irq.
Qed.

Lemma range_inv_write s addr value :
  range_inv s -> range_inv (g233_spi_write ssi_transfer s addr value).
Proof.
  intros Hr. pose proof Hr as (H1 & H2 & H3 & H4). rewrite write_cases.
  pose proof (wrap_u32_range value) as Hv.
  destruct (addr =? SPI_CR1); [unfold range_inv; simpl; lia |].
  destruct (addr =? SPI_CR2);
    [apply range_inv_update_irq; unfold range_inv; simpl; lia |].
  destruct (addr =? SPI_SR); [by apply range_inv_update_irq |].
  destruct (addr =? SPI_DR).
  { unfold write_dr. destruct (nonzero _); [|done].
    destruct (ssi_transfer _ _) as [bus rx].
    apply range_inv_update_irq.
    pose proof (land_byte_range rx).
    destruct (rx_fifo_has_data s && _); unfold range_inv; simpl; lia. }
  destruct (addr =? SPI_CSCTRL); [|done].
  unfold write_csctrl, set_cs_line.
  repeat match goal with
         | |- context [if ?b then _ else _] => destruct b
         end; unfold range_inv; simpl; lia.
Qed.

Lemma spi_reachable_ranges s :
  spi_reachable ssi_transfer s -> range_inv s.
Proof.
  induction 1 as [s0 | s op _ IH].
  - apply range_inv_reset.
  - destruct op as [addr | addr value |]; simpl.
    + by apply range_inv_read.
    + by apply range_inv_write.
    + apply range_inv_reset.
Qed.

(** X29.  On every state reached from a reset by register reads, register
    writes and resets, a read of any offset returns a value below 2^32, and
    a read of DR returns a byte. *)
Theorem register_reads_in_range s addr :
  spi_reachable ssi_transfer s ->
  0 <= snd (g233_spi_read s addr) < 2 ^ 32
  /\ (addr = SPI_DR -> snd (g233_spi_read s addr) < 256).
Proof.
  intros Hr.
  destruct (spi_reachable_ranges s Hr) as (H1 & H2 & H3 & H4).
  destruct (spi_reachable_status _ s Hr) as [Hsr _].
  unfold g233_spi_read.
  destruct (Z.eqb_spec addr SPI_CR1) as [-> | ?];
    [split; [done | discriminate] |].
  destruct (Z.eqb_spec addr SPI_CR2) as [-> | ?];
    [split; [done | discriminate] |].
  destruct (Z.eqb_spec addr SPI_SR) as [-> | ?].
  { split; [| discriminate]. cbn [snd]. lia. }
  destruct (Z.eqb_spec addr SPI_DR) as [-> | ?].
  { cbv zeta. cbn [snd]. split; [lia | intros _; lia]. }
  destruct (Z.eqb_spec addr SPI_CSCTRL) as [-> | ?];
    [split; [done | discriminate] |].
  cbn [snd]. split; [lia | done].
Qed.

End ControllerCounts.

(** ** The further statements at concrete inputs *)

Lemma jedec_id_read_witness :
  reachable 0 (g233_flash_realize 0)
  /\ exists s',
      transfers (g233_flash_realize 0) [CMD_JEDEC_ID; 0; 0; 0; 0]
      = Some (s', [0; 0xEF; 0x30; 0x15; 0xFF]).
Proof.
  split; [apply reachable_realize |].
  destruct (jedec_id_read 0 (g233_flash_realize 0) [0; 0; 0; 0]
              (reachable_realize 0) eq_refl) as (s' & Hrun & _).
  exists s'. exact Hrun.
Defined.

Lemma status_read_one_shot_witness :
  reachable 0 (g233_flash_realize 0)
  /\ exists s',
      transfers (g233_flash_realize 0) [CMD_RDSR; 0] = Some (s', [0; 0])
      /\ state s' = STATE_IDLE.
Proof.
  split; [apply reachable_realize |].
  destruct (status_read_one_shot 0 (g233_flash_realize 0) 0
              (reachable_realize 0) eq_refl) as (s' & Hrun & Hst & _).
  exists s'. exact (conj Hrun Hst).
Defined.

Lemma read_returns_storage_then_pads_witness :
  flash_wf (g233_flash_realize 0)
  /\ exists s',
      transfers (g233_flash_realize 0) ([CMD_READ; 0x20; 0; 0] ++ [0; 0])
      = Some (s', [0; 0; 0; 0]
                  ++ padded_read (storage (g233_flash_realize 0))
                       (Z.to_nat (address24 0x20 0 0)) (length [0; 0]))
      /\ padded_read (storage (g233_flash_realize 0))
           (Z.to_nat (address24 0x20 0 0)) (length [0; 0])
         = replicate (length [0; 0]) 0xFF.
Proof.
  split; [exact realize_default_wf |].
  destruct (read_returns_storage_then_pads (g233_flash_realize 0) 0x20 0 0
              [0; 0] realize_default_wf eq_refl)
    as (s' & Hrun & _ & Hpad); [unfold is_byte; lia .. | simpl; lia |].
  exists s'. split; [exact Hrun |]. apply Hpad.
  change (size (g233_flash_realize 0)) with (2 * 1024 * 1024).
  unfold address24. lia.
Defined.


Lemma empty_program_keeps_latch_witness :
  state (g233_flash_realize 0) = STATE_IDLE
  /\ exists s1 s',
      transfers (g233_flash_realize 0) (page_program 0 0 0x10 [])
      = Some (s1, [0; 0; 0; 0; 0])
      /\ g233_flash_set_cs s1 false = Some s'
      /\ write_enable s' = true.
Proof.
  split; [reflexivity |].
  destruct (empty_program_keeps_latch (g233_flash_realize 0) 0 0 0x10 eq_refl)
    as (s1 & s' & Hrun & Hcs & _ & Hwe & _); [unfold is_byte; lia ..|].
  exists s1, s'. exact (conj Hrun (conj Hcs Hwe)).
Defined.

Lemma reset_discards_pending_program_witness :
  flash_wf (g233_flash_realize 0)
  /\ exists s1,
      transfers (g233_flash_realize 0) (page_program 0 0 0x10 [0xAB])
      = Some (s1, replicate (5 + length [0xAB]) 0)
      /\ storage (g233_flash_reset s1) = storage (g233_flash_realize 0).
Proof.
  split; [exact realize_default_wf |].
  destruct (reset_discards_pending_program (g233_flash_realize 0) 0 0 0x10
              [0xAB] realize_default_wf eq_refl)
    as (s1 & Hrun & _ & Hsto & _).
  - unfold is_byte; lia.
  - unfold is_byte; lia.
  - unfold is_byte; lia.
  - apply Forall_cons_2; [unfold is_byte; lia | apply Forall_nil_2].
  - exists s1. exact (conj Hrun Hsto).
Defined.

Lemma unknown_opcode_ignored_witness :
  state (g233_flash_realize 0) = STATE_IDLE
  /\ g233_flash_transfer (g233_flash_realize 0) 0xC7
     = Some (set_cmd (wrap_u8 0xC7) (g233_flash_realize 0), 0).
Proof.
  split; [reflexivity |].
  apply (unknown_opcode_ignored (g233_flash_realize 0) 0xC7);
    [reflexivity | vm_compute; discriminate ..].
Defined.

Lemma storage_written_only_by_erase_and_commit_witness :
  exists s',
    flash_step pending_program_device (OpSetCs false) = Some s'
    /\ storage s' <> storage pending_program_device
    /\ state pending_program_device = STATE_WRITING_DATA
    /\ 0 < page_pos pending_program_device.
Proof.
  destruct (flash_step pending_program_device (OpSetCs false)) as [s'|] eqn:Hstep;
    [| vm_compute in Hstep; discriminate Hstep].
  assert (storage s' <> storage pending_program_device) as Hne.
  { vm_compute in Hstep. injection Hstep as <-. vm_compute. discriminate. }
  exists s'. split; [reflexivity |]. split; [exact Hne |].
  destruct (storage_written_only_by_erase_and_commit
              pending_program_device (OpSetCs false) s' Hstep Hne)
    as [(tx & Hop & _) | (_ & Hst & Hpos)]; [discriminate Hop |].
  exact (conj Hst Hpos).
Defined.

Lemma storage_extent_is_fixed_witness :
  reachable 0 (g233_flash_realize 0)
  /\ size (g233_flash_realize 0) = 2 * 1024 * 1024
  /\ length (page_buf (g233_flash_realize 0)) = 256%nat.
Proof.
  split; [apply reachable_realize |].
  destruct (storage_extent_is_fixed 0 (g233_flash_realize 0) ltac:(lia)
              (reachable_realize 0)) as (Hsz & _ & Hpb & _).
  exact (conj Hsz Hpb).
Defined.

Lemma erase_of_partial_sector_undefined_witness :
  flash_wf mid_erase_device
  /\ g233_flash_transfer mid_erase_device 0 = None.
Proof.
  assert (flash_wf mid_erase_device) as Hwf.
  { destruct (realize_inv 6000 ltac:(lia)) as [[H1 H2 H3 H4] _].
    split; assumption. }
  split; [exact Hwf |].
  apply (erase_of_partial_sector_undefined mid_erase_device 0 Hwf
           eq_refl eq_refl eq_refl).
  - simpl. lia.
  - unfold is_byte. lia.
  - vm_compute. split; reflexivity.
Defined.

Lemma fresh_device_reads_erased_witness :
  exists s',
    transfers (g233_flash_realize 0) ([CMD_READ; 0; 0; 0x10] ++ [0; 0; 0])
    = Some (s', [0; 0; 0; 0] ++ replicate (length [0; 0; 0]) 0xFF).
Proof.
  apply (fresh_device_reads_erased 0 0 0 0x10 [0; 0; 0]);
    [lia | unfold is_byte; lia .. | simpl; lia].
Defined.

Lemma erased_sector_reads_ff_witness :
  flash_wf (set_write_enable true (g233_flash_realize 0))
  /\ exists s1 s2 s3,
      transfers (set_write_enable true (g233_flash_realize 0))
                [CMD_SE; 0x00; 0x12; 0x34] = Some (s1, [0; 0; 0; 0])
      /\ g233_flash_set_cs s1 false = Some s2
      /\ transfers s2 ([CMD_READ; 0x00; 0x10; 0x00] ++ [0; 0])
         = Some (s3, [0; 0; 0; 0] ++ replicate (length [0; 0]) 0xFF).
Proof.
  assert (flash_wf (set_write_enable true (g233_flash_realize 0))) as Hwf.
  { destruct realize_default_wf as [H1 H2 H3 H4]. split; assumption. }
  split; [exact Hwf |].
  apply (erased_sector_reads_ff (set_write_enable true (g233_flash_realize 0))
           0x00 0x12 0x34 0x00 0x10 0x00 [0; 0] Hwf realize_default_aligned
           eq_refl eq_refl).
  - unfold is_byte; lia.
  - unfold is_byte; lia.
  - unfold is_byte; lia.
  - unfold is_byte; lia.
  - unfold is_byte; lia.
  - unfold is_byte; lia.
  - change (size (set_write_enable true (g233_flash_realize 0)))
      with (2 * 1024 * 1024).
    vm_compute. reflexivity.
  - vm_compute. discriminate.
  - vm_compute. discriminate.
Defined.

Lemma write_disable_revokes_enable_witness :
  state (g233_flash_realize 0) = STATE_IDLE
  /\ exists s',
      transfers (g233_flash_realize 0) [CMD_WREN; CMD_WRDI; CMD_PP]
      = Some (s', [0; 0; 0])
      /\ write_enable s' = false.
Proof.
  split; [reflexivity |].
  destruct (write_disable_revokes_enable (g233_flash_realize 0) CMD_PP
              eq_refl (or_introl eq_refl)) as (s' & Hrun & _ & Hwe & _).
  exists s'. exact (conj Hrun Hwe).
Defined.

Lemma deselect_is_idempotent_witness :
  exists s',
    g233_flash_set_cs pending_program_device false = Some s'
    /\ g233_flash_set_cs s' false = Some s'
    /\ g233_flash_cs s' 0 1 = Some s'.
Proof.
  destruct (g233_flash_set_cs pending_program_device false) as [s'|] eqn:Hcs;
    [| vm_compute in Hcs; discriminate Hcs].
  exists s'. split; [reflexivity |].
  exact (deselect_is_idempotent pending_program_device s' 0 1 false Hcs).
Defined.

Lemma reachable_step_defined_witness :
  reachable 0 (g233_flash_realize 0)
  /\ is_Some (flash_step (g233_flash_realize 0) (OpTransfer CMD_JEDEC_ID)).
Proof.
  split; [apply reachable_realize |].
  apply (reachable_step_defined 0 (g233_flash_realize 0)
           (OpTransfer CMD_JEDEC_ID) ltac:(lia) realize_default_aligned
           (reachable_realize 0)).
  unfold op_ok, is_byte, CMD_JEDEC_ID. lia.
Defined.

(** *** The controller *)

Lemma register_write_read_round_trip_witness :
  g233_spi_read (g233_spi_write idle_bus four_device_controller SPI_CR2 0xE0)
                SPI_CR2
  = (g233_spi_write idle_bus four_device_controller SPI_CR2 0xE0, 0xE0).
Proof.
  apply (register_write_read_round_trip idle_bus four_device_controller
           SPI_CR2 0xE0); [right; left; reflexivity | lia].
Defined.

Lemma unmapped_offset_is_inert_witness :
  g233_spi_read four_device_controller 0x14 = (four_device_controller, 0)
  /\ g233_spi_write idle_bus four_device_controller 0x14 0xFFFFFFFF
     = four_device_controller.
Proof.
  apply (unmapped_offset_is_inert idle_bus four_device_controller 0x14
           0xFFFFFFFF); vm_compute; discriminate.
Defined.

Lemma disabled_data_write_ignored_witness :
  cr1_enable four_device_controller = false
  /\ g233_spi_write idle_bus four_device_controller SPI_DR 0x9F
     = four_device_controller.
Proof.
  split; [reflexivity |].
  apply (disabled_data_write_ignored idle_bus four_device_controller 0x9F).
  reflexivity.
Defined.

Lemma data_write_then_read_exchanges_a_byte_witness :
  cr1_enable enabled_controller = true
  /\ dr_tx (g233_spi_write idle_bus enabled_controller SPI_DR 0x19F) = 0x9F
  /\ sr_receive_not_empty
       (fst (g233_spi_read
               (g233_spi_write idle_bus enabled_controller SPI_DR 0x19F)
               SPI_DR)) = false.
Proof.
  split; [reflexivity |].
  destruct (data_write_then_read_exchanges_a_byte idle_bus enabled_controller
              0x19F eq_refl) as (_ & _ & Htx & _ & Hrd).
  exact (conj Htx Hrd).
Defined.

Lemma read_between_writes_prevents_overrun_witness :
  cr1_enable enabled_controller = true
  /\ sr_overrun
       (g233_spi_write idle_bus
          (fst (g233_spi_read
                  (g233_spi_write idle_bus enabled_controller SPI_DR 0x9F)
                  SPI_DR))
          SPI_DR 0x00)
     = sr_overrun enabled_controller.
Proof.
  split; [reflexivity |].
  destruct (read_between_writes_prevents_overrun idle_bus enabled_controller
              0x9F 0x00 eq_refl) as [_ Hno].
  apply Hno. reflexivity.
Defined.

Lemma status_register_values_witness :
  spi_reachable idle_bus enabled_controller
  /\ sr_transmit_empty enabled_controller = true
  /\ sr_busy enabled_controller = false.
Proof.
  assert (spi_reachable idle_bus enabled_controller) as Hr.
  { apply (spi_reachable_step idle_bus _ (SpiWrite SPI_CR2 0x40)).
    apply (spi_reachable_step idle_bus _ (SpiWrite SPI_CR1 0x44)).
    apply spi_reachable_reset. }
  split; [exact Hr |].
  destruct (status_register_values idle_bus enabled_controller Hr)
    as (_ & _ & Htxe & Hbsy & _).
  exact (conj Htxe Hbsy).
Defined.

Lemma transmit_interrupt_enable_raises_irq_witness :
  spi_reachable idle_bus four_device_controller
  /\ irq (g233_spi_write idle_bus four_device_controller SPI_CR2 0x80) = true.
Proof.
  split; [apply spi_reachable_reset |].
  apply (transmit_interrupt_enable_raises_irq idle_bus four_device_controller
           0x80 (spi_reachable_reset idle_bus _) eq_refl).
Defined.

Lemma csctrl_drives_slots_0_1_witness :
  cs_line_attached four_device_controller 0 = true
  /\ cs_lines (g233_spi_write idle_bus four_device_controller SPI_CSCTRL 0x11)
       !! 0%nat
     = Some (Some (select_level 0x11 (Z.of_nat 0))).
Proof.
  split; [reflexivity |].
  apply (csctrl_drives_slots_0_1 idle_bus four_device_controller 0x11 0);
    [left; reflexivity | reflexivity].
Defined.

Lemma csctrl_leaves_slots_2_3_witness :
  cs_lines (g233_spi_write idle_bus four_device_controller SPI_CSCTRL 0xFF)
    !! 3%nat
  = cs_lines four_device_controller !! 3%nat.
Proof.
  apply (csctrl_leaves_slots_2_3 idle_bus four_device_controller 0xFF 3). lia.
Defined.

Lemma transfer_returns_a_byte_witness :
  g233_flash_transfer (g233_flash_realize 0) CMD_WREN
  = Some (transfer_idle (g233_flash_realize 0) CMD_WREN, 0)
  /\ is_byte 0.
Proof.
  assert (g233_flash_transfer (g233_flash_realize 0) CMD_WREN
          = Some (transfer_idle (g233_flash_realize 0) CMD_WREN, 0)) as Htr
    by (apply transfer_in_idle; reflexivity).
  split; [exact Htr |].
  exact (transfer_returns_a_byte (g233_flash_realize 0) CMD_WREN
           (transfer_idle (g233_flash_realize 0) CMD_WREN) 0 Htr).
Defined.

Lemma interrupt_count_counts_evaluations_witness :
  cr1_enable enabled_controller = true
  /\ cr2_receive_ie enabled_controller = true
  /\ interrupt_count (g233_spi_write idle_bus enabled_controller SPI_DR 0x9F)
     = wrap_int (interrupt_count enabled_controller + 1).
Proof.
  split; [reflexivity |]. split; [reflexivity |].
  apply (interrupt_count_counts_evaluations idle_bus enabled_controller 0x9F
           eq_refl eq_refl).
Defined.

Lemma register_reads_in_range_witness :
  spi_reachable idle_bus four_device_controller
  /\ 0 <= snd (g233_spi_read four_device_controller SPI_SR) < 2 ^ 32.
Proof.
  split; [apply spi_reachable_reset |].
  apply (register_reads_in_range idle_bus four_device_controller SPI_SR
           (spi_reachable_reset idle_bus _)).
Defined.
